(** * Grand Comics Database talker: metadata resolution pipeline

    A shallow embedding of [gcd/gcd.py] (class [GCDTalkerExt]) and the
    properties of its specification.

    Layout:
    - [Py]: the Python built-ins the talker relies on ([str.split],
      [str.join], truthiness, [str()]);
    - the data model ([GCDSeries], [GCDIssue], [GCDCredit],
      [GenericMetadata]) and the collaborators the talker calls but does
      not own (SQLite, [ComicCacher], [json], [requests], [BeautifulSoup],
      [comicapi.utils]);
    - the talker's methods, pure ones as functions and effectful ones in a
      state-and-exception monad whose state carries the cache, the
      [has_issue_id_type_id_index] flag and a log of every query and
      request issued;
    - the theorems. *)

From Stdlib Require Import ZArith List String Ascii Bool Lia DecimalString.
Import ListNotations.
Local Open Scope string_scope.
Local Open Scope list_scope.

Set Implicit Arguments.

(* ===================================================================== *)
(** * Python built-ins *)
(* ===================================================================== *)

Module Py.

(** ["\n"] and ["\n\n"]. *)
Definition nl : string := String (ascii_of_nat 10) "".
Definition nlnl : string := nl ++ nl.

(** [bool(s)] for a [str]. *)
Definition nonempty (s : string) : bool :=
  match s with "" => false | _ => true end.

(** [sep.join(l)]. *)
Definition join (sep : string) (l : list string) : string := String.concat sep l.

(** [s.split(sep)] for a non-empty [sep]: scan from the left, cut at every
    occurrence of [sep] that does not overlap the previous one.  [skip]
    counts the characters of a matched separator still to be passed over. *)
Fixpoint split_go (sep : string) (skip : nat) (s : string) : list string :=
  match s with
  | "" => [""]
  | String c s' =>
      match skip with
      | S k => split_go sep k s'
      | O =>
          if prefix sep s then "" :: split_go sep (String.length sep - 1) s'
          else match split_go sep 0 s' with
               | piece :: rest => String c piece :: rest
               | [] => [String c ""]
               end
      end
  end.

Definition split (sep s : string) : list string := split_go sep 0 s.

(** [str(n)] for an [int]. *)
Definition str_of_int (n : Z) : string := NilZero.string_of_int (Z.to_int n).

End Py.

(* ===================================================================== *)
(** * Data model *)
(* ===================================================================== *)

(** A value read from a SQLite column: [None], an [int] or a [str]. *)
Inductive sqlval : Type :=
| VNull
| VInt (n : Z)
| VText (s : string).

(** [bool(v)]. *)
Definition truthy (v : sqlval) : bool :=
  match v with
  | VNull => false
  | VInt n => negb (n =? 0)%Z
  | VText s => Py.nonempty s
  end.

(** [str(v)], also what an f-string prints. *)
Definition py_str (v : sqlval) : string :=
  match v with
  | VNull => "None"
  | VInt n => Py.str_of_int n
  | VText s => s
  end.

(** [dict(row)] for a [sqlite3.Row]: column names with their values, in
    column order. *)
Definition row : Type := list (string * sqlval).

Fixpoint lookup (k : string) (r : row) : option sqlval :=
  match r with
  | [] => None
  | (k', v) :: r' => if String.eqb k k' then Some v else lookup k r'
  end.

(** [k in row_dict]. *)
Definition has_key (k : string) (r : row) : bool :=
  match lookup k r with Some _ => true | None => false end.

(** Exceptions that can leave the talker.  The two [Talker*] ones are the
    typed errors of the host application; the [Sqlite*] and [Requests*]
    ones are raised by the collaborators and are translated by the
    [except] clauses; the rest are Python's own. *)
Inductive exn : Type :=
| TalkerDataError (source : string) (code : Z) (desc : string)
| TalkerNetworkError (source : string) (code : Z) (desc : string)
| SqliteDataError (msg : string)
| SqliteError (msg : string)
| RequestsTimeout
| RequestsException (msg : string)
| JSONDecodeError
| KeyError (key : string)
| TypeError
| AttributeError
| ValueError
| IndexError
| UnboundLocalError (var : string).

Inductive result (A : Type) : Type :=
| Ok (a : A)
| Raise (e : exn).
Arguments Ok {A} a.
Arguments Raise {A} e.

(** The errors the host application declares for talkers. *)
Definition typed_error (e : exn) : bool :=
  match e with
  | TalkerDataError _ _ _ | TalkerNetworkError _ _ _ => true
  | _ => false
  end.

(** [class GCDSeries(TypedDict)].  Both places that build one set every
    key below, so the keys are plain fields. *)
Record GCDSeries : Type := {
  s_count_of_issues : sqlval;
  s_notes : sqlval;
  s_id : sqlval;
  s_name : sqlval;
  s_sort_name : sqlval;
  s_publisher_name : sqlval;
  s_format : sqlval;
  s_year_began : sqlval;
  s_year_ended : sqlval;
  s_image : string;
  s_cover_downloaded : bool
}.

(** [class GCDCredit(TypedDict)]. *)
Record GCDCredit : Type := {
  name : sqlval;
  gcd_role : sqlval
}.

(** The value stored under ["characters"]: the list produced by
    [split("; ")], or the [str] of the [else] branch. *)
Inductive characters_value : Type :=
| CharsList (l : list string)
| CharsStr (s : string).

(** [class GCDIssue(TypedDict, total=False)].  The keys that both shapes of
    [_format_gcd_issue] set are plain fields; a key only the complete shape
    sets is an [option], [None] standing for a key that is not in the
    dict. *)
Record GCDIssue : Type := {
  i_id : sqlval;
  i_key_date : sqlval;
  i_number : sqlval;
  i_issue_title : sqlval;
  i_series_id : sqlval;
  i_issue_notes : option sqlval;
  i_volume : option sqlval;
  i_maturity_rating : option sqlval;
  i_country : option sqlval;
  i_country_iso : option sqlval;
  i_story_ids : option (list string);
  i_characters : option characters_value;
  i_language : option sqlval;
  i_language_iso : option sqlval;
  i_story_titles : list string;
  i_genres : option (list string);
  i_synopses : list string;
  i_image : string;
  i_alt_image_urls : list string;
  i_credits : option (list GCDCredit);
  i_covers_downloaded : option bool
}.

(** [GenericMetadata], restricted to the attributes the talker assigns. *)
Record GenericMetadata : Type := {
  md_tag_origin : option (string * string);
  md_issue_id : option string;
  md_series_id : option string;
  md_publisher : option string;
  md_issue : option string;
  md_series : option string;
  md_cover_image : option string;
  md_alternate_images : list string;
  md_characters : characters_value;
  md_credits : list (sqlval * sqlval);
  md_title : sqlval;
  md_genres : option (list string);
  md_issue_count : option Z;
  md_description : option string;
  md_web_link : option string;
  md_volume : sqlval;
  md_day : option Z;
  md_month : option Z;
  md_year : option Z;
  md_language : sqlval;
  md_country : sqlval;
  md_format : sqlval;
  md_maturity_rating : sqlval
}.

(** [GenericMetadata()]: nothing set. *)
Definition empty_metadata : GenericMetadata := {|
  md_tag_origin := None;
  md_issue_id := None;
  md_series_id := None;
  md_publisher := None;
  md_issue := None;
  md_series := None;
  md_cover_image := None;
  md_alternate_images := [];
  md_characters := CharsList [];
  md_credits := [];
  md_title := VNull;
  md_genres := Some [];
  md_issue_count := None;
  md_description := None;
  md_web_link := None;
  md_volume := VNull;
  md_day := None;
  md_month := None;
  md_year := None;
  md_language := VNull;
  md_country := VNull;
  md_format := VNull;
  md_maturity_rating := VNull
|}.

(** [CCSeries] and [CCIssue] of [comictalker.comiccacher]. *)
Record CCSeries : Type := { ccs_id : string; ccs_data : string }.
Record CCIssue : Type := { cci_id : string; cci_series_id : string; cci_data : string }.

(* ===================================================================== *)
(** * Collaborators *)
(* ===================================================================== *)

(** The row of the series query of [_fetch_series_data]. *)
Record SeriesRow : Type := {
  r_id : sqlval;
  r_series_name : sqlval;
  r_sort_name : sqlval;
  r_notes : sqlval;
  r_year_began : sqlval;
  r_year_ended : sqlval;
  r_issue_count : sqlval;
  r_publisher_name : sqlval;
  r_format : sqlval
}.

(** The statements the talker executes, with their bound parameters.  An
    id that the talker converts with [int(...)] first is a [Z]; an id it
    passes on as it read it from a row or a cached record is a [sqlval]. *)
Inductive query : Type :=
| QIndexExists
| QCreateIndex
| QSeriesIssuesWithStories (series_id : Z)
| QSeriesIssues (series_id : Z)
| QFirstIssueId (series_id : sqlval)
| QIssueCredits (issue_id : sqlval)
| QStoryCredits (story_id : Z)
| QSeries (series_id : sqlval)
| QIssueId (series_id : Z) (issue_number : string)
| QIssueWithStories (issue_id : sqlval)
| QIssue (issue_id : sqlval).

(** What [fetchall()] / [fetchone()] hands back for each statement. *)
Definition answer (q : query) : Type :=
  match q with
  | QIndexExists => bool
  | QCreateIndex => unit
  | QSeriesIssuesWithStories _ | QSeriesIssues _ => list row
  | QFirstIssueId _ => option sqlval
  | QIssueCredits _ | QStoryCredits _ => list (sqlval * sqlval)
  | QSeries _ => option SeriesRow
  | QIssueId _ _ => option sqlval
  | QIssueWithStories _ | QIssue _ => option row
  end.

(** Outcome of a [sqlite3] call: a value, [sqlite3.DataError], or any
    other [sqlite3.Error]. *)
Inductive sql_result (A : Type) : Type :=
| SqlOk (a : A)
| SqlDataErr (msg : string)
| SqlErr (msg : string).
Arguments SqlOk {A} a.
Arguments SqlDataErr {A} msg.
Arguments SqlErr {A} msg.

(** An open connection answers every statement. *)
Definition Database : Type := forall q : query, sql_result (answer q).

(** Outcome of [requests.get(url).text]. *)
Inductive http_result : Type :=
| HttpOk (text : string)
| HttpTimeout
| HttpError (msg : string).

(** Everything the talker calls but does not define. *)
Record Platform : Type := {
  (** [sqlite3.connect(path)] *)
  connect : string -> sql_result Database;
  (** [requests.get(url).text] *)
  http_get : string -> http_result;
  (** [BeautifulSoup(html, "html.parser").findAll("img", "cover_img")],
      each image given by its [.get("src")] *)
  find_cover_imgs : string -> list (option string);
  (** [json.dumps(x).encode("utf-8")] and [json.loads] *)
  json_dumps_series : GCDSeries -> string;
  json_loads_series : string -> option GCDSeries;
  json_dumps_issue : GCDIssue -> string;
  json_loads_issue : string -> option GCDIssue;
  (** [int(s)] for a [str]; [None] stands for [ValueError] *)
  int_of_str : string -> option Z;
  (** [comicapi.utils] and [IssueString(x).as_string()] *)
  xlate : sqlval -> option string;
  xlate_int : sqlval -> option Z;
  issue_string : sqlval -> string;
  parse_date_str : sqlval -> option Z * option Z * option Z;
  (** [urllib.parse.urljoin] *)
  urljoin : string -> string -> string;
  (** [GenericMetadata.add_credit(person, role)] on the credit list *)
  add_credit : list (sqlval * sqlval) -> sqlval -> sqlval -> list (sqlval * sqlval);
  (** [ComicCacher]: its store and the five calls the talker makes *)
  Cache : Type;
  get_series_info : string -> string -> Cache -> option (CCSeries * bool);
  get_series_issues_info : string -> string -> Cache -> list (CCIssue * bool);
  get_issue_info : sqlval -> string -> Cache -> option (CCIssue * bool);
  add_series_info : string -> CCSeries -> bool -> Cache -> Cache;
  add_issues_info : string -> list CCIssue -> bool -> Cache -> Cache
}.

(** The talker's own attributes, as set by [__init__] and
    [parse_settings]. *)
Record Talker : Type := {
  db_file : string;
  use_series_start_as_volume : bool;
  download_gui_covers : bool;
  download_tag_covers : bool
}.

Definition talker_name : string := "Grand Comics Database".
Definition talker_id : string := "gcd".
Definition website : string := "https://www.comics.org/".

(* ===================================================================== *)
(** * Pure methods *)
(* ===================================================================== *)

Definition bind_result {A B : Type} (r : result A) (k : A -> result B) : result B :=
  match r with
  | Ok a => k a
  | Raise e => Raise e
  end.

Notation "'let?' x ':=' r 'in' k" := (bind_result r (fun x => k))
  (at level 10, x name, r at level 100, k at level 200).

(** [row_dict[k]]. *)
Definition getitem (k : string) (r : row) : result sqlval :=
  match lookup k r with
  | Some v => Ok v
  | None => Raise (KeyError k)
  end.

(** [v.split(sep)]: only a [str] has the method. *)
Definition str_split (sep : string) (v : sqlval) : result (list string) :=
  match v with
  | VText s => Ok (Py.split sep s)
  | _ => Raise AttributeError
  end.

(** [row_dict[k].split(sep) if k in row_dict and row_dict[k] else []] *)
Definition split_if_truthy (sep k : string) (r : row) : result (list string) :=
  match lookup k r with
  | Some v => if truthy v then str_split sep v else Ok []
  | None => Ok []
  end.

(** [row_dict[k].split(sep) if k in row_dict and row_dict[k] is not None else []] *)
Definition split_if_not_none (sep k : string) (r : row) : result (list string) :=
  match lookup k r with
  | Some VNull => Ok []
  | Some v => str_split sep v
  | None => Ok []
  end.

(** [GCDTalkerExt._format_gcd_issue].  Keyword arguments are evaluated in
    the order they are written, so the first failing one decides the
    exception. *)
Definition _format_gcd_issue (row_dict : row) (complete : bool) : result GCDIssue :=
  if complete then
    let? id := getitem "id" row_dict in
    let? key_date := getitem "key_date" row_dict in
    let? number := getitem "number" row_dict in
    let? issue_title := getitem "issue_title" row_dict in
    let? series_id := getitem "series_id" row_dict in
    let? issue_notes := getitem "issue_notes" row_dict in
    let? volume := getitem "volume" row_dict in
    let? maturity_rating := getitem "maturity_rating" row_dict in
    let? characters :=
      (if has_key "characters" row_dict
       then let? v := getitem "characters" row_dict in
            let? l := str_split "; " v in Ok (CharsList l)
       else Ok (CharsStr "")) in
    let? country := getitem "country" row_dict in
    let? country_iso := getitem "country_iso" row_dict in
    let? story_ids := split_if_truthy Py.nl "story_ids" row_dict in
    let? language := getitem "language" row_dict in
    let? language_iso := getitem "language_iso" row_dict in
    let? story_titles := split_if_truthy Py.nl "story_titles" row_dict in
    let? genres := split_if_truthy Py.nl "genres" row_dict in
    let? synopses := split_if_truthy Py.nlnl "synopses" row_dict in
    Ok {| i_id := id;
          i_key_date := key_date;
          i_number := number;
          i_issue_title := issue_title;
          i_series_id := series_id;
          i_issue_notes := Some issue_notes;
          i_volume := Some volume;
          i_maturity_rating := Some maturity_rating;
          i_country := Some country;
          i_country_iso := Some country_iso;
          i_story_ids := Some story_ids;
          i_characters := Some characters;
          i_language := Some language;
          i_language_iso := Some language_iso;
          i_story_titles := story_titles;
          i_genres := Some genres;
          i_synopses := synopses;
          i_image := "";
          i_alt_image_urls := [];
          i_credits := Some [];
          i_covers_downloaded := None |}
  else
    let? id := getitem "id" row_dict in
    let? key_date := getitem "key_date" row_dict in
    let? number := getitem "number" row_dict in
    let? issue_title := getitem "issue_title" row_dict in
    let? series_id := getitem "series_id" row_dict in
    let? story_titles := split_if_not_none Py.nl "story_titles" row_dict in
    let? synopses := split_if_not_none Py.nl "synopses" row_dict in
    Ok {| i_id := id;
          i_key_date := key_date;
          i_number := number;
          i_issue_title := issue_title;
          i_series_id := series_id;
          i_issue_notes := None;
          i_volume := None;
          i_maturity_rating := None;
          i_country := None;
          i_country_iso := None;
          i_story_ids := None;
          i_characters := None;
          i_language := None;
          i_language_iso := None;
          i_story_titles := story_titles;
          i_genres := None;
          i_synopses := synopses;
          i_image := "";
          i_alt_image_urls := [];
          i_credits := None;
          i_covers_downloaded := None |}.

(** [d.get(k)] for an optional key: a missing key reads as [None]. *)
Definition get_or_none (v : option sqlval) : sqlval :=
  match v with
  | Some x => x
  | None => VNull
  end.

(** The loop of [_map_comic_issue_to_metadata] that pairs titles with
    synopses:
<<
    for i, title in enumerate(issue["story_titles"]):
        if title and issue["synopses"][i]:
            md.description += f"{title}: {issue['synopses'][i]}\n\n"
>>
    [and] short-circuits, so [synopses[i]] is read only under a non-empty
    title. *)
Fixpoint description_loop (synopses : list string) (i : nat)
    (story_titles : list string) (description : string) : result string :=
  match story_titles with
  | [] => Ok description
  | title :: rest =>
      if Py.nonempty title then
        match nth_error synopses i with
        | None => Raise IndexError
        | Some synopsis =>
            if Py.nonempty synopsis
            then description_loop synopses (S i) rest
                   (description ++ title ++ ": " ++ synopsis ++ Py.nlnl)
            else description_loop synopses (S i) rest description
        end
      else description_loop synopses (S i) rest description
  end.

(** The description part of [_map_comic_issue_to_metadata]. *)
Definition build_description (story_titles synopses : list string) : result string :=
  if Nat.eqb (List.length synopses) (List.length story_titles)
  then description_loop synopses 0 story_titles ""
  else Ok (Py.join Py.nlnl synopses).

Section Normalizer.

Variable P : Platform.
Variable self : Talker.

(** [GCDTalkerExt._map_comic_issue_to_metadata]. *)
Definition _map_comic_issue_to_metadata (issue : GCDIssue) (series : GCDSeries)
  : result GenericMetadata :=
  let characters :=
    match i_characters issue with
    | Some (CharsList (c :: l)) => CharsList (c :: l)
    | Some (CharsStr (String c s)) => CharsStr (String c s)
    | _ => md_characters empty_metadata
    end in
  let credits :=
    match i_credits issue with
    | Some l => fold_left (fun acc person => add_credit P acc (name person) (gcd_role person))
                  l (md_credits empty_metadata)
    | None => md_credits empty_metadata
    end in
  let title :=
    if truthy (i_issue_title issue) then i_issue_title issue
    else match i_story_titles issue with
         | [] => md_title empty_metadata
         | l => VText (Py.join "; " l)
         end in
  let? description := build_description (i_story_titles issue) (i_synopses issue) in
  let volume :=
    if use_series_start_as_volume self then s_year_began series
    else match xlate_int P (get_or_none (i_volume issue)) with
         | Some n => VInt n
         | None => VNull
         end in
  let '(day, month, year) :=
    if truthy (i_key_date issue) then parse_date_str P (i_key_date issue)
    else if truthy (s_year_began series)
         then (None, None, xlate_int P (s_year_began series))
         else (None, None, None) in
  Ok {| md_tag_origin := Some (talker_id, talker_name);
        md_issue_id := xlate P (i_id issue);
        md_series_id := xlate P (s_id series);
        md_publisher := xlate P (s_publisher_name series);
        md_issue := xlate P (VText (issue_string P (i_number issue)));
        md_series := xlate P (s_name series);
        md_cover_image := Some (i_image issue);
        md_alternate_images := i_alt_image_urls issue;
        md_characters := characters;
        md_credits := credits;
        md_title := title;
        md_genres := i_genres issue;
        md_issue_count := xlate_int P (s_count_of_issues series);
        md_description := Some description;
        md_web_link := Some (urljoin P website ("issue/" ++ py_str (i_id issue)));
        md_volume := volume;
        md_day := day;
        md_month := month;
        md_year := year;
        md_language := get_or_none (i_language_iso issue);
        md_country := get_or_none (i_country issue);
        md_format := s_format series;
        md_maturity_rating := get_or_none (i_maturity_rating issue) |}.

End Normalizer.

(* ===================================================================== *)
(** * Effects *)
(* ===================================================================== *)

(** Every call that leaves the process, in the order it is made. *)
Inductive event : Type :=
| EvConnect (path : string)
| EvQuery (q : query)
| EvHttpGet (url : string)
| EvCacheOpen
| EvCacheGetSeries (series_id : string)
| EvCacheGetSeriesIssues (series_id : string)
| EvCacheGetIssue (issue_id : sqlval)
| EvCacheAddSeries (series : CCSeries) (complete : bool)
| EvCacheAddIssues (issues : list CCIssue) (complete : bool).

Definition is_query (e : event) : bool :=
  match e with
  | EvConnect _ | EvQuery _ => true
  | _ => false
  end.

Section Talker_methods.

Variable P : Platform.
Variable self : Talker.

(** What a call can change: the cache store, the talker's
    [has_issue_id_type_id_index] attribute, and the log. *)
Record State : Type := {
  cache : Cache P;
  has_issue_id_type_id_index : bool;
  log : list event
}.

(** A computation returns or raises, and leaves a state either way. *)
Definition M (A : Type) : Type := State -> result A * State.

Definition ret {A : Type} (a : A) : M A := fun st => (Ok a, st).

Definition raise {A : Type} (e : exn) : M A := fun st => (Raise e, st).

Definition bind {A B : Type} (m : M A) (k : A -> M B) : M B :=
  fun st =>
    match m st with
    | (Ok a, st') => k a st'
    | (Raise e, st') => (Raise e, st')
    end.

Notation "x <- m ;; k" := (bind m (fun x => k))
  (at level 61, m at next level, right associativity).
Notation "m ;;; k" := (bind m (fun _ => k))
  (at level 61, right associativity).

Definition lift {A : Type} (r : result A) : M A := fun st => (r, st).

(** The state after the events [evs] have been logged. *)
Definition logged (st : State) (evs : list event) : State :=
  {| cache := cache st;
     has_issue_id_type_id_index := has_issue_id_type_id_index st;
     log := log st ++ evs |}.

(** The state after the cache store has been replaced by [c]. *)
Definition with_cache (st : State) (c : Cache P) : State :=
  {| cache := c;
     has_issue_id_type_id_index := has_issue_id_type_id_index st;
     log := log st |}.

Definition emit (e : event) : M unit := fun st => (Ok tt, logged st [e]).

Definition set_cache (c : Cache P) : M unit := fun st => (Ok tt, with_cache st c).

Definition set_has_index (b : bool) : M unit :=
  fun st => (Ok tt, {| cache := cache st;
                       has_issue_id_type_id_index := b;
                       log := log st |}).

Definition get_state : M State := fun st => (Ok st, st).

(** [for x in l: body(x)] collecting the results of [body]. *)
Fixpoint mapM {A B : Type} (f : A -> M B) (l : list A) : M (list B) :=
  match l with
  | [] => ret []
  | x :: l' => y <- f x ;; ys <- mapM f l' ;; ret (y :: ys)
  end.

(** ** SQLite *)

Definition raise_sql {A : Type} (r : sql_result A) : M A :=
  match r with
  | SqlOk a => ret a
  | SqlDataErr msg => raise (SqliteDataError msg)
  | SqlErr msg => raise (SqliteError msg)
  end.

(** [with sqlite3.connect(self.db_file) as con: ... cur = con.cursor()] *)
Definition sqlite3_connect (path : string) : M Database :=
  emit (EvConnect path) ;;; raise_sql (connect P path).

(** [cur.execute(q, params)] followed by the fetch the statement is read
    with.  The outcomes are those of SQLite itself; an [int] parameter
    beyond 64 bits, which [sqlite3] refuses with [OverflowError] before it
    reaches SQLite, is outside the model. *)
Definition execute (con : Database) (q : query) : M (answer q) :=
  emit (EvQuery q) ;;; raise_sql (con q).

(** The two [except] clauses that close every [try] around SQLite:
<<
    except sqlite3.DataError as e: raise TalkerDataError(self.name, 1, str(e))
    except sqlite3.Error as e:     raise TalkerDataError(self.name, 0, str(e))
>> *)
Definition try_sqlite {A : Type} (body : M A) : M A :=
  fun st =>
    match body st with
    | (Raise (SqliteDataError msg), st') => (Raise (TalkerDataError talker_name 1 msg), st')
    | (Raise (SqliteError msg), st') => (Raise (TalkerDataError talker_name 0 msg), st')
    | r => r
    end.

(** ** ComicCacher *)

Definition ComicCacher : M unit := emit EvCacheOpen.

Definition cvc_get_series_info (series_id : string) : M (option (CCSeries * bool)) :=
  emit (EvCacheGetSeries series_id) ;;;
  st <- get_state ;; ret (get_series_info P series_id talker_id (cache st)).

Definition cvc_get_series_issues_info (series_id : string) : M (list (CCIssue * bool)) :=
  emit (EvCacheGetSeriesIssues series_id) ;;;
  st <- get_state ;; ret (get_series_issues_info P series_id talker_id (cache st)).

Definition cvc_get_issue_info (issue_id : sqlval) : M (option (CCIssue * bool)) :=
  emit (EvCacheGetIssue issue_id) ;;;
  st <- get_state ;; ret (get_issue_info P issue_id talker_id (cache st)).

Definition cvc_add_series_info (series : CCSeries) (complete : bool) : M unit :=
  emit (EvCacheAddSeries series complete) ;;;
  st <- get_state ;; set_cache (add_series_info P talker_id series complete (cache st)).

Definition cvc_add_issues_info (issues : list CCIssue) (complete : bool) : M unit :=
  emit (EvCacheAddIssues issues complete) ;;;
  st <- get_state ;; set_cache (add_issues_info P talker_id issues complete (cache st)).

(** [json.loads(x.data)] *)
Definition json_loads {A : Type} (loads : string -> option A) (data : string) : M A :=
  match loads data with
  | Some a => ret a
  | None => raise JSONDecodeError
  end.

(** [int(s)] *)
Definition int (s : string) : M Z :=
  match int_of_str P s with
  | Some n => ret n
  | None => raise ValueError
  end.

(** ** Methods *)

(** [GCDTalkerExt.check_create_index] *)
Definition check_create_index : M unit :=
  st <- get_state ;;
  if negb (has_issue_id_type_id_index st) then
    try_sqlite (
      con <- sqlite3_connect (db_file self) ;;
      found <- execute con QIndexExists ;;
      if (found : bool) then set_has_index true
      else execute con QCreateIndex ;;; set_has_index true)
  else ret tt.

(** [GCDTalkerExt.check_db_filename_not_empty] *)
Definition check_db_filename_not_empty : M unit :=
  if negb (Py.nonempty (db_file self))
  then raise (TalkerDataError talker_name 3 "Database path is empty, specify a path and filename!")
  else ret tt.

(** The loop of [_find_issue_images]:
<<
    for i, image in enumerate(img_list):
        src = image.get("src").split("?")[0]
        if i == 0: cover = src
        else: variants.append(src)
>> *)
Fixpoint images_loop (i : nat) (img_list : list (option string))
    (cover : string) (variants : list string) : result (string * list string) :=
  match img_list with
  | [] => Ok (cover, variants)
  | image :: rest =>
      match image with
      | None => Raise AttributeError
      | Some url =>
          match Py.split "?" url with
          | [] => Raise IndexError
          | src :: _ =>
              if Nat.eqb i 0 then images_loop (S i) rest src variants
              else images_loop (S i) rest cover (variants ++ [src])
          end
      end
  end.

(** [GCDTalkerExt._find_issue_images] *)
Definition _find_issue_images (issue_id : sqlval) : M (string * list string) :=
  let url := (website ++ "/issue/" ++ py_str issue_id ++ "/cover/4")%string in
  emit (EvHttpGet url) ;;;
  match http_get P url with
  | HttpTimeout => raise (TalkerNetworkError website 4 "")
  | HttpError msg => raise (TalkerNetworkError website 0 msg)
  | HttpOk covers_html =>
      lift (images_loop 0 (find_cover_imgs P covers_html) "" [])
  end.

(** [GCDTalkerExt._find_series_image] *)
Definition _find_series_image (series_id : sqlval) : M string :=
  issue_id <- try_sqlite (
    con <- sqlite3_connect (db_file self) ;;
    r <- execute con (QFirstIssueId series_id) ;;
    match (r : option sqlval) with
    | None => raise TypeError
    | Some v => ret v
    end) ;;
  if truthy issue_id
  then r <- _find_issue_images issue_id ;; ret (fst r)
  else ret "".

(** The story loop of [_find_issue_credits], appending to
    [credit_results]. *)
Fixpoint story_credits_loop (con : Database) (story_id_list : list string)
    (credit_results : list GCDCredit) : M (list GCDCredit) :=
  match story_id_list with
  | [] => ret credit_results
  | story_id :: rest =>
      n <- int story_id ;;
      rows <- execute con (QStoryCredits n) ;;
      story_credits_loop con rest
        (fold_left (fun acc record =>
                      acc ++ [{| name := fst record; gcd_role := snd record |}])
           (rows : list (sqlval * sqlval)) credit_results)
  end.

(** [GCDTalkerExt._find_issue_credits] *)
Definition _find_issue_credits (issue_id : sqlval) (story_id_list : list string)
  : M (list GCDCredit) :=
  try_sqlite (
    con <- sqlite3_connect (db_file self) ;;
    rows <- execute con (QIssueCredits issue_id) ;;
    let credit_results :=
      fold_left (fun acc record =>
                   acc ++ [{| name := snd record; gcd_role := fst record |}])
        (rows : list (sqlval * sqlval)) [] in
    story_credits_loop con story_id_list credit_results).

(** [GCDTalkerExt._fetch_series_data] *)
Definition _fetch_series_data (series_id : sqlval) : M GCDSeries :=
  ComicCacher ;;;
  cached_series <- cvc_get_series_info (py_str series_id) ;;
  match cached_series with
  | Some (entry, true) => json_loads (json_loads_series P) (ccs_data entry)
  | _ =>
      result <- try_sqlite (
        con <- sqlite3_connect (db_file self) ;;
        fetched <- execute con (QSeries series_id) ;;
        cover <- (if download_gui_covers self
                  then image <- _find_series_image series_id ;; ret (image, true)
                  else ret ("", false)) ;;
        match (fetched : option SeriesRow) with
        | None => raise TypeError
        | Some record =>
            ret {| s_id := r_id record;
                   s_name := r_series_name record;
                   s_sort_name := r_sort_name record;
                   s_notes := r_notes record;
                   s_year_began := r_year_began record;
                   s_year_ended := r_year_ended record;
                   s_count_of_issues := r_issue_count record;
                   s_publisher_name := r_publisher_name record;
                   s_format := r_format record;
                   s_image := fst cover;
                   s_cover_downloaded := snd cover |}
        end) ;;
      cvc_add_series_info
        {| ccs_id := py_str (s_id result); ccs_data := json_dumps_series P result |} true ;;;
      ret result
  end.

(** [GCDTalkerExt._fetch_issue_by_issue_id].  [issue_result] is bound only
    on the paths that assign it; reading it unbound raises
    [UnboundLocalError]. *)
Definition _fetch_issue_by_issue_id (issue_id : sqlval) : M GCDIssue :=
  ComicCacher ;;;
  cached_issue <- cvc_get_issue_info issue_id ;;
  match cached_issue with
  | Some (entry, true) => json_loads (json_loads_issue P) (cci_data entry)
  | _ =>
      check_create_index ;;;
      bound <- try_sqlite (
        con <- sqlite3_connect (db_file self) ;;
        fetched <- execute con (QIssueWithStories issue_id) ;;
        match (fetched : option row) with
        | Some record =>
            issue_result <- lift (_format_gcd_issue record true) ;; ret (Some issue_result)
        | None =>
            fetched <- execute con (QIssue issue_id) ;;
            match (fetched : option row) with
            | Some record =>
                issue_result <- lift (_format_gcd_issue record true) ;; ret (Some issue_result)
            | None => ret None
            end
        end) ;;
      (* issue_result["credits"] = self._find_issue_credits(issue_id, issue_result["story_ids"]) *)
      issue_result <- match bound with
                      | Some issue_result => ret issue_result
                      | None => raise (UnboundLocalError "issue_result")
                      end ;;
      story_ids <- match i_story_ids issue_result with
                   | Some l => ret l
                   | None => raise (KeyError "story_ids")
                   end ;;
      credits <- _find_issue_credits issue_id story_ids ;;
      covers <- (if download_gui_covers self || download_tag_covers self
                 then _find_issue_images (i_id issue_result)
                 else ret (i_image issue_result, i_alt_image_urls issue_result)) ;;
      let issue_result :=
        {| i_id := i_id issue_result;
           i_key_date := i_key_date issue_result;
           i_number := i_number issue_result;
           i_issue_title := i_issue_title issue_result;
           i_series_id := i_series_id issue_result;
           i_issue_notes := i_issue_notes issue_result;
           i_volume := i_volume issue_result;
           i_maturity_rating := i_maturity_rating issue_result;
           i_country := i_country issue_result;
           i_country_iso := i_country_iso issue_result;
           i_story_ids := i_story_ids issue_result;
           i_characters := i_characters issue_result;
           i_language := i_language issue_result;
           i_language_iso := i_language_iso issue_result;
           i_story_titles := i_story_titles issue_result;
           i_genres := i_genres issue_result;
           i_synopses := i_synopses issue_result;
           i_image := fst covers;
           i_alt_image_urls := snd covers;
           i_credits := Some credits;
           i_covers_downloaded := i_covers_downloaded issue_result |} in
      cvc_add_issues_info
        [{| cci_id := py_str (i_id issue_result);
            cci_series_id := py_str (i_series_id issue_result);
            cci_data := json_dumps_issue P issue_result |}] true ;;;
      ret issue_result
  end.

(** [GCDTalkerExt._fetch_issue_data_by_issue_id] *)
Definition _fetch_issue_data_by_issue_id (issue_id : sqlval) : M GenericMetadata :=
  issue <- _fetch_issue_by_issue_id issue_id ;;
  series <- _fetch_series_data (i_series_id issue) ;;
  lift (_map_comic_issue_to_metadata P self issue series).

(** [GCDTalkerExt._fetch_issue_data].  [row["id"]] on the [None] that
    [fetchone()] returns for an empty result raises [TypeError]. *)
Definition _fetch_issue_data (series_id : Z) (issue_number : string) : M GenericMetadata :=
  found <- try_sqlite (
    con <- sqlite3_connect (db_file self) ;;
    fetched <- execute con (QIssueId series_id issue_number) ;;
    match (fetched : option sqlval) with
    | None => raise TypeError
    | Some id =>
        if truthy id
        then md <- _fetch_issue_data_by_issue_id id ;; ret (Some md)
        else ret None
    end) ;;
  match found with
  | Some md => ret md
  | None => ret empty_metadata
  end.

(** [if issue_id:] for a [str | None]. *)
Definition truthy_opt (s : option string) : bool :=
  match s with
  | Some s => Py.nonempty s
  | None => false
  end.

(** [int(s)] for a [str | None]. *)
Definition int_opt (s : option string) : M Z :=
  match s with
  | Some s => int s
  | None => raise TypeError
  end.

(** [GCDTalkerExt.fetch_comic_data] *)
Definition fetch_comic_data (issue_id series_id : option string) (issue_number : string)
  : M GenericMetadata :=
  check_db_filename_not_empty ;;;
  if truthy_opt issue_id then
    n <- int_opt issue_id ;; _fetch_issue_data_by_issue_id (VInt n)
  else if Py.nonempty issue_number && truthy_opt series_id then
    n <- int_opt series_id ;; _fetch_issue_data n issue_number
  else ret empty_metadata.

(** [n == v] for the [int] [n = len(...)]. *)
Definition int_eq (n : nat) (v : sqlval) : bool :=
  match v with
  | VInt c => (Z.of_nat n =? c)%Z
  | _ => false
  end.

Definition CCIssue_of (series_id : string) (x : GCDIssue) : CCIssue :=
  {| cci_id := py_str (i_id x);
     cci_series_id := series_id;
     cci_data := json_dumps_issue P x |}.

(** [GCDTalkerExt.fetch_issues_in_series] *)
Definition fetch_issues_in_series (series_id : string) : M (list GenericMetadata) :=
  ComicCacher ;;;
  cached_series_issues_result <- cvc_get_series_issues_info series_id ;;
  n <- int series_id ;;
  series <- _fetch_series_data (VInt n) ;;
  if int_eq (List.length cached_series_issues_result) (s_count_of_issues series) then
    mapM (fun x =>
            issue <- json_loads (json_loads_issue P) (cci_data (fst x)) ;;
            lift (_map_comic_issue_to_metadata P self issue series))
         cached_series_issues_result
  else
    check_create_index ;;;
    results <- try_sqlite (
      con <- sqlite3_connect (db_file self) ;;
      n <- int series_id ;;
      rows <- execute con (QSeriesIssuesWithStories n) ;;
      match (rows : list row) with
      | _ :: _ => mapM (fun record => lift (_format_gcd_issue record false)) rows
      | [] =>
          n <- int series_id ;;
          rows <- execute con (QSeriesIssues n) ;;
          mapM (fun record => lift (_format_gcd_issue record false)) (rows : list row)
      end) ;;
    n <- int series_id ;;
    series <- _fetch_series_data (VInt n) ;;
    cvc_add_issues_info (map (CCIssue_of series_id) results) false ;;;
    mapM (fun x => lift (_map_comic_issue_to_metadata P self x series)) results.

End Talker_methods.

(* ===================================================================== *)
(** * Splitting and joining *)
(* ===================================================================== *)

(** [sep in e]. *)
Fixpoint occurs (sep e : string) : bool :=
  match e with
  | "" => false
  | String _ e' => prefix sep e || occurs sep e'
  end.









(* ===================================================================== *)
(** * The specification's wording *)
(* ===================================================================== *)

(** One aligned pair of the description: ["{title}: {synopsis}\n\n"] when
    both are non-empty, nothing otherwise. *)
Definition paired (title synopsis : string) : string :=
  if Py.nonempty title && Py.nonempty synopsis
  then title ++ ": " ++ synopsis ++ Py.nlnl
  else "".

(** The in-order concatenation over the aligned pairs. *)
Fixpoint paired_description (story_titles synopses : list string) : string :=
  match story_titles, synopses with
  | title :: titles', synopsis :: synopses' =>
      paired title synopsis ++ paired_description titles' synopses'
  | _, _ => ""
  end.

(** Description selection as the specification words it. *)
Definition spec_description (story_titles synopses : list string) : string :=
  if Nat.eqb (List.length synopses) (List.length story_titles)
  then paired_description story_titles synopses
  else Py.join Py.nlnl synopses.

(** The query-string suffix is gone: what is left is the part of [url]
    before its first ["?"]. *)
Definition stripped (url src : string) : Prop :=
  occurs "?" src = false /\
  (url = src \/ exists suffix, url = (src ++ "?" ++ suffix)%string).

(** Issue-level credits, in query-result order: the first column is the
    role, the second the name. *)
Definition issue_level_credits (rows : list (sqlval * sqlval)) : list GCDCredit :=
  map (fun record => {| name := snd record; gcd_role := fst record |}) rows.

(** Story-level credits of one story: the first column is the name, the
    second the credit type. *)
Definition story_level_credits (rows : list (sqlval * sqlval)) : list GCDCredit :=
  map (fun record => {| name := fst record; gcd_role := snd record |}) rows.

(** [[f(x) for x in l]] for an [f] that can raise but has no effect. *)
Fixpoint traverse {A B : Type} (f : A -> result B) (l : list A) : result (list B) :=
  match l with
  | [] => Ok []
  | x :: l' => let? y := f x in let? ys := traverse f l' in Ok (y :: ys)
  end.

(** The part of [url] before its first ["?"], as [_find_issue_images]
    takes it. *)
Definition strip_query (url : string) : string :=
  match Py.split "?" url with
  | src :: _ => src
  | [] => ""
  end.

(** A cached issue list decoded and normalized, entry by entry, as
    [fetch_issues_in_series] returns it. *)
Definition decode_cached (P : Platform) (self : Talker) (series : GCDSeries)
    (cached : list (CCIssue * bool)) : result (list GenericMetadata) :=
  traverse (fun x =>
              match json_loads_issue P (cci_data (fst x)) with
              | Some issue => _map_comic_issue_to_metadata P self issue series
              | None => Raise JSONDecodeError
              end) cached.

(** The sub-kind reserved for a missing configuration. *)
Definition config_error (e : exn) : bool :=
  match e with
  | TalkerDataError _ code _ => (code =? 3)%Z
  | _ => false
  end.

(** A pure step, and a computation, that never raises the configuration
    error. *)
Definition never_config_error_in {A : Type} (r : result A) : Prop :=
  forall e, r = Raise e -> config_error e = false.

Definition never_config_error (P : Platform) (A : Type) (m : M P A) : Prop :=
  forall st, never_config_error_in (fst (m st)).

(* ===================================================================== *)
(** * Series lookup *)
(* ===================================================================== *)

(** [comicapi.genericmetadata.ComicSeries], as [_format_search_results]
    fills it. *)
Record ComicSeries : Type := {
  cs_aliases : list string;
  cs_count_of_issues : sqlval;
  cs_count_of_volumes : sqlval;
  cs_description : sqlval;
  cs_id : string;
  cs_image_url : string;
  cs_name : sqlval;
  cs_publisher : sqlval;
  cs_genres : list string;
  cs_format : sqlval;
  cs_start_year : sqlval
}.

(** One record of [_format_search_results]. *)
Definition format_search_result (record : GCDSeries) : ComicSeries :=
  {| cs_aliases := [];
     cs_count_of_issues := s_count_of_issues record;
     cs_count_of_volumes := VNull;
     cs_description := s_notes record;
     cs_id := py_str (s_id record);
     cs_image_url := s_image record;
     cs_name := s_name record;
     cs_publisher := s_publisher_name record;
     cs_genres := [];
     cs_format := VNull;
     cs_start_year := s_year_began record |}.

(** [GCDTalkerExt._format_search_results] *)
Definition _format_search_results (search_results : list GCDSeries) : list ComicSeries :=
  map format_search_result search_results.

(** The [GCDSeries] that [_fetch_series_data] builds from the row of its
    query, the image it looked up and whether it looked one up. *)
Definition series_of_row (record : SeriesRow) (image : string) (cover_download : bool)
  : GCDSeries :=
  {| s_id := r_id record;
     s_name := r_series_name record;
     s_sort_name := r_sort_name record;
     s_notes := r_notes record;
     s_year_began := r_year_began record;
     s_year_ended := r_year_ended record;
     s_count_of_issues := r_issue_count record;
     s_publisher_name := r_publisher_name record;
     s_format := r_format record;
     s_image := image;
     s_cover_downloaded := cover_download |}.

(** [GCDTalkerExt.fetch_series]: [...[0]] of a one-element list. *)
Definition fetch_series (P : Platform) (self : Talker) (series_id : string)
  : M P ComicSeries :=
  bind (@int P series_id) (fun n =>
  bind (_fetch_series_data self (VInt n)) (fun series =>
  match _format_search_results [series] with
  | first :: _ => ret first
  | [] => raise IndexError
  end)).

(* ===================================================================== *)
(** * What a caller can be handed *)
(* ===================================================================== *)

(** A pure step, and a computation, that raises nothing outside
    [allowed]. *)
Definition raises_only {A : Type} (allowed : exn -> bool) (r : result A) : Prop :=
  forall e, r = Raise e -> allowed e = true.

Definition raises_only_in (P : Platform) (A : Type) (allowed : exn -> bool) (m : M P A)
  : Prop :=
  forall st, raises_only allowed (fst (m st)).

(** The exceptions of [sqlite3]. *)
Definition sqlite_exn (e : exn) : bool :=
  match e with
  | SqliteDataError _ | SqliteError _ => true
  | _ => false
  end.

(** [TalkerDataError(self.name, code, ...)] with the code of one of the two
    [except] clauses. *)
Definition data_error_0_1 (e : exn) : bool :=
  match e with
  | TalkerDataError source code _ =>
      String.eqb source talker_name && ((code =? 0) || (code =? 1))%Z
  | _ => false
  end.

(** [TalkerNetworkError(self.website, code, ...)] with the code of one of
    the two [except] clauses of [_find_issue_images]. *)
Definition network_error_0_4 (e : exn) : bool :=
  match e with
  | TalkerNetworkError source code _ =>
      String.eqb source website && ((code =? 0) || (code =? 4))%Z
  | _ => false
  end.

(** The number of requests in a log. *)
Definition count_requests (l : list event) : nat :=
  List.length (filter (fun e => match e with EvHttpGet _ => true | _ => false end) l).

(** The statements executed and connections opened in a log. *)
Definition database_events (l : list event) : list event := filter is_query l.

(** What the two [except] clauses around SQLite turn an exception into. *)
Definition translate_sqlite (e : exn) : exn :=
  match e with
  | SqliteDataError msg => TalkerDataError talker_name 1 msg
  | SqliteError msg => TalkerDataError talker_name 0 msg
  | _ => e
  end.

(** The exceptions [_format_gcd_issue] can raise. *)
Definition format_errors (e : exn) : bool :=
  match e with
  | KeyError _ | AttributeError => true
  | _ => false
  end.

(** The exceptions [_find_issue_images] can raise. *)
Definition image_errors (e : exn) : bool :=
  network_error_0_4 e || match e with AttributeError => true | _ => false end.

(** The exceptions [_find_issue_credits] can raise. *)
Definition credit_errors (e : exn) : bool :=
  data_error_0_1 e || match e with ValueError => true | _ => false end.

(** The exceptions [_fetch_series_data] can raise. *)
Definition series_errors (e : exn) : bool :=
  data_error_0_1 e || network_error_0_4 e ||
  match e with
  | JSONDecodeError | TypeError | AttributeError => true
  | _ => false
  end.

(** The exceptions [_fetch_issue_by_issue_id] can raise. *)
Definition issue_errors (e : exn) : bool :=
  data_error_0_1 e || network_error_0_4 e ||
  match e with
  | JSONDecodeError | KeyError _ | AttributeError | ValueError | UnboundLocalError _ => true
  | _ => false
  end.

(** The exceptions a caller of [fetch_comic_data] can see. *)
Definition fetch_comic_data_errors (e : exn) : bool :=
  config_error e || issue_errors e || series_errors e.

(** The exceptions a caller of [fetch_issues_in_series] can see. *)
Definition fetch_issues_in_series_errors (e : exn) : bool :=
  series_errors e || format_errors e ||
  match e with ValueError => true | _ => false end.

(** The exceptions a caller of [fetch_series] can see. *)
Definition fetch_series_errors (e : exn) : bool :=
  series_errors e || match e with ValueError => true | _ => false end.

(* ===================================================================== *)
(** * What a method adds to the log *)
(* ===================================================================== *)

(** A computation only appends to the log, and every event it appends
    passes [ok]. *)
Definition adds_only (P : Platform) (A : Type) (ok : event -> bool) (m : M P A) : Prop :=
  forall st, exists evs, log (snd (m st)) = log st ++ evs /\ forallb ok evs = true.

(** Not a request to the website. *)
Definition not_request (e : event) : bool :=
  match e with
  | EvHttpGet _ => false
  | _ => true
  end.

(** Not a write to the cache. *)
Definition not_cache_write (e : event) : bool :=
  match e with
  | EvCacheAddSeries _ _ | EvCacheAddIssues _ _ => false
  | _ => true
  end.

(* ===================================================================== *)
(** * States a fetch leaves behind *)
(* ===================================================================== *)

(** The state after a successful [check_create_index]: untouched when the
    index was already known, otherwise one connection, the lookup of the
    index and, when it was not [found], its creation. *)
Definition index_checked (P : Platform) (self : Talker) (st : State P) (found : bool)
  : State P :=
  if has_issue_id_type_id_index st then st
  else {| cache := cache st;
          has_issue_id_type_id_index := true;
          log := log st ++ EvConnect (db_file self) :: EvQuery QIndexExists
                           :: (if found then [] else [EvQuery QCreateIndex]) |}.

(** [issue_result["credits"] = credits], the other keys as they were. *)
Definition with_credits (issue : GCDIssue) (credits : list GCDCredit) : GCDIssue :=
  {| i_id := i_id issue;
     i_key_date := i_key_date issue;
     i_number := i_number issue;
     i_issue_title := i_issue_title issue;
     i_series_id := i_series_id issue;
     i_issue_notes := i_issue_notes issue;
     i_volume := i_volume issue;
     i_maturity_rating := i_maturity_rating issue;
     i_country := i_country issue;
     i_country_iso := i_country_iso issue;
     i_story_ids := i_story_ids issue;
     i_characters := i_characters issue;
     i_language := i_language issue;
     i_language_iso := i_language_iso issue;
     i_story_titles := i_story_titles issue;
     i_genres := i_genres issue;
     i_synopses := i_synopses issue;
     i_image := i_image issue;
     i_alt_image_urls := i_alt_image_urls issue;
     i_credits := Some credits;
     i_covers_downloaded := i_covers_downloaded issue |}.

(** The story ids of a record, none when the key is missing. *)
Definition story_ids_of (issue : GCDIssue) : list string :=
  match i_story_ids issue with
  | Some l => l
  | None => []
  end.

(** The cache entry [_fetch_series_data] writes for a series. *)
Definition CCSeries_of (P : Platform) (series : GCDSeries) : CCSeries :=
  {| ccs_id := py_str (s_id series); ccs_data := json_dumps_series P series |}.

(** The cache entry [_fetch_issue_by_issue_id] writes for an issue. *)
Definition CCIssue_complete (P : Platform) (issue : GCDIssue) : CCIssue :=
  {| cci_id := py_str (i_id issue);
     cci_series_id := py_str (i_series_id issue);
     cci_data := json_dumps_issue P issue |}.

(** The statements [_find_issue_credits] executes: the issue-level one,
    then one per story id, in the order of the list. *)
Definition credit_events (self : Talker) (issue_id : sqlval) (ids : list Z) : list event :=
  EvConnect (db_file self) :: EvQuery (QIssueCredits issue_id)
  :: map (fun n => EvQuery (QStoryCredits n)) ids.

(** The statements [_fetch_issue_by_issue_id] executes to read the issue:
    the with-stories shape, and the other shape only when the first has no
    row. *)
Definition issue_events (self : Talker) (issue_id : sqlval) (with_stories : option row)
  : list event :=
  EvConnect (db_file self) :: EvQuery (QIssueWithStories issue_id)
  :: match with_stories with
     | Some _ => []
     | None => [EvQuery (QIssue issue_id)]
     end.

(** The events a run appended to the log it started from. *)
Definition added (before after : list event) : list event :=
  skipn (List.length before) after.

(** A cache write as [fetch_issues_in_series] makes it: a series flagged
    complete, or issues flagged incomplete. *)
Definition list_fetch_write (e : event) : bool :=
  match e with
  | EvCacheAddSeries _ complete => complete
  | EvCacheAddIssues _ complete => negb complete
  | _ => true
  end.

(** A cache write as [fetch_comic_data] makes it: a series flagged
    complete, or a single issue flagged complete. *)
Definition issue_fetch_write (e : event) : bool :=
  match e with
  | EvCacheAddSeries _ complete => complete
  | EvCacheAddIssues [_] complete => complete
  | EvCacheAddIssues _ _ => false
  | _ => true
  end.

(** A computation logs [e] on every run, whether it returns or raises. *)
Definition always_logs (P : Platform) (A : Type) (e : event) (m : M P A) : Prop :=
  forall st, In e (added (log st) (log (snd (m st)))).

(** The predicate on events that holds of every event. *)
Definition any_event (e : event) : bool := true.

(** The page [_find_issue_images] requests for an issue. *)
Definition cover_url (issue_id : sqlval) : string :=
  (website ++ "/issue/" ++ py_str issue_id ++ "/cover/4")%string.

(** The events of a series lookup that misses the cache with the GUI cover
    option on: the series statement, the first-issue statement on a second
    connection, the request for the cover page when the series has a first
    issue, and the cache write. *)
Definition series_cover_events (P : Platform) (self : Talker) (series_id first : sqlval)
    (series : GCDSeries) : list event :=
  [EvCacheOpen; EvCacheGetSeries (py_str series_id);
   EvConnect (db_file self); EvQuery (QSeries series_id);
   EvConnect (db_file self); EvQuery (QFirstIssueId series_id)]
  ++ (if truthy first then [EvHttpGet (cover_url first)] else [])
  ++ [EvCacheAddSeries (CCSeries_of P series) true].

(* ===================================================================== *)
(** * The search, the match by number and year, and the status check *)
(* ===================================================================== *)

(** The [GCDSeries] that [search_for_series] builds: every key but
    [cover_downloaded]. *)
Record FoundSeries : Type := {
  f_id : sqlval;
  f_name : sqlval;
  f_sort_name : sqlval;
  f_notes : sqlval;
  f_year_began : sqlval;
  f_year_ended : sqlval;
  f_count_of_issues : sqlval;
  f_publisher_name : sqlval;
  f_format : string;
  f_image : string
}.

(** The row of the statement of [search_for_series]. *)
Record SearchRow : Type := {
  sr_id : sqlval;
  sr_series_name : sqlval;
  sr_sort_name : sqlval;
  sr_notes : sqlval;
  sr_year_began : sqlval;
  sr_year_ended : sqlval;
  sr_issue_count : sqlval;
  sr_publisher_name : sqlval
}.

(** The statements of the three methods, with their bound parameters:
    the search by name, the two matches by series, number and key date,
    and the probe of [check_status]. *)
Inductive statement : Type :=
| QSearchSeries (series_name : string)
| QMatchWithStories (vid issue_number key_date : string)
| QMatch (vid issue_number key_date : string)
| QCreditTypes.

(** What is fetched after each; the row [check_status] fetches is thrown
    away. *)
Definition fetched (q : statement) : Type :=
  match q with
  | QSearchSeries _ => list SearchRow
  | QMatchWithStories _ _ _ | QMatch _ _ _ => list row
  | QCreditTypes => unit
  end.

(** What the three methods call beyond [Platform]: the answers of an open
    connection to their statements, the search table of [ComicCacher], and
    [json] on the records of the search.  [json_loads_found] gives the
    record of a payload that holds one and [None] for a payload that is
    not JSON; JSON of another shape is outside the model. *)
Record Extension (P : Platform) : Type := {
  answers : Database -> forall q : statement, sql_result (fetched q);
  get_search_results : string -> string -> Cache P -> list (CCSeries * bool);
  add_search_results : string -> string -> list CCSeries -> bool -> Cache P -> Cache P;
  json_dumps_found : FoundSeries -> string;
  json_loads_found : string -> option FoundSeries
}.

(** The calls that leave the process: those of [event], and the new
    ones. *)
Inductive call : Type :=
| Base (e : event)
| Statement (q : statement)
| CacheGetSearch (series_name : string)
| CacheAddSearch (series_name : string) (entries : list CCSeries) (complete : bool).

(** One record of [_format_search_results] for a record of the search:
    the keys read are the same as for any [GCDSeries]. *)
Definition format_found (record : FoundSeries) : ComicSeries :=
  {| cs_aliases := [];
     cs_count_of_issues := f_count_of_issues record;
     cs_count_of_volumes := VNull;
     cs_description := f_notes record;
     cs_id := py_str (f_id record);
     cs_image_url := f_image record;
     cs_name := f_name record;
     cs_publisher := f_publisher_name record;
     cs_genres := [];
     cs_format := VNull;
     cs_start_year := f_year_began record |}.

(** The record [search_for_series] builds from a row. *)
Definition found_of_row (record : SearchRow) : FoundSeries :=
  {| f_id := sr_id record;
     f_name := sr_series_name record;
     f_sort_name := sr_sort_name record;
     f_notes := sr_notes record;
     f_year_began := sr_year_began record;
     f_year_ended := sr_year_ended record;
     f_count_of_issues := sr_issue_count record;
     f_publisher_name := sr_publisher_name record;
     f_format := "";
     f_image := "" |}.

(** [if year:] and [str(year)] for an [int | None]. *)
Definition year_truthy (year : option Z) : bool :=
  match year with
  | Some n => negb (n =? 0)%Z
  | None => false
  end.

Definition str_year (year : option Z) : string :=
  match year with
  | Some n => Py.str_of_int n
  | None => "None"
  end.

(** [issue["image"] = image; issue["alt_image_urls"] = variants] *)
Definition with_images (issue : GCDIssue) (covers : string * list string) : GCDIssue :=
  {| i_id := i_id issue;
     i_key_date := i_key_date issue;
     i_number := i_number issue;
     i_issue_title := i_issue_title issue;
     i_series_id := i_series_id issue;
     i_issue_notes := i_issue_notes issue;
     i_volume := i_volume issue;
     i_maturity_rating := i_maturity_rating issue;
     i_country := i_country issue;
     i_country_iso := i_country_iso issue;
     i_story_ids := i_story_ids issue;
     i_characters := i_characters issue;
     i_language := i_language issue;
     i_language_iso := i_language_iso issue;
     i_story_titles := i_story_titles issue;
     i_genres := i_genres issue;
     i_synopses := i_synopses issue;
     i_image := fst covers;
     i_alt_image_urls := snd covers;
     i_credits := i_credits issue;
     i_covers_downloaded := i_covers_downloaded issue |}.

Section More_methods.

Variable P : Platform.
Variable X : Extension P.
Variable self : Talker.

(** The state of [State], with a log that holds the new calls too. *)
Record World : Type := {
  w_cache : Cache P;
  w_has_index : bool;
  w_log : list call
}.

Definition XM (A : Type) : Type := World -> result A * World.

Definition xret {A : Type} (a : A) : XM A := fun w => (Ok a, w).

Definition xraise {A : Type} (e : exn) : XM A := fun w => (Raise e, w).

Definition xbind {A B : Type} (m : XM A) (k : A -> XM B) : XM B :=
  fun w =>
    match m w with
    | (Ok a, w') => k a w'
    | (Raise e, w') => (Raise e, w')
    end.

Notation "x <- m ;; k" := (xbind m (fun x => k))
  (at level 61, m at next level, right associativity).
Notation "m ;;; k" := (xbind m (fun _ => k))
  (at level 61, right associativity).

Definition xlift {A : Type} (r : result A) : XM A := fun w => (r, w).

(** The world after the calls [calls] have been logged. *)
Definition called (w : World) (calls : list call) : World :=
  {| w_cache := w_cache w; w_has_index := w_has_index w; w_log := w_log w ++ calls |}.

Definition xemit (c : call) : XM unit := fun w => (Ok tt, called w [c]).

(** A method of [Talker_methods] run in the world: it starts from the
    cache and the flag of the world, and what it logs is appended to the
    log of the world. *)
Definition run_base {A : Type} (m : M P A) : XM A :=
  fun w =>
    let r := m {| cache := w_cache w;
                  has_issue_id_type_id_index := w_has_index w;
                  log := [] |} in
    (fst r,
     {| w_cache := cache (snd r);
        w_has_index := has_issue_id_type_id_index (snd r);
        w_log := w_log w ++ map Base (log (snd r)) |}).

(** [cur.execute(q, params)] followed by its fetch, on the connection
    [con]. *)
Definition xexecute (con : Database) (q : statement) : XM (fetched q) :=
  xemit (Statement q) ;;;
  match answers X con q with
  | SqlOk a => xret a
  | SqlDataErr msg => xraise (SqliteDataError msg)
  | SqlErr msg => xraise (SqliteError msg)
  end.

(** The two [except] clauses that close a [try] around SQLite, as in
    [try_sqlite]. *)
Definition xtry_sqlite {A : Type} (body : XM A) : XM A :=
  fun w =>
    match body w with
    | (Raise (SqliteDataError msg), w') => (Raise (TalkerDataError talker_name 1 msg), w')
    | (Raise (SqliteError msg), w') => (Raise (TalkerDataError talker_name 0 msg), w')
    | r => r
    end.

(** [cvc.get_search_results(self.id, series_name)] *)
Definition cvc_get_search_results (series_name : string) : XM (list (CCSeries * bool)) :=
  xemit (CacheGetSearch series_name) ;;;
  fun w => (Ok (get_search_results X talker_id series_name (w_cache w)), w).

(** [cvc.add_search_results(self.id, series_name, entries, complete)] *)
Definition cvc_add_search_results (series_name : string) (entries : list CCSeries)
    (complete : bool) : XM unit :=
  xemit (CacheAddSearch series_name entries complete) ;;;
  fun w =>
    (Ok tt,
     {| w_cache := add_search_results X talker_id series_name entries complete (w_cache w);
        w_has_index := w_has_index w;
        w_log := w_log w |}).

(** [[json.loads(x[0].data) for x in cached_search_results]] *)
Definition decode_found (cached : list (CCSeries * bool)) : result (list FoundSeries) :=
  traverse (fun x =>
              match json_loads_found X (ccs_data (fst x)) with
              | Some record => Ok record
              | None => Raise JSONDecodeError
              end) cached.

(** The cache entry [search_for_series] writes for a record. *)
Definition CCSeries_of_found (x : FoundSeries) : CCSeries :=
  {| ccs_id := py_str (f_id x); ccs_data := json_dumps_found X x |}.

(** [GCDTalkerExt.search_for_series].  [callback] and
    [series_match_thresh] are not used by the method, and the sanitized
    title only goes to the logger. *)
Definition search_for_series (series_name : string) (refresh_cache literal : bool)
  : XM (list ComicSeries) :=
  xemit (Base EvCacheOpen) ;;;
  served <- (if negb refresh_cache && negb literal then
               cached_search_results <- cvc_get_search_results series_name ;;
               match cached_search_results with
               | _ :: _ =>
                   records <- xlift (decode_found cached_search_results) ;;
                   xret (Some (map format_found records))
               | [] => xret None
               end
             else xret None) ;;
  match served with
  | Some formatted => xret formatted
  | None =>
      run_base (check_db_filename_not_empty self) ;;;
      results <- xtry_sqlite (
        con <- run_base (sqlite3_connect (db_file self)) ;;
        rows <- xexecute con (QSearchSeries series_name) ;;
        xret (map found_of_row (rows : list SearchRow))) ;;
      cvc_add_search_results series_name (map CCSeries_of_found results) false ;;;
      xret (map format_found results)
  end.

(** The loop over the rows of one statement of
    [fetch_issues_by_series_issue_num_and_year], appending to
    [results]. *)
Fixpoint match_rows_loop (series : GCDSeries) (rows : list row)
    (results : list GenericMetadata) : XM (list GenericMetadata) :=
  match rows with
  | [] => xret results
  | record :: rest =>
      issue <- xlift (_format_gcd_issue record false) ;;
      issue <- (if download_tag_covers self
                then covers <- run_base (_find_issue_images (P := P) (i_id issue)) ;;
                     xret (with_images issue covers)
                else xret issue) ;;
      md <- xlift (_map_comic_issue_to_metadata P self issue series) ;;
      match_rows_loop series rest (results ++ [md])
  end.

(** The loop over [series_id_list]. *)
Fixpoint match_series_loop (con : Database) (issue_number : string) (year : option Z)
    (year_search : string) (series_id_list : list string)
    (results : list GenericMetadata) : XM (list GenericMetadata) :=
  match series_id_list with
  | [] => xret results
  | vid :: rest =>
      n <- run_base (@int P vid) ;;
      series <- run_base (_fetch_series_data self (VInt n)) ;;
      rows <- xexecute con (QMatchWithStories vid issue_number year_search) ;;
      results <- match (rows : list row) with
                 | _ :: _ => match_rows_loop series rows results
                 | [] =>
                     rows <- xexecute con
                               (QMatch vid issue_number (str_year year ++ "%")) ;;
                     match_rows_loop series (rows : list row) results
                 end ;;
      match_series_loop con issue_number year year_search rest results
  end.

(** [GCDTalkerExt.fetch_issues_by_series_issue_num_and_year] *)
Definition fetch_issues_by_series_issue_num_and_year (series_id_list : list string)
    (issue_number : string) (year : option Z) : XM (list GenericMetadata) :=
  let year_search := if year_truthy year then (str_year year ++ "%")%string else "%"%string in
  run_base (check_create_index self) ;;;
  xtry_sqlite (
    con <- run_base (sqlite3_connect (db_file self)) ;;
    match_series_loop con issue_number year year_search series_id_list []).

(** [GCDTalkerExt.check_status].  [settings] is the dict of settings, of
    which only ["gcd_url"] is read; [sqlite3.DataError] is a
    [sqlite3.Error], so the one [except] clause catches both. *)
Definition check_status (settings : list (string * string)) : XM (string * bool) :=
  fun w =>
    match (match find (fun kv => String.eqb (fst kv) "gcd_url") settings with
           | None => xraise (KeyError "gcd_url")
           | Some kv =>
               con <- run_base (@sqlite3_connect P (snd kv)) ;;
               xexecute con QCreditTypes ;;;
               xret ("The DB access test was successful"%string, true)
           end) w with
    | (Raise (SqliteDataError _), w') | (Raise (SqliteError _), w') =>
        (Ok ("DB access failed"%string, false), w')
    | r => r
    end.

End More_methods.

(** [settings["gcd_url"]] *)
Definition gcd_url (settings : list (string * string)) : option string :=
  match find (fun kv => String.eqb (fst kv) "gcd_url") settings with
  | Some kv => Some (snd kv)
  | None => None
  end.

(** The probe goes through: the file opens and the statement runs. *)
Definition database_answers (P : Platform) (X : Extension P) (path : string) : bool :=
  match connect P path with
  | SqlOk con => match answers X con QCreditTypes with
                 | SqlOk _ => true
                 | _ => false
                 end
  | _ => false
  end.

(** The calls of a search that goes to the database. *)
Definition search_calls (P : Platform) (X : Extension P) (self : Talker)
    (series_name : string) (refresh_cache literal : bool) (results : list FoundSeries)
  : list call :=
  Base EvCacheOpen
  :: (if negb refresh_cache && negb literal then [CacheGetSearch series_name] else [])
  ++ [Base (EvConnect (db_file self)); Statement (QSearchSeries series_name);
      CacheAddSearch series_name (map (CCSeries_of_found X) results) false].

(** The world after the cache store has been replaced by [c]. *)
Definition with_store (P : Platform) (w : World P) (c : Cache P) : World P :=
  {| w_cache := c; w_has_index := w_has_index w; w_log := w_log w |}.

(** A computation in the world that raises nothing outside [allowed]. *)
Definition xraises_only_in (P : Platform) (A : Type) (allowed : exn -> bool) (m : XM P A)
  : Prop :=
  forall w, raises_only allowed (fst (m w)).


(** A computation in the world only appends to the log, and every call it
    appends passes [ok]. *)
Definition xadds_only (P : Platform) (A : Type) (ok : call -> bool) (m : XM P A) : Prop :=
  forall w, exists calls, w_log (snd (m w)) = w_log w ++ calls /\ forallb ok calls = true.

(** The pattern of the first statement of a match: the year as a prefix,
    or anything when there is no year. *)
Definition year_search (year : option Z) : string :=
  if year_truthy year then (str_year year ++ "%")%string else "%"%string.

(** A call [fetch_issues_by_series_issue_num_and_year] can make: a
    request only under a cover option, the series table of the cache
    (written flagged complete) but neither its issue table nor its search
    table, and of the statements only the two matches, for a series of
    the list, the number given, and the pattern of each. *)
Definition match_call (self : Talker) (series_id_list : list string)
    (issue_number : string) (year : option Z) (c : call) : bool :=
  match c with
  | Base (EvHttpGet _) => download_gui_covers self || download_tag_covers self
  | Base (EvCacheAddIssues _ _) | Base (EvCacheGetIssue _)
  | Base (EvCacheGetSeriesIssues _) => false
  | Base (EvCacheAddSeries _ complete) => complete
  | Base _ => true
  | Statement (QMatchWithStories vid number key_date) =>
      existsb (String.eqb vid) series_id_list && String.eqb number issue_number
      && String.eqb key_date (year_search year)
  | Statement (QMatch vid number key_date) =>
      existsb (String.eqb vid) series_id_list && String.eqb number issue_number
      && String.eqb key_date (str_year year ++ "%")
  | _ => false
  end.

(** One matched row: formatted in the summary shape and normalized. *)
Definition matched (P : Platform) (self : Talker) (series : GCDSeries) (record : row)
  : result GenericMetadata :=
  let? issue := _format_gcd_issue record false in
  _map_comic_issue_to_metadata P self issue series.

(** The statements of the match for one series: the match with stories
    and, when that found no [rows], the match without. *)
Definition match_statements (vid issue_number : string) (year : option Z)
    (rows : list row) : list call :=
  Statement (QMatchWithStories vid issue_number (year_search year))
  :: match rows with
     | [] => [Statement (QMatch vid issue_number (str_year year ++ "%"))]
     | _ :: _ => []
     end.

(* ===================================================================== *)
(** * Rows that format *)
(* ===================================================================== *)








(* ===================================================================== *)
(** * Where the series record of the issue list comes from *)
(* ===================================================================== *)

(** The image a series gets when it is read from the database: the first
    cover of its first issue under the GUI cover option, nothing
    otherwise. *)
Definition series_cover (self : Talker) (first : sqlval) (urls : list string) : string :=
  if download_gui_covers self
  then (if truthy first then hd ""%string (map strip_query urls) else ""%string)
  else ""%string.

(** What reading a series from the database calls: the series statement
    and, under the GUI cover option, the first-issue statement on a second
    connection and the request for the cover page of a truthy first
    issue. *)
Definition series_database_calls (self : Talker) (n : Z) (first : sqlval) : list event :=
  EvConnect (db_file self) :: EvQuery (QSeries (VInt n))
  :: (if download_gui_covers self
      then EvConnect (db_file self) :: EvQuery (QFirstIssueId (VInt n))
           :: (if truthy first then [EvHttpGet (cover_url first)] else [])
      else []).

(** The two ways the lookup of series [n] ends with a record, and the
    state each leaves.  Either the series cache holds an entry flagged
    complete, and the record is the decoded entry, whatever the database
    holds; or it does not, and the record is built from the row of the
    database and stored flagged complete. *)
Inductive series_read (P : Platform) (self : Talker) (n : Z) (st : State P)
  : GCDSeries -> State P -> Prop :=
| series_read_cached (entry : CCSeries) (series : GCDSeries) :
    get_series_info P (Py.str_of_int n) talker_id (cache st) = Some (entry, true) ->
    json_loads_series P (ccs_data entry) = Some series ->
    series_read self n st series
      (logged st [EvCacheOpen; EvCacheGetSeries (Py.str_of_int n)])
| series_read_database (con : Database) (record : SeriesRow) (first : sqlval)
    (covers_html : string) (urls : list string) :
    (forall entry, get_series_info P (Py.str_of_int n) talker_id (cache st)
                   <> Some (entry, true)) ->
    connect P (db_file self) = SqlOk con ->
    con (QSeries (VInt n)) = SqlOk (Some record) ->
    (download_gui_covers self = true ->
     con (QFirstIssueId (VInt n)) = SqlOk (Some first) /\
     (truthy first = true ->
      http_get P (cover_url first) = HttpOk covers_html /\
      find_cover_imgs P covers_html = map Some urls)) ->
    series_read self n st
      (series_of_row record (series_cover self first urls) (download_gui_covers self))
      (with_cache
         (logged st
            ([EvCacheOpen; EvCacheGetSeries (Py.str_of_int n)]
             ++ series_database_calls self n first
             ++ [EvCacheAddSeries
                   {| ccs_id := py_str (r_id record);
                      ccs_data :=
                        json_dumps_series P
                          (series_of_row record (series_cover self first urls)
                             (download_gui_covers self)) |}
                   true]))
         (add_series_info P talker_id
            {| ccs_id := py_str (r_id record);
               ccs_data :=
                 json_dumps_series P
                   (series_of_row record (series_cover self first urls)
                      (download_gui_covers self)) |}
            true (cache st))).


(* ===================================================================== *)
(** * A small world to run the methods in *)
(* ===================================================================== *)

(** A concrete [Platform]: a database with two series and one issue that
    has stories, a cache held in two lists in which an entry added under an
    id replaces the one stored under it, a cover page with three images,
    and a toy codec in place of [json]. *)
Module Demo.

Fixpoint digits (s : string) (acc : Z) : option Z :=
  match s with
  | "" => Some acc
  | String c s' =>
      let d := nat_of_ascii c in
      if Nat.leb 48 d && Nat.leb d 57
      then digits s' (10 * acc + Z.of_nat (d - 48))%Z
      else None
  end.

Definition parse_int (s : string) : option Z :=
  match s with
  | "" => None
  | _ => digits s 0%Z
  end.

Definition issue_row (series_id id : Z) : row :=
  [("id", VInt id); ("key_date", VText "1940-04-00"); ("number", VText (Py.str_of_int id));
   ("issue_title", VText ""); ("series_id", VInt series_id)].

(** The row of the without-stories query of [_fetch_issue_by_issue_id]. *)
Definition row_without_stories : row :=
  issue_row 3 7 ++
  [("issue_notes", VText ""); ("volume", VInt 1); ("maturity_rating", VText "");
   ("country", VText "United States"); ("country_iso", VText "us");
   ("language", VText "English"); ("language_iso", VText "en")].

(** A row of the with-stories query of [_fetch_issue_by_issue_id]. *)
Definition row_with_stories (story_titles genres synopses story_ids : sqlval) : row :=
  row_without_stories ++
  [("characters", VText "Batman; Robin");
   ("story_titles", story_titles); ("genres", genres);
   ("synopses", synopses); ("story_ids", story_ids)].

Definition series_row (id count : Z) : SeriesRow :=
  {| r_id := VInt id;
     r_series_name := VText "Batman";
     r_sort_name := VText "Batman";
     r_notes := VText "";
     r_year_began := VInt 1940;
     r_year_ended := VNull;
     r_issue_count := VInt count;
     r_publisher_name := VText "DC";
     r_format := VText "" |}.

Definition summary_issue_titled (story_titles : list string) (series_id id : Z) : GCDIssue :=
  {| i_id := VInt id;
     i_key_date := VText "1940-04-00";
     i_number := VText (Py.str_of_int id);
     i_issue_title := VText "";
     i_series_id := VInt series_id;
     i_issue_notes := None;
     i_volume := None;
     i_maturity_rating := None;
     i_country := None;
     i_country_iso := None;
     i_story_ids := None;
     i_characters := None;
     i_language := None;
     i_language_iso := None;
     i_story_titles := story_titles;
     i_genres := None;
     i_synopses := [];
     i_image := "";
     i_alt_image_urls := [];
     i_credits := None;
     i_covers_downloaded := None |}.

Definition summary_issue : Z -> Z -> GCDIssue := summary_issue_titled [].

(** The rows series 3 has under the with-stories query, and the summary
    records they format to. *)
Definition series3_rows : list row :=
  map (fun k => issue_row 3 (Z.of_nat k) ++ [("story_titles", VText "Story")]) (seq 1 10).

Definition series3_issues : list GCDIssue :=
  map (fun k => summary_issue_titled ["Story"] 3 (Z.of_nat k)) (seq 1 10).

(** Series 3 has ten issues, numbered 1 to 10; series 4 has two, 41 and
    42; issue 7 has two stories, 70 and 71; nothing else exists. *)
Definition db : Database := fun q =>
  match q as q0 return sql_result (answer q0) with
  | QIndexExists => SqlOk true
  | QCreateIndex => SqlOk tt
  | QSeriesIssuesWithStories sid =>
      SqlOk (if (sid =? 3)%Z then series3_rows else [])
  | QSeriesIssues sid =>
      SqlOk (if (sid =? 4)%Z then [issue_row 4 41; issue_row 4 42] else [])
  | QFirstIssueId _ => SqlOk (Some (VInt 1))
  | QIssueCredits iid =>
      SqlOk (match iid with
             | VInt 7 => [(VText "editor", VText "Whitney Ellsworth")]
             | _ => []
             end)
  | QStoryCredits stid =>
      SqlOk (if (stid =? 70)%Z then [(VText "Bob Kane", VText "pencils")]
             else if (stid =? 71)%Z
                  then [(VText "Bill Finger", VText "script"); (VText "Bob Kane", VText "pencils")]
                  else [])
  | QSeries sid =>
      SqlOk (match sid with
             | VInt 3 => Some (series_row 3 10)
             | VInt 4 => Some (series_row 4 2)
             | _ => None
             end)
  | QIssueId sid num =>
      SqlOk (if (sid =? 3)%Z && String.eqb num "7" then Some (VInt 7) else None)
  | QIssueWithStories iid =>
      SqlOk (match iid with
             | VInt 7 => Some (row_with_stories
                                 (VText ("Part One" ++ Py.nl ++ "Part Two"))
                                 (VText "superhero")
                                 (VText ("A hero rises." ++ Py.nlnl ++ "A villain falls."))
                                 (VText ("70" ++ Py.nl ++ "71")))
             | _ => None
             end)
  | QIssue _ => SqlOk None
  end.

(** What [sqlite3.connect("")] opens: a fresh database without tables, in
    which every statement of the talker fails. *)
Definition blank_db : Database := fun q => SqlErr "no such table".

(** The codec: a payload is the id of the record it stands for; anything
    else does not decode. *)
Definition loads_issue (data : string) : option GCDIssue :=
  match parse_int data with
  | Some id => Some (summary_issue 4 id)
  | None => None
  end.

Definition series_of_row (r : SeriesRow) : GCDSeries :=
  {| s_id := r_id r;
     s_name := r_series_name r;
     s_sort_name := r_sort_name r;
     s_notes := r_notes r;
     s_year_began := r_year_began r;
     s_year_ended := r_year_ended r;
     s_count_of_issues := r_issue_count r;
     s_publisher_name := r_publisher_name r;
     s_format := r_format r;
     s_image := "";
     s_cover_downloaded := false |}.

Definition loads_series (data : string) : option GCDSeries :=
  if String.eqb data "3" then Some (series_of_row (series_row 3 10))
  else if String.eqb data "4" then Some (series_of_row (series_row 4 2))
  else None.

(** The cache: the series table and the issue table. *)
Record Store : Type := {
  series_tbl : list (CCSeries * bool);
  issues_tbl : list (CCIssue * bool)
}.

Definition cover_page : string := "<html>covers</html>".

Definition platform : Platform := {|
  connect := fun path => if String.eqb path "" then SqlOk blank_db else SqlOk db;
  http_get := fun _ => HttpOk cover_page;
  find_cover_imgs := fun html =>
    if String.eqb html cover_page
    then [Some "https://files1.comics.org/img/a.jpg?1";
          Some "https://files1.comics.org/img/b.jpg?2";
          Some "https://files1.comics.org/img/c.jpg?3"]
    else [];
  json_dumps_series := fun s => py_str (s_id s);
  json_loads_series := loads_series;
  json_dumps_issue := fun x => py_str (i_id x);
  json_loads_issue := loads_issue;
  int_of_str := parse_int;
  xlate := fun v => match v with
                    | VNull | VText "" => None
                    | _ => Some (py_str v)
                    end;
  xlate_int := fun v => match v with
                        | VInt n => Some n
                        | VText s => parse_int s
                        | VNull => None
                        end;
  issue_string := py_str;
  parse_date_str := fun _ => (None, None, None);
  urljoin := fun base path => (base ++ path)%string;
  add_credit := fun credits person role => credits ++ [(person, role)];
  Cache := Store;
  get_series_info := fun id _ c =>
    find (fun e => String.eqb (ccs_id (fst e)) id) (series_tbl c);
  get_series_issues_info := fun id _ c =>
    filter (fun e => String.eqb (cci_series_id (fst e)) id) (issues_tbl c);
  get_issue_info := fun id _ c =>
    find (fun e => String.eqb (cci_id (fst e)) (py_str id)) (issues_tbl c);
  add_series_info := fun _ s complete c =>
    {| series_tbl :=
         (s, complete)
         :: filter (fun e => negb (String.eqb (ccs_id (fst e)) (ccs_id s))) (series_tbl c);
       issues_tbl := issues_tbl c |};
  add_issues_info := fun _ l complete c =>
    {| series_tbl := series_tbl c;
       issues_tbl :=
         map (fun x => (x, complete)) l
         ++ filter (fun e => negb (existsb (fun x => String.eqb (cci_id x) (cci_id (fst e))) l))
              (issues_tbl c) |}
|}.

(** A talker pointed at the database, and one left unconfigured. *)
Definition talker : Talker :=
  {| db_file := "gcd.db";
     use_series_start_as_volume := false;
     download_gui_covers := false;
     download_tag_covers := false |}.

Definition unconfigured : Talker :=
  {| db_file := "";
     use_series_start_as_volume := false;
     download_gui_covers := false;
     download_tag_covers := false |}.

Definition state_with (c : Store) : State platform :=
  {| cache := (c : Cache platform); has_issue_id_type_id_index := false; log := [] |}.

Definition empty_store : Store := {| series_tbl := []; issues_tbl := [] |}.

Definition cached_issue (series_id : string) (id : Z) : CCIssue * bool :=
  ({| cci_id := Py.str_of_int id; cci_series_id := series_id; cci_data := Py.str_of_int id |},
   false).

(** Nine of the ten issues of series 3 are cached. *)
Definition nine_of_ten : Store :=
  {| series_tbl := [];
     issues_tbl := map (fun k => cached_issue "3" (Z.of_nat k)) (seq 1 9) |}.

(** Both issues of series 4 are cached. *)
Definition two_of_two : Store :=
  {| series_tbl := [];
     issues_tbl := [cached_issue "4" 41; cached_issue "4" 42] |}.

(** The entry of series 3 is flagged complete, but its payload is cut
    short. *)
Definition broken_series : Store :=
  {| series_tbl := [({| ccs_id := "3"; ccs_data := "{'id': 3, " |}, true)];
     issues_tbl := [] |}.

(** The entry of issue 7 is flagged complete, but its payload is cut
    short. *)
Definition broken_issue : Store :=
  {| series_tbl := [];
     issues_tbl := [({| cci_id := "7"; cci_series_id := "3"; cci_data := "{'id': 7, " |},
                     true)] |}.

End Demo.

(* ===================================================================== *)
(** * A world whose cache gives back what was stored *)
(* ===================================================================== *)

(** [Demo.platform] with a codec that decodes the payload of issue 7 to
    the complete record of that issue. *)
Module Replay.

(** Issue 7 as [_fetch_issue_by_issue_id] resolves it from [Demo.db]. *)
Definition issue7 : GCDIssue :=
  {| i_id := VInt 7;
     i_key_date := VText "1940-04-00";
     i_number := VText "7";
     i_issue_title := VText "";
     i_series_id := VInt 3;
     i_issue_notes := Some (VText "");
     i_volume := Some (VInt 1);
     i_maturity_rating := Some (VText "");
     i_country := Some (VText "United States");
     i_country_iso := Some (VText "us");
     i_story_ids := Some ["70"; "71"];
     i_characters := Some (CharsList ["Batman"; "Robin"]);
     i_language := Some (VText "English");
     i_language_iso := Some (VText "en");
     i_story_titles := ["Part One"; "Part Two"];
     i_genres := Some ["superhero"];
     i_synopses := ["A hero rises."; "A villain falls."];
     i_image := "";
     i_alt_image_urls := [];
     i_credits :=
       Some [{| name := VText "Whitney Ellsworth"; gcd_role := VText "editor" |};
             {| name := VText "Bob Kane"; gcd_role := VText "pencils" |};
             {| name := VText "Bill Finger"; gcd_role := VText "script" |};
             {| name := VText "Bob Kane"; gcd_role := VText "pencils" |}];
     i_covers_downloaded := None |}.

Definition loads_issue (data : string) : option GCDIssue :=
  if String.eqb data "7" then Some issue7 else Demo.loads_issue data.

Definition platform : Platform := {|
  connect := connect Demo.platform;
  http_get := http_get Demo.platform;
  find_cover_imgs := find_cover_imgs Demo.platform;
  json_dumps_series := json_dumps_series Demo.platform;
  json_loads_series := json_loads_series Demo.platform;
  json_dumps_issue := json_dumps_issue Demo.platform;
  json_loads_issue := loads_issue;
  int_of_str := int_of_str Demo.platform;
  xlate := xlate Demo.platform;
  xlate_int := xlate_int Demo.platform;
  issue_string := issue_string Demo.platform;
  parse_date_str := parse_date_str Demo.platform;
  urljoin := urljoin Demo.platform;
  add_credit := add_credit Demo.platform;
  Cache := Demo.Store;
  get_series_info := get_series_info Demo.platform;
  get_series_issues_info := get_series_issues_info Demo.platform;
  get_issue_info := get_issue_info Demo.platform;
  add_series_info := add_series_info Demo.platform;
  add_issues_info := add_issues_info Demo.platform
|}.

Definition state_with (c : Demo.Store) : State platform :=
  {| cache := (c : Cache platform); has_issue_id_type_id_index := false; log := [] |}.

(** The story ids of issue 7 as numbers. *)
Definition story_number (story_id : string) : Z :=
  if String.eqb story_id "70" then 70 else 71.

(** The credit rows of the stories of issue 7. *)
Definition story_rows (story_id : string) : list (sqlval * sqlval) :=
  if String.eqb story_id "70" then [(VText "Bob Kane", VText "pencils")]
  else [(VText "Bill Finger", VText "script"); (VText "Bob Kane", VText "pencils")].

(** The row of issue 7 under the with-stories query. *)
Definition issue7_row : row :=
  Demo.row_with_stories
    (VText ("Part One" ++ Py.nl ++ "Part Two"))
    (VText "superhero")
    (VText ("A hero rises." ++ Py.nlnl ++ "A villain falls."))
    (VText ("70" ++ Py.nl ++ "71")).

End Replay.

Module Covers.

(** [Demo.talker] with the GUI cover option on. *)
Definition talker : Talker :=
  {| db_file := "gcd.db";
     use_series_start_as_volume := false;
     download_gui_covers := true;
     download_tag_covers := false |}.

End Covers.

(* ===================================================================== *)
(** * A world with a search table *)
(* ===================================================================== *)

(** [Demo.platform] with a cache that also holds the results stored under
    a search term, and a connection that answers the search and the two
    matches: the search for ["Batman"] finds series 3 and 4; issue 7 of
    series 3 is matched with its stories under any key date; issue 41 of
    series 4, which has no stories, is matched under a key date of
    1940. *)
Module Search.

Record Store : Type := {
  tables : Demo.Store;
  searches : list (string * list (CCSeries * bool))
}.

Definition on_tables (f : Demo.Store -> Demo.Store) (c : Store) : Store :=
  {| tables := f (tables c); searches := searches c |}.

Definition platform : Platform := {|
  connect := connect Demo.platform;
  http_get := http_get Demo.platform;
  find_cover_imgs := find_cover_imgs Demo.platform;
  json_dumps_series := json_dumps_series Demo.platform;
  json_loads_series := json_loads_series Demo.platform;
  json_dumps_issue := json_dumps_issue Demo.platform;
  json_loads_issue := json_loads_issue Demo.platform;
  int_of_str := int_of_str Demo.platform;
  xlate := xlate Demo.platform;
  xlate_int := xlate_int Demo.platform;
  issue_string := issue_string Demo.platform;
  parse_date_str := parse_date_str Demo.platform;
  urljoin := urljoin Demo.platform;
  add_credit := add_credit Demo.platform;
  Cache := Store;
  get_series_info := fun id source c => get_series_info Demo.platform id source (tables c);
  get_series_issues_info := fun id source c =>
    get_series_issues_info Demo.platform id source (tables c);
  get_issue_info := fun id source c => get_issue_info Demo.platform id source (tables c);
  add_series_info := fun source s complete =>
    on_tables (add_series_info Demo.platform source s complete);
  add_issues_info := fun source l complete =>
    on_tables (add_issues_info Demo.platform source l complete)
|}.

Definition search_row (id count : Z) : SearchRow :=
  {| sr_id := VInt id;
     sr_series_name := VText "Batman";
     sr_sort_name := VText "Batman";
     sr_notes := VText "";
     sr_year_began := VInt 1940;
     sr_year_ended := VNull;
     sr_issue_count := VInt count;
     sr_publisher_name := VText "DC" |}.

Definition loads_found (data : string) : option FoundSeries :=
  if String.eqb data "3" then Some (found_of_row (search_row 3 10))
  else if String.eqb data "4" then Some (found_of_row (search_row 4 2))
  else None.

Definition extension : Extension platform := {|
  answers := fun con q =>
    match con QIndexExists with
    | SqlDataErr msg => SqlDataErr msg
    | SqlErr msg => SqlErr msg
    | SqlOk _ =>
        match q as q0 return sql_result (fetched q0) with
        | QSearchSeries series_name =>
            SqlOk (if String.eqb series_name "Batman"
                   then [search_row 3 10; search_row 4 2] else [])
        | QMatchWithStories vid issue_number key_date =>
            SqlOk (if String.eqb vid "3" && String.eqb issue_number "7"
                   then [Demo.issue_row 3 7 ++ [("story_titles", VText "Story")]]
                   else [])
        | QMatch vid issue_number key_date =>
            SqlOk (if String.eqb vid "4" && String.eqb issue_number "41"
                      && String.eqb key_date "1940%"
                   then [Demo.issue_row 4 41] else [])
        | QCreditTypes => SqlOk tt
        end
    end;
  get_search_results := fun _ series_name (c : Cache platform) =>
    match find (fun e => String.eqb (fst e) series_name) (searches (c : Store)) with
    | Some e => snd e
    | None => []
    end;
  add_search_results := fun _ series_name entries complete (c : Cache platform) =>
    ({| tables := tables (c : Store);
        searches :=
          (series_name, map (fun x => (x, complete)) entries)
          :: filter (fun e => negb (String.eqb (fst e) series_name))
               (searches (c : Store)) |} : Store);
  json_dumps_found := fun x => py_str (f_id x);
  json_loads_found := loads_found
|}.

Definition world_with (c : Store) : World platform :=
  {| w_cache := (c : Cache platform); w_has_index := false; w_log := [] |}.

Definition empty_store : Store := {| tables := Demo.empty_store; searches := [] |}.

(** The search for ["Batman"] has been stored. *)
Definition searched : Store :=
  {| tables := Demo.empty_store;
     searches :=
       [("Batman",
         [({| ccs_id := "3"; ccs_data := "3" |}, false);
          ({| ccs_id := "4"; ccs_data := "4" |}, false)])] |}.

End Search.

(* ===================================================================== *)
(** * A world with an old series record in the cache *)
(* ===================================================================== *)

(** [Demo.platform] with a codec under which the payload ["3"] is the
    record of series 3 as it was when the series had nine issues; the
    database meanwhile holds ten. *)
Module Stale.

Definition loads_series (data : string) : option GCDSeries :=
  if String.eqb data "3" then Some (Demo.series_of_row (Demo.series_row 3 9))
  else Demo.loads_series data.

Definition platform : Platform := {|
  connect := connect Demo.platform;
  http_get := http_get Demo.platform;
  find_cover_imgs := find_cover_imgs Demo.platform;
  json_dumps_series := json_dumps_series Demo.platform;
  json_loads_series := loads_series;
  json_dumps_issue := json_dumps_issue Demo.platform;
  json_loads_issue := json_loads_issue Demo.platform;
  int_of_str := int_of_str Demo.platform;
  xlate := xlate Demo.platform;
  xlate_int := xlate_int Demo.platform;
  issue_string := issue_string Demo.platform;
  parse_date_str := parse_date_str Demo.platform;
  urljoin := urljoin Demo.platform;
  add_credit := add_credit Demo.platform;
  Cache := Demo.Store;
  get_series_info := get_series_info Demo.platform;
  get_series_issues_info := get_series_issues_info Demo.platform;
  get_issue_info := get_issue_info Demo.platform;
  add_series_info := add_series_info Demo.platform;
  add_issues_info := add_issues_info Demo.platform
|}.

(** The series entry, flagged complete, and nine of the ten issues. *)
Definition store : Demo.Store :=
  {| Demo.series_tbl := [({| ccs_id := "3"; ccs_data := "3" |}, true)];
     Demo.issues_tbl := Demo.issues_tbl Demo.nine_of_ten |}.

Definition state : State platform :=
  {| cache := (store : Cache platform); has_issue_id_type_id_index := false; log := [] |}.

End Stale.
(* ===================================================================== *)
(** * Properties of splitting and joining *)
(* ===================================================================== *)

Example split_nl_ex : Py.split Py.nl ("A" ++ Py.nl ++ "B") = ["A"; "B"].
Proof. reflexivity. Qed.

Example split_empty_ex : Py.split Py.nl "" = [""].
Proof. reflexivity. Qed.

Example split_semicolon_ex : Py.split "; " "Batman; Robin; Joker" = ["Batman"; "Robin"; "Joker"].
Proof. reflexivity. Qed.

Example split_query_ex : Py.split "?" "https://x/a.jpg?123" = ["https://x/a.jpg"; "123"].
Proof. reflexivity. Qed.

Example split_trailing_ex : Py.split Py.nl ("A" ++ Py.nl) = ["A"; ""].
Proof. reflexivity. Qed.

Example str_of_int_ex : Py.str_of_int 1940 = "1940" /\ Py.str_of_int 0 = "0".
Proof. split; reflexivity. Qed.

Lemma prefix_nil (s : string) : prefix "" s = true.
Proof. now destruct s. Qed.




Lemma string_app_assoc (a b c : string) : ((a ++ b) ++ c = a ++ (b ++ c))%string.
Proof. induction a; simpl; congruence. Qed.









Lemma prefix_cons (a b : ascii) (s1 s2 : string) :
  prefix (String a s1) (String b s2) = Ascii.eqb a b && prefix s1 s2.
Proof.
  cbn [prefix]. destruct (ascii_dec a b) as [->|ne].
  - now rewrite Ascii.eqb_refl.
  - apply Ascii.eqb_neq in ne. now rewrite ne.
Qed.












(* ===================================================================== *)
(** * Row aggregation *)
(* ===================================================================== *)




(** The summary shape splits a ["synopses"] column on a single newline, not
    on the double newline the complete shape and the query use. *)
Example summary_shape_synopses :
  exists issue,
    _format_gcd_issue
      (Demo.issue_row 3 7 ++ [("synopses", VText ("a" ++ Py.nlnl ++ "b"))]) false = Ok issue /\
    i_synopses issue = ["a"; ""; "b"].
Proof. eexists. split; vm_compute; reflexivity. Qed.

(** C9.  The fallback query of the single-issue fetch has no ["characters"]
    column; the complete shape then stores the empty string under
    ["characters"], while every other absent list field becomes the empty
    list. *)
Theorem format_gcd_issue_characters_default :
  exists issue,
    _format_gcd_issue Demo.row_without_stories true = Ok issue /\
    i_characters issue = Some (CharsStr "") /\
    i_characters issue <> Some (CharsList []) /\
    i_story_titles issue = [] /\
    i_genres issue = Some [] /\
    i_synopses issue = [] /\
    i_story_ids issue = Some [] /\
    i_alt_image_urls issue = [].
Proof.
  eexists. split; [vm_compute; reflexivity|]. cbn. repeat split. discriminate.
Qed.

(** The same holds for every row without the column. *)
Lemma format_gcd_issue_characters_absent (r : row) (issue : GCDIssue) :
  has_key "characters" r = false ->
  _format_gcd_issue r true = Ok issue ->
  i_characters issue = Some (CharsStr "").
Proof.
  intros Hk H. unfold _format_gcd_issue in H. rewrite Hk in H.
  repeat match type of H with
         | bind_result ?x _ = _ => destruct x; cbn [bind_result] in H; [|discriminate]
         end.
  now inversion H.
Qed.

(* ===================================================================== *)
(** * Description selection *)
(* ===================================================================== *)

Lemma string_app_nil_r (s : string) : (s ++ "")%string = s.
Proof. induction s; simpl; congruence. Qed.

(** The indexed loop reads [synopses[i]] in step with the titles, so on
    lists of equal length it never runs out of range and builds the paired
    description. *)
Lemma description_loop_paired (story_titles : list string) :
  forall (done rest : list string) (description : string),
    List.length rest = List.length story_titles ->
    description_loop (done ++ rest) (List.length done) story_titles description
    = Ok (description ++ paired_description story_titles rest)%string.
Proof.
  induction story_titles as [|title titles IH]; intros done rest description Hlen.
  - destruct rest; [|discriminate]. cbn. now rewrite string_app_nil_r.
  - destruct rest as [|synopsis rest]; [discriminate|].
    injection Hlen as Hlen.
    assert (Hnth : nth_error (done ++ synopsis :: rest) (List.length done) = Some synopsis).
    { rewrite nth_error_app2, Nat.sub_diag by lia. reflexivity. }
    assert (Hstep : forall d,
               description_loop (done ++ synopsis :: rest) (S (List.length done)) titles d
               = Ok (d ++ paired_description titles rest)%string).
    { intros d.
      replace (done ++ synopsis :: rest) with ((done ++ [synopsis]) ++ rest)
        by (rewrite <- app_assoc; reflexivity).
      replace (S (List.length done)) with (List.length (done ++ [synopsis]))
        by (rewrite length_app; simpl; lia).
      now apply IH. }
    cbn [description_loop paired_description]. unfold paired.
    destruct (Py.nonempty title); cbn [andb].
    + rewrite Hnth. destruct (Py.nonempty synopsis).
      * rewrite Hstep. f_equal. now rewrite !string_app_assoc.
      * rewrite Hstep. reflexivity.
    + rewrite Hstep. reflexivity.
Qed.

Lemma build_description_spec (story_titles synopses : list string) :
  build_description story_titles synopses = Ok (spec_description story_titles synopses).
Proof.
  unfold build_description, spec_description.
  destruct (Nat.eqb_spec (List.length synopses) (List.length story_titles)) as [Hlen|_];
    [|reflexivity].
  exact (description_loop_paired story_titles [] synopses "" Hlen).
Qed.

(** The normalizer never raises. *)
Lemma map_comic_issue_to_metadata_total (P : Platform) (self : Talker)
    (issue : GCDIssue) (series : GCDSeries) :
  exists md, _map_comic_issue_to_metadata P self issue series = Ok md.
Proof.
  unfold _map_comic_issue_to_metadata. rewrite build_description_spec.
  cbn [bind_result].
  destruct (if truthy (i_key_date issue) then _ else _) as [[day month] year].
  eauto.
Qed.

(** C3, as amended.  When there are as many synopses as story titles the
    description is the in-order concatenation of ["{title}: {synopsis}\n\n"]
    over the aligned pairs whose title and synopsis are both non-empty;
    otherwise it is the synopses joined with ["\n\n"].  Titles
    ["Part One"], ["Part Two"] with synopses ["A hero rises."],
    ["A villain falls."] give
    ["Part One: A hero rises.\n\nPart Two: A villain falls.\n\n"], with no
    space between the two parts; two titles with one synopsis give that
    synopsis alone. *)
Theorem description_selection :
  (forall (P : Platform) (self : Talker) (issue : GCDIssue) (series : GCDSeries),
      exists md,
        _map_comic_issue_to_metadata P self issue series = Ok md /\
        md_description md
        = Some (spec_description (i_story_titles issue) (i_synopses issue))) /\
  spec_description ["Part One"; "Part Two"] ["A hero rises."; "A villain falls."]
  = ("Part One: A hero rises." ++ Py.nlnl ++ "Part Two: A villain falls." ++ Py.nlnl)%string /\
  (forall title1 title2 synopsis : string,
      spec_description [title1; title2] [synopsis] = synopsis).
Proof.
  split; [|split].
  - intros P self issue series.
    unfold _map_comic_issue_to_metadata. rewrite build_description_spec.
    cbn [bind_result].
    destruct (if truthy (i_key_date issue) then _ else _) as [[day month] year].
    eexists. split; reflexivity.
  - reflexivity.
  - reflexivity.
Qed.

(** C3, as stated, fails on its own example: the description the code
    builds has no space in front of ["Part Two"]. *)
Lemma description_selection_counterexample :
  let issue :=
    {| i_id := VInt 7; i_key_date := VNull; i_number := VText "7";
       i_issue_title := VText ""; i_series_id := VInt 3;
       i_issue_notes := None; i_volume := None; i_maturity_rating := None;
       i_country := None; i_country_iso := None; i_story_ids := None;
       i_characters := None; i_language := None; i_language_iso := None;
       i_story_titles := ["Part One"; "Part Two"];
       i_genres := None;
       i_synopses := ["A hero rises."; "A villain falls."];
       i_image := ""; i_alt_image_urls := []; i_credits := None;
       i_covers_downloaded := None |} in
  exists md,
    _map_comic_issue_to_metadata Demo.platform Demo.talker issue
      (Demo.series_of_row (Demo.series_row 3 10)) = Ok md /\
    md_description md
    = Some ("Part One: A hero rises." ++ Py.nlnl ++ "Part Two: A villain falls." ++ Py.nlnl)%string /\
    md_description md
    <> Some ("Part One: A hero rises." ++ Py.nlnl ++ " Part Two: A villain falls." ++ Py.nlnl)%string.
Proof.
  cbv zeta. eexists. split; [vm_compute; reflexivity|].
  split; [reflexivity|]. cbn. discriminate.
Qed.

(* ===================================================================== *)
(** * Running the monad *)
(* ===================================================================== *)

Lemma logged_nil (P : Platform) (st : State P) : logged st [] = st.
Proof. destruct st. unfold logged. cbn. now rewrite app_nil_r. Qed.

Lemma logged_logged (P : Platform) (st : State P) (e1 e2 : list event) :
  logged (logged st e1) e2 = logged st (e1 ++ e2).
Proof. unfold logged. cbn. now rewrite app_assoc. Qed.

Lemma pair_of_fst (A B : Type) (x : A * B) (a : A) : fst x = a -> x = (a, snd x).
Proof. intros <-. now destruct x. Qed.

Lemma run_bind (P : Platform) (A B : Type) (m : M P A) (k : A -> M P B) (st : State P) :
  bind m k st = match m st with
                | (Ok a, st') => k a st'
                | (Raise e, st') => (Raise e, st')
                end.
Proof. reflexivity. Qed.

Lemma run_emit (P : Platform) (e : event) (st : State P) :
  emit e st = (Ok tt, logged st [e]).
Proof. reflexivity. Qed.

Lemma run_int (P : Platform) (s : string) (n : Z) (st : State P) :
  int_of_str P s = Some n -> @int P s st = (Ok n, st).
Proof. intros H. unfold int. now rewrite H. Qed.

Lemma run_connect (P : Platform) (path : string) (con : Database) (st : State P) :
  connect P path = SqlOk con ->
  @sqlite3_connect P path st = (Ok con, logged st [EvConnect path]).
Proof. intros H. unfold sqlite3_connect. rewrite run_bind, run_emit, H. reflexivity. Qed.

Lemma run_execute (P : Platform) (con : Database) (q : query) (a : answer q) (st : State P) :
  con q = SqlOk a -> execute con q st = (Ok a, logged st [EvQuery q]).
Proof. intros H. unfold execute. rewrite run_bind, run_emit, H. reflexivity. Qed.

Lemma run_get_series_issues_info (P : Platform) (series_id : string) (st : State P) :
  cvc_get_series_issues_info series_id st
  = (Ok (get_series_issues_info P series_id talker_id (cache st)),
     logged st [EvCacheGetSeriesIssues series_id]).
Proof. reflexivity. Qed.

Lemma run_add_issues_info (P : Platform) (issues : list CCIssue) (complete : bool)
    (st : State P) :
  cvc_add_issues_info issues complete st
  = (Ok tt,
     with_cache (logged st [EvCacheAddIssues issues complete])
       (add_issues_info P talker_id issues complete (cache st))).
Proof. reflexivity. Qed.

Lemma try_sqlite_ok (P : Platform) (A : Type) (body : M P A) (a : A) (st st' : State P) :
  body st = (Ok a, st') -> try_sqlite body st = (Ok a, st').
Proof. intros H. unfold try_sqlite. now rewrite H. Qed.

Lemma int_eq_true (n : nat) (v : sqlval) :
  int_eq n v = true <-> v = VInt (Z.of_nat n).
Proof.
  destruct v as [|c|s]; cbn; try (split; [discriminate | congruence]).
  rewrite Z.eqb_eq. split; congruence.
Qed.

Lemma run_get_issue_info (P : Platform) (issue_id : sqlval) (st : State P) :
  cvc_get_issue_info issue_id st
  = (Ok (get_issue_info P issue_id talker_id (cache st)), logged st [EvCacheGetIssue issue_id]).
Proof. reflexivity. Qed.

Lemma run_check_create_index_known (P : Platform) (self : Talker) (st : State P) :
  has_issue_id_type_id_index st = true -> check_create_index self st = (Ok tt, st).
Proof. intros H. unfold check_create_index. rewrite run_bind. cbn. now rewrite H. Qed.

Lemma run_get_series_info (P : Platform) (series_id : string) (st : State P) :
  cvc_get_series_info series_id st
  = (Ok (get_series_info P series_id talker_id (cache st)),
     logged st [EvCacheGetSeries series_id]).
Proof. reflexivity. Qed.

Lemma mapM_lift (P : Platform) (A B : Type) (f : A -> result B) (l : list A) (st : State P) :
  mapM (fun x => lift (f x)) l st = (traverse f l, st).
Proof.
  revert st. induction l as [|x l IH]; intros st; [reflexivity|].
  cbn [mapM traverse]. unfold bind, lift at 1.
  destruct (f x); cbn [bind_result]; [|reflexivity].
  rewrite IH. destruct (traverse f l); reflexivity.
Qed.

(* ===================================================================== *)
(** * Entry point without an issue to look up *)
(* ===================================================================== *)

(** With an empty database path [fetch_comic_data] raises the
    configuration error before anything else happens. *)
Lemma fetch_comic_data_unconfigured (P : Platform) (self : Talker)
    (issue_id series_id : option string) (issue_number : string) (st : State P) :
  db_file self = "" ->
  fetch_comic_data self issue_id series_id issue_number st
  = (Raise (TalkerDataError talker_name 3
              "Database path is empty, specify a path and filename!"), st).
Proof.
  intros H. unfold fetch_comic_data, bind, check_db_filename_not_empty.
  rewrite H. reflexivity.
Qed.

(** C10.  When [issue_id] is absent and [series_id] and [issue_number] are
    not both given, [fetch_comic_data] leaves the state as it found it: no
    statement is executed, no cache call and no request is made.  What it
    returns is decided by the configuration check alone: the empty metadata
    record when a database path is configured, the configuration error
    otherwise. *)
Theorem fetch_comic_data_nothing_to_fetch (P : Platform) (self : Talker)
    (issue_id series_id : option string) (issue_number : string) (st : State P) :
  truthy_opt issue_id = false ->
  Py.nonempty issue_number && truthy_opt series_id = false ->
  snd (fetch_comic_data self issue_id series_id issue_number st) = st /\
  (db_file self <> "" ->
   fst (fetch_comic_data self issue_id series_id issue_number st) = Ok empty_metadata) /\
  (db_file self = "" ->
   fst (fetch_comic_data self issue_id series_id issue_number st)
   = Raise (TalkerDataError talker_name 3
              "Database path is empty, specify a path and filename!")).
Proof.
  intros Hid Hpair.
  unfold fetch_comic_data, bind, check_db_filename_not_empty.
  rewrite Hid, Hpair.
  destruct (db_file self) as [|c s]; cbn; repeat split; congruence.
Qed.

Lemma fetch_comic_data_nothing_to_fetch_witness :
  snd (fetch_comic_data Demo.talker None (Some "3") "" (Demo.state_with Demo.empty_store))
  = Demo.state_with Demo.empty_store /\
  fst (fetch_comic_data Demo.talker None (Some "3") "" (Demo.state_with Demo.empty_store))
  = Ok empty_metadata.
Proof.
  destruct (@fetch_comic_data_nothing_to_fetch Demo.platform Demo.talker None (Some "3") ""
              (Demo.state_with Demo.empty_store) eq_refl eq_refl) as [Hst [Hok _]].
  split; [exact Hst | apply Hok; discriminate].
Defined.

(* ===================================================================== *)
(** * Cover images *)
(* ===================================================================== *)

Lemma split_go_nonempty (sep s : string) : forall skip, Py.split_go sep skip s <> [].
Proof.
  induction s as [|c s IH]; intros skip; cbn [Py.split_go]; [discriminate|].
  destruct skip; [|apply IH].
  destruct (prefix sep (String c s)); [discriminate|].
  destruct (Py.split_go sep 0 s); discriminate.
Qed.

Lemma strip_query_stripped (url : string) : stripped url (strip_query url).
Proof.
  unfold strip_query, Py.split.
  induction url as [|c url IH].
  - split; [reflexivity | now left].
  - cbn [Py.split_go]. rewrite prefix_cons, prefix_nil, andb_true_r.
    destruct (Ascii.eqb_spec "?"%char c) as [<-|ne].
    + split; [reflexivity|]. right. exists url. reflexivity.
    + destruct (Py.split_go "?" 0 url) as [|piece rest] eqn:E.
      * now apply split_go_nonempty in E.
      * destruct IH as [Hfree Hurl]. split.
        -- cbn [occurs]. rewrite prefix_cons, prefix_nil, andb_true_r, Hfree.
           apply Ascii.eqb_neq in ne. now rewrite ne.
        -- destruct Hurl as [->|[suffix ->]]; [now left|].
           right. exists suffix. reflexivity.
Qed.

Lemma images_loop_step (i : nat) (url : string) (rest : list (option string))
    (cover : string) (variants : list string) :
  images_loop i (Some url :: rest) cover variants
  = if Nat.eqb i 0 then images_loop (S i) rest (strip_query url) variants
    else images_loop (S i) rest cover (variants ++ [strip_query url]).
Proof.
  cbn [images_loop]. unfold strip_query.
  destruct (Py.split "?" url) eqn:E; [|reflexivity].
  now apply split_go_nonempty in E.
Qed.

(** After the first image every further one is appended to the
    variants. *)
Lemma images_loop_variants (urls : list string) :
  forall (i : nat) (cover : string) (variants : list string),
    images_loop (S i) (map Some urls) cover variants
    = Ok (cover, variants ++ map strip_query urls).
Proof.
  induction urls as [|url urls IH]; intros i cover variants.
  - cbn. now rewrite app_nil_r.
  - cbn [map]. rewrite images_loop_step. cbn [Nat.eqb].
    rewrite IH, <- app_assoc. reflexivity.
Qed.

Lemma images_loop_first (urls : list string) :
  images_loop 0 (map Some urls) "" []
  = Ok (hd "" (map strip_query urls), tl (map strip_query urls)).
Proof.
  destruct urls as [|url urls]; [reflexivity|].
  cbn [map]. rewrite images_loop_step. cbn [Nat.eqb].
  now rewrite images_loop_variants.
Qed.

(** C5.  On a fetched cover page whose cover-class images all carry a
    [src], the resolver takes the images in document order, cuts each URL
    off at its first ["?"], returns the first cut URL as the cover and the
    others, in order, as the variants; a page without such images gives the
    cover [""] and no variants, and raises nothing. *)
Theorem find_issue_images_first_and_rest (P : Platform) (issue_id : sqlval)
    (st : State P) (covers_html : string) (urls : list string) :
  http_get P (website ++ "/issue/" ++ py_str issue_id ++ "/cover/4") = HttpOk covers_html ->
  find_cover_imgs P covers_html = map Some urls ->
  fst (_find_issue_images issue_id st)
  = Ok (hd "" (map strip_query urls), tl (map strip_query urls)) /\
  Forall (fun url => stripped url (strip_query url)) urls /\
  (urls = [] -> fst (_find_issue_images issue_id st) = Ok ("", [])).
Proof.
  intros Hget Himgs.
  assert (Hrun : fst (_find_issue_images issue_id st)
                 = Ok (hd "" (map strip_query urls), tl (map strip_query urls))).
  { unfold _find_issue_images, bind, emit. cbn [fst snd]. rewrite Hget.
    unfold lift. cbn [fst]. rewrite Himgs. apply images_loop_first. }
  split; [exact Hrun|]. split.
  - apply Forall_forall. intros url _. apply strip_query_stripped.
  - intros ->. exact Hrun.
Qed.

(** Three covers with the suffixes [?1], [?2], [?3]. *)
Lemma find_issue_images_first_and_rest_witness :
  fst (_find_issue_images (VInt 7) (Demo.state_with Demo.empty_store))
  = Ok ("https://files1.comics.org/img/a.jpg",
        ["https://files1.comics.org/img/b.jpg"; "https://files1.comics.org/img/c.jpg"]).
Proof.
  exact (proj1 (@find_issue_images_first_and_rest Demo.platform (VInt 7)
                  (Demo.state_with Demo.empty_store) Demo.cover_page
                  ["https://files1.comics.org/img/a.jpg?1";
                   "https://files1.comics.org/img/b.jpg?2";
                   "https://files1.comics.org/img/c.jpg?3"]
                  eq_refl eq_refl)).
Defined.

(** Without a [src] on an image the resolver raises [AttributeError]. *)
Example images_loop_without_src :
  images_loop 0 [Some "a.jpg?1"; None] "" [] = Raise AttributeError.
Proof. reflexivity. Qed.

(* ===================================================================== *)
(** * Credits *)
(* ===================================================================== *)

(** Appending one record at a time is mapping and appending once. *)
Lemma fold_left_append (A B : Type) (f : A -> B) (rows : list A) :
  forall acc : list B,
    fold_left (fun acc record => acc ++ [f record]) rows acc = acc ++ map f rows.
Proof.
  induction rows as [|r rows IH]; intros acc; cbn.
  - now rewrite app_nil_r.
  - rewrite IH, <- app_assoc. reflexivity.
Qed.

(** The story loop appends, story by story, what each query returns. *)
Lemma story_credits_loop_appends (P : Platform) (con : Database)
    (srows : string -> list (sqlval * sqlval)) (story_id_list : list string) :
  (forall story_id, In story_id story_id_list ->
     exists n, int_of_str P story_id = Some n /\ con (QStoryCredits n) = SqlOk (srows story_id)) ->
  forall (credit_results : list GCDCredit) (st : State P),
    fst (story_credits_loop con story_id_list credit_results st)
    = Ok (credit_results
          ++ flat_map (fun story_id => story_level_credits (srows story_id)) story_id_list).
Proof.
  induction story_id_list as [|story_id rest IH]; intros Hall credit_results st.
  - cbn. now rewrite app_nil_r.
  - destruct (Hall story_id (or_introl eq_refl)) as [n [Hint Hq]].
    cbn [story_credits_loop flat_map].
    unfold bind at 1. unfold int. rewrite Hint. unfold ret at 1.
    unfold bind at 1. unfold execute, bind at 1, emit. rewrite Hq. cbn [raise_sql]. unfold ret at 1.
    rewrite IH by (intros s Hs; apply Hall; now right).
    rewrite fold_left_append, <- app_assoc. reflexivity.
Qed.

(** C1.  When the issue-level query and the query of every story id
    succeed, the credit list is the issue-level credits, in query order,
    followed by the credits of each story, taken in the order of the
    story-id list; nothing is dropped or merged, so the lengths add up, and
    an empty story-id list leaves the issue-level credits alone. *)
Theorem find_issue_credits_concatenates (P : Platform) (self : Talker)
    (issue_id : sqlval) (story_id_list : list string) (st : State P)
    (con : Database) (irows : list (sqlval * sqlval))
    (srows : string -> list (sqlval * sqlval)) :
  connect P (db_file self) = SqlOk con ->
  con (QIssueCredits issue_id) = SqlOk irows ->
  (forall story_id, In story_id story_id_list ->
     exists n, int_of_str P story_id = Some n /\ con (QStoryCredits n) = SqlOk (srows story_id)) ->
  exists credits,
    fst (_find_issue_credits self issue_id story_id_list st) = Ok credits /\
    credits = issue_level_credits irows
              ++ flat_map (fun story_id => story_level_credits (srows story_id)) story_id_list /\
    List.length credits
    = List.length irows
      + list_sum (map (fun story_id => List.length (srows story_id)) story_id_list) /\
    (story_id_list = [] -> credits = issue_level_credits irows).
Proof.
  intros Hcon Hq Hall.
  eexists. split; [|split; [reflexivity|split]].
  - unfold _find_issue_credits, try_sqlite.
    unfold bind at 1. unfold sqlite3_connect, bind at 1, emit. rewrite Hcon.
    cbn [raise_sql]. unfold ret at 1.
    unfold bind at 1. unfold execute, bind at 1, emit. rewrite Hq. cbn [raise_sql]. unfold ret at 1.
    match goal with
    | |- context [story_credits_loop ?c ?l ?acc ?s] =>
        pose proof (@story_credits_loop_appends P c srows l Hall acc s) as Hloop;
        destruct (story_credits_loop c l acc s) as [[credits|e] st'] eqn:E
    end.
    + cbn [fst] in *. rewrite Hloop, fold_left_append. reflexivity.
    + cbn [fst] in Hloop. discriminate.
  - rewrite length_app. unfold issue_level_credits. rewrite length_map. f_equal.
    clear. induction story_id_list as [|s l IH]; [reflexivity|].
    cbn [flat_map map list_sum]. rewrite length_app, IH.
    unfold story_level_credits. now rewrite length_map.
  - intros ->. cbn. now rewrite app_nil_r.
Qed.

(** Issue 7 of the sample database: one issue-level credit, then the
    credits of stories 70 and 71; Bob Kane's pencils appear twice. *)
Lemma find_issue_credits_concatenates_witness :
  exists credits,
    fst (_find_issue_credits Demo.talker (VInt 7) ["70"; "71"]
           (Demo.state_with Demo.empty_store)) = Ok credits /\
    credits = [{| name := VText "Whitney Ellsworth"; gcd_role := VText "editor" |};
               {| name := VText "Bob Kane"; gcd_role := VText "pencils" |};
               {| name := VText "Bill Finger"; gcd_role := VText "script" |};
               {| name := VText "Bob Kane"; gcd_role := VText "pencils" |}] /\
    List.length credits = 4.
Proof.
  destruct (@find_issue_credits_concatenates Demo.platform Demo.talker (VInt 7)
              ["70"; "71"] (Demo.state_with Demo.empty_store) Demo.db
              [(VText "editor", VText "Whitney Ellsworth")]
              (fun story_id =>
                 if String.eqb story_id "70" then [(VText "Bob Kane", VText "pencils")]
                 else [(VText "Bill Finger", VText "script"); (VText "Bob Kane", VText "pencils")])
              eq_refl eq_refl) as [credits [Hrun [Heq [Hlen _]]]].
  - intros story_id [<-|[<-|[]]]; [exists 70%Z | exists 71%Z]; split; reflexivity.
  - exists credits. split; [exact Hrun|]. split; [exact Heq | exact Hlen].
Defined.

(* ===================================================================== *)
(** * Cached payloads that do not decode *)
(* ===================================================================== *)

(** C6, as amended.  A cached series or issue entry that is flagged
    complete and whose payload fails to decode makes the fetch raise the
    decoding error to its caller; the fetch stops there, after opening the
    cache and reading the entry, without connecting to the database or
    executing a statement. *)
Theorem cached_payload_decode_failure_propagates (P : Platform) (self : Talker)
    (st : State P) :
  (forall (series_id : sqlval) (entry : CCSeries),
      get_series_info P (py_str series_id) talker_id (cache st) = Some (entry, true) ->
      json_loads_series P (ccs_data entry) = None ->
      _fetch_series_data self series_id st
      = (Raise JSONDecodeError,
         logged st [EvCacheOpen; EvCacheGetSeries (py_str series_id)])) /\
  (forall (issue_id : sqlval) (entry : CCIssue),
      get_issue_info P issue_id talker_id (cache st) = Some (entry, true) ->
      json_loads_issue P (cci_data entry) = None ->
      _fetch_issue_by_issue_id self issue_id st
      = (Raise JSONDecodeError,
         logged st [EvCacheOpen; EvCacheGetIssue issue_id])).
Proof.
  split.
  - intros series_id entry Hget Hbad.
    unfold _fetch_series_data, ComicCacher.
    rewrite run_bind, run_emit, run_bind, run_get_series_info.
    cbn [logged cache]. rewrite Hget. unfold json_loads. rewrite Hbad.
    unfold raise, logged. cbn. now rewrite <- app_assoc.
  - intros issue_id entry Hget Hbad.
    unfold _fetch_issue_by_issue_id, ComicCacher.
    rewrite run_bind, run_emit, run_bind, run_get_issue_info.
    cbn [logged cache]. rewrite Hget. unfold json_loads. rewrite Hbad.
    unfold raise, logged. cbn. now rewrite <- app_assoc.
Qed.

Lemma cached_payload_decode_failure_propagates_witness :
  _fetch_series_data Demo.talker (VInt 3) (Demo.state_with Demo.broken_series)
  = (Raise JSONDecodeError,
     logged (Demo.state_with Demo.broken_series) [EvCacheOpen; EvCacheGetSeries "3"]) /\
  _fetch_issue_by_issue_id Demo.talker (VInt 7) (Demo.state_with Demo.broken_issue)
  = (Raise JSONDecodeError,
     logged (Demo.state_with Demo.broken_issue) [EvCacheOpen; EvCacheGetIssue (VInt 7)]).
Proof.
  destruct (@cached_payload_decode_failure_propagates Demo.platform Demo.talker
              (Demo.state_with Demo.broken_series)) as [Hseries _].
  destruct (@cached_payload_decode_failure_propagates Demo.platform Demo.talker
              (Demo.state_with Demo.broken_issue)) as [_ Hissue].
  split.
  - exact (Hseries (VInt 3) _ eq_refl eq_refl).
  - exact (Hissue (VInt 7) _ eq_refl eq_refl).
Defined.

(** C6, as stated, fails.  Series 3 is in the database, and with an empty
    cache the fetch resolves it from there; with a complete-flagged entry
    whose payload is cut short the same fetch raises [JSONDecodeError],
    which is none of the talker's typed errors, and never reaches the
    database. *)
Lemma cached_payload_decode_failure_counterexample :
  let miss := _fetch_series_data Demo.talker (VInt 3) (Demo.state_with Demo.empty_store) in
  let broken := _fetch_series_data Demo.talker (VInt 3) (Demo.state_with Demo.broken_series) in
  fst miss = Ok (Demo.series_of_row (Demo.series_row 3 10)) /\
  existsb is_query (log (snd miss)) = true /\
  fst broken = Raise JSONDecodeError /\
  typed_error JSONDecodeError = false /\
  existsb is_query (log (snd broken)) = false.
Proof. cbv zeta. repeat split; vm_compute; reflexivity. Qed.

(* ===================================================================== *)
(** * An issue that does not exist *)
(* ===================================================================== *)

(** C7.  Issue 999 is in neither query shape, and series 3 has no issue
    numbered 99.  Looking up the first leaves [issue_result] unbound and
    raises [UnboundLocalError]; looking up the second subscripts the [None]
    that [fetchone()] returned and raises [TypeError].  Neither is a typed
    error, and neither call returns the empty record. *)
Theorem fetch_comic_data_missing_issue :
  let by_id :=
    fetch_comic_data Demo.talker (Some "999") None "" (Demo.state_with Demo.empty_store) in
  let by_number :=
    fetch_comic_data Demo.talker None (Some "3") "99" (Demo.state_with Demo.empty_store) in
  Demo.db (QIssueWithStories (VInt 999)) = SqlOk None /\
  Demo.db (QIssue (VInt 999)) = SqlOk None /\
  fst by_id = Raise (UnboundLocalError "issue_result") /\
  typed_error (UnboundLocalError "issue_result") = false /\
  Demo.db (QIssueId 3 "99") = SqlOk None /\
  fst by_number = Raise TypeError /\
  typed_error TypeError = false.
Proof. cbv zeta. repeat split; vm_compute; reflexivity. Qed.

(** An issue that exists resolves. *)
Example fetch_comic_data_existing_issue :
  exists md,
    fst (fetch_comic_data Demo.talker (Some "7") None "" (Demo.state_with Demo.empty_store))
    = Ok md /\
    md_issue_id md = Some "7" /\
    md_title md = VText "Part One; Part Two" /\
    List.length (md_credits md) = 4.
Proof. eexists. split; [vm_compute; reflexivity|]. repeat split. Qed.

(* ===================================================================== *)
(** * The cache gate of the issue list *)
(* ===================================================================== *)

(** Decoding the cached entries touches nothing. *)
Lemma mapM_decode_cached (P : Platform) (self : Talker) (series : GCDSeries)
    (cached : list (CCIssue * bool)) (st : State P) :
  mapM (fun x =>
          bind (json_loads (P := P) (json_loads_issue P) (cci_data (fst x)))
               (fun issue => lift (_map_comic_issue_to_metadata P self issue series)))
       cached st
  = (decode_cached P self series cached, st).
Proof.
  unfold decode_cached.
  revert st. induction cached as [|x cached IH]; intros st; [reflexivity|].
  cbn [mapM traverse]. rewrite run_bind, run_bind. unfold json_loads at 1.
  destruct (json_loads_issue P (cci_data (fst x))) as [issue|]; [|reflexivity].
  unfold ret at 1, lift at 1.
  destruct (_map_comic_issue_to_metadata P self issue series); cbn [bind_result];
    [|reflexivity].
  rewrite run_bind, IH.
  destruct (traverse _ cached); reflexivity.
Qed.

(** The gate relative to the series record: [fetch_issues_in_series]
    reads the cached issue list of the series, then looks the series up,
    and compares the number of cached entries with the issue count of the
    record it got.  When the two are equal it returns the cached entries,
    decoded and normalized one by one, and does nothing further.  When
    they differ it makes no use of the cached entries: with a database
    that answers, it executes the issue query of the series (and the
    fallback query when that returns no rows), writes every fresh issue to
    the cache in one [add_issues_info] call and returns the fresh issues
    normalized. *)
Lemma fetch_issues_in_series_gate_on_record (P : Platform) (self : Talker)
    (series_id : string) (n : Z) (st : State P) (series : GCDSeries) :
  int_of_str P series_id = Some n ->
  let st0 := logged st [EvCacheOpen; EvCacheGetSeriesIssues series_id] in
  fst (_fetch_series_data self (VInt n) st0) = Ok series ->
  let st1 := snd (_fetch_series_data self (VInt n) st0) in
  let cached := get_series_issues_info P series_id talker_id (cache st) in
  (s_count_of_issues series = VInt (Z.of_nat (List.length cached)) ->
   fetch_issues_in_series self series_id st = (decode_cached P self series cached, st1)) /\
  (s_count_of_issues series <> VInt (Z.of_nat (List.length cached)) ->
   forall (con : Database) (with_stories without_stories : list row)
          (results : list GCDIssue) (series' : GCDSeries),
     fst (check_create_index self st1) = Ok tt ->
     let st2 := snd (check_create_index self st1) in
     connect P (db_file self) = SqlOk con ->
     con (QSeriesIssuesWithStories n) = SqlOk with_stories ->
     (with_stories = [] -> con (QSeriesIssues n) = SqlOk without_stories) ->
     let rows := match with_stories with [] => without_stories | _ => with_stories end in
     let queries :=
       EvConnect (db_file self) :: EvQuery (QSeriesIssuesWithStories n)
       :: match with_stories with [] => [EvQuery (QSeriesIssues n)] | _ => [] end in
     traverse (fun record => _format_gcd_issue record false) rows = Ok results ->
     fst (_fetch_series_data self (VInt n) (logged st2 queries)) = Ok series' ->
     let st4 := snd (_fetch_series_data self (VInt n) (logged st2 queries)) in
     let fresh := map (CCIssue_of P series_id) results in
     fetch_issues_in_series self series_id st
     = (traverse (fun x => _map_comic_issue_to_metadata P self x series') results,
        with_cache (logged st4 [EvCacheAddIssues fresh false])
          (add_issues_info P talker_id fresh false (cache st4)))).
Proof.
  intros Hint st0 Hseries st1 cached.
  apply pair_of_fst in Hseries. fold st1 in Hseries. subst st0.
  split.
  - intros Hcount.
    unfold fetch_issues_in_series.
    rewrite run_bind. unfold ComicCacher. rewrite run_emit.
    rewrite run_bind, run_get_series_issues_info.
    rewrite run_bind, (run_int _ _ Hint).
    rewrite logged_logged. cbn [app].
    rewrite run_bind, Hseries.
    cbn [logged cache].
    fold cached. apply int_eq_true in Hcount. rewrite Hcount.
    apply mapM_decode_cached.
  - intros Hcount con with_stories without_stories results series'
      Hindex st2 Hcon Hq1 Hq2 rows queries Hformat Hseries' st4 fresh.
    apply pair_of_fst in Hindex. fold st2 in Hindex.
    apply pair_of_fst in Hseries'. fold st4 in Hseries'.
    unfold fetch_issues_in_series.
    rewrite run_bind. unfold ComicCacher. rewrite run_emit.
    rewrite run_bind, run_get_series_issues_info.
    rewrite run_bind, (run_int _ _ Hint).
    rewrite logged_logged. cbn [app].
    rewrite run_bind, Hseries.
    cbn [logged cache].
    fold cached.
    destruct (int_eq (List.length cached) (s_count_of_issues series)) eqn:E;
      [apply int_eq_true in E; contradiction|].
    rewrite run_bind, Hindex.
    rewrite run_bind.
    match goal with
    | |- context [try_sqlite ?b st2] =>
        assert (Hbody : b st2 = (Ok results, logged st2 queries))
    end.
    { rewrite run_bind, (run_connect _ _ Hcon).
      rewrite run_bind, (run_int _ _ Hint).
      rewrite run_bind, (@run_execute P con (QSeriesIssuesWithStories n) with_stories _ Hq1).
      subst rows queries. destruct with_stories as [|record more].
      - rewrite run_bind, (run_int _ _ Hint).
        rewrite run_bind, (@run_execute P con (QSeriesIssues n) without_stories _ (Hq2 eq_refl)).
        rewrite mapM_lift, Hformat, !logged_logged. reflexivity.
      - rewrite mapM_lift, Hformat, !logged_logged. reflexivity. }
    rewrite (@try_sqlite_ok _ _ _ _ _ _ Hbody).
    rewrite run_bind, (run_int _ _ Hint).
    rewrite run_bind, Hseries'.
    rewrite run_bind, run_add_issues_info.
    apply mapM_lift.
Qed.

(** What the two runs leave behind. *)
Example fetch_issues_in_series_runs :
  let hit := fetch_issues_in_series Demo.talker "4" (Demo.state_with Demo.two_of_two) in
  let miss := fetch_issues_in_series Demo.talker "3" (Demo.state_with Demo.nine_of_ten) in
  existsb (fun e => match e with
                    | EvQuery (QSeriesIssuesWithStories _) | EvQuery (QSeriesIssues _)
                    | EvCacheAddIssues _ _ => true
                    | _ => false
                    end) (log (snd hit)) = false /\
  In (EvQuery (QSeriesIssuesWithStories 3)) (log (snd miss)) /\
  List.length (get_series_issues_info Demo.platform "3" talker_id (cache (snd miss))) = 10.
Proof.
  cbv zeta. split; [vm_compute; reflexivity|]. split.
  - vm_compute. auto 20.
  - vm_compute. reflexivity.
Qed.

(* ===================================================================== *)
(** * An issue that does not exist, in any database *)
(* ===================================================================== *)

(** Whenever the cache has no complete entry for the issue and neither
    query shape returns a row, [_fetch_issue_by_issue_id] raises
    [UnboundLocalError]. *)
Lemma fetch_issue_by_issue_id_no_row (P : Platform) (self : Talker) (issue_id : sqlval)
    (st : State P) (con : Database) :
  (forall entry, get_issue_info P issue_id talker_id (cache st) <> Some (entry, true)) ->
  has_issue_id_type_id_index st = true ->
  connect P (db_file self) = SqlOk con ->
  con (QIssueWithStories issue_id) = SqlOk None ->
  con (QIssue issue_id) = SqlOk None ->
  fst (_fetch_issue_by_issue_id self issue_id st) = Raise (UnboundLocalError "issue_result").
Proof.
  intros Hmiss Hindex Hcon Hq1 Hq2.
  assert (Hbody :
    forall st',
      try_sqlite
        (bind (@sqlite3_connect P (db_file self)) (fun con0 =>
         bind (execute con0 (QIssueWithStories issue_id)) (fun fetched =>
         match (fetched : option row) with
         | Some record =>
             bind (lift (_format_gcd_issue record true)) (fun issue_result =>
             ret (Some issue_result))
         | None =>
             bind (execute con0 (QIssue issue_id)) (fun fetched0 =>
             match (fetched0 : option row) with
             | Some record =>
                 bind (lift (_format_gcd_issue record true)) (fun issue_result =>
                 ret (Some issue_result))
             | None => ret None
             end)
         end))) st'
      = (Ok None,
         logged st' [EvConnect (db_file self); EvQuery (QIssueWithStories issue_id);
                     EvQuery (QIssue issue_id)])).
  { intros st'. apply try_sqlite_ok.
    rewrite run_bind, (run_connect _ _ Hcon).
    rewrite run_bind, (@run_execute P con (QIssueWithStories issue_id) None _ Hq1).
    rewrite run_bind, (@run_execute P con (QIssue issue_id) None _ Hq2).
    rewrite !logged_logged. reflexivity. }
  unfold _fetch_issue_by_issue_id.
  rewrite run_bind. unfold ComicCacher. rewrite run_emit.
  rewrite run_bind, run_get_issue_info. cbn [logged cache].
  destruct (get_issue_info P issue_id talker_id (cache st)) as [[entry [|]]|] eqn:E;
    [now elim (Hmiss entry) | |].
  all: rewrite run_bind, run_check_create_index_known by exact Hindex.
  all: rewrite run_bind, Hbody.
  all: reflexivity.
Qed.

(* ===================================================================== *)
(** * Where the configuration error can come from *)
(* ===================================================================== *)

Lemma nce_in_ok (A : Type) (a : A) : never_config_error_in (Ok a).
Proof. intros e H. discriminate. Qed.

Lemma nce_in_bind (A B : Type) (r : result A) (k : A -> result B) :
  never_config_error_in r ->
  (forall a, never_config_error_in (k a)) ->
  never_config_error_in (bind_result r k).
Proof.
  intros Hr Hk e H. destruct r as [a|e']; cbn in H.
  - exact (Hk a e H).
  - apply Hr. congruence.
Qed.

Lemma nce_in_getitem (k : string) (r : row) : never_config_error_in (getitem k r).
Proof. unfold getitem. intros e H. destruct (lookup k r); now inversion H. Qed.

Lemma nce_in_str_split (sep : string) (v : sqlval) : never_config_error_in (str_split sep v).
Proof. intros e H. destruct v; now inversion H. Qed.

Lemma nce_in_split_if_truthy (sep k : string) (r : row) :
  never_config_error_in (split_if_truthy sep k r).
Proof.
  unfold split_if_truthy. destruct (lookup k r) as [v|]; [|apply nce_in_ok].
  destruct (truthy v); [apply nce_in_str_split | apply nce_in_ok].
Qed.

Lemma nce_in_split_if_not_none (sep k : string) (r : row) :
  never_config_error_in (split_if_not_none sep k r).
Proof.
  unfold split_if_not_none. destruct (lookup k r) as [v|]; [|apply nce_in_ok].
  destruct v; first [apply nce_in_ok | apply nce_in_str_split].
Qed.

Ltac nce_in :=
  repeat first
    [ apply nce_in_ok
    | apply nce_in_getitem
    | apply nce_in_str_split
    | apply nce_in_split_if_truthy
    | apply nce_in_split_if_not_none
    | apply nce_in_bind; [|intros ?]
    | match goal with
      | |- never_config_error_in (if ?b then _ else _) => destruct b
      end ].

(** [_format_gcd_issue] raises nothing but [KeyError] and
    [AttributeError]. *)
Lemma nce_in_format_gcd_issue (r : row) (complete : bool) :
  never_config_error_in (_format_gcd_issue r complete).
Proof. unfold _format_gcd_issue. nce_in. Qed.

Lemma nce_in_map_comic_issue_to_metadata (P : Platform) (self : Talker)
    (issue : GCDIssue) (series : GCDSeries) :
  never_config_error_in (_map_comic_issue_to_metadata P self issue series).
Proof.
  destruct (map_comic_issue_to_metadata_total P self issue series) as [md ->].
  apply nce_in_ok.
Qed.

Lemma nce_in_images_loop (img_list : list (option string)) :
  forall i cover variants, never_config_error_in (images_loop i img_list cover variants).
Proof.
  induction img_list as [|image rest IH]; intros i cover variants; cbn [images_loop].
  - apply nce_in_ok.
  - destruct image as [url|]; [|intros e H; now inversion H].
    destruct (Py.split "?" url); [intros e H; now inversion H|].
    destruct (Nat.eqb i 0); apply IH.
Qed.

Section Never_config_error.

Variable P : Platform.

Lemma nce_ret (A : Type) (a : A) : never_config_error (ret (P := P) a).
Proof. intros st e H. discriminate. Qed.

Lemma nce_raise (A : Type) (e : exn) :
  config_error e = false -> never_config_error (raise (P := P) (A := A) e).
Proof. intros He st e' H. cbn in H. congruence. Qed.

Lemma nce_lift (A : Type) (r : result A) :
  never_config_error_in r -> never_config_error (lift (P := P) r).
Proof. intros Hr st. exact Hr. Qed.

Lemma nce_bind (A B : Type) (m : M P A) (k : A -> M P B) :
  never_config_error m ->
  (forall a, never_config_error (k a)) ->
  never_config_error (bind m k).
Proof.
  intros Hm Hk st e H. unfold bind in H. specialize (Hm st).
  destruct (m st) as [[a|e'] st'].
  - exact (Hk a st' e H).
  - apply Hm. cbn in *. congruence.
Qed.

Lemma nce_try_sqlite (A : Type) (body : M P A) :
  never_config_error body -> never_config_error (try_sqlite body).
Proof.
  intros Hb st e H. unfold try_sqlite in H. specialize (Hb st).
  destruct (body st) as [[a|e'] st']; [discriminate|].
  destruct e'; cbn in H; inversion H; subst; try reflexivity; now apply Hb.
Qed.

Lemma nce_mapM (A B : Type) (f : A -> M P B) (l : list A) :
  (forall x, never_config_error (f x)) -> never_config_error (mapM f l).
Proof.
  intros Hf. induction l as [|x l IH]; cbn [mapM].
  - apply nce_ret.
  - apply nce_bind; [apply Hf|]. intros y.
    apply nce_bind; [apply IH|]. intros ys. apply nce_ret.
Qed.

Lemma nce_emit (e : event) : never_config_error (emit (P := P) e).
Proof. intros st e' H. discriminate. Qed.

Lemma nce_get_state : never_config_error (get_state (P := P)).
Proof. intros st e' H. discriminate. Qed.

Lemma nce_set_cache (c : Cache P) : never_config_error (set_cache c).
Proof. intros st e' H. discriminate. Qed.

Lemma nce_set_has_index (b : bool) : never_config_error (set_has_index (P := P) b).
Proof. intros st e' H. discriminate. Qed.

Lemma nce_raise_sql (A : Type) (r : sql_result A) : never_config_error (raise_sql (P := P) r).
Proof. destruct r; intros st e H; now inversion H. Qed.

Lemma nce_int (s : string) : never_config_error (@int P s).
Proof. unfold int. destruct (int_of_str P s); intros st e H; now inversion H. Qed.

Lemma nce_json_loads (A : Type) (loads : string -> option A) (data : string) :
  never_config_error (json_loads (P := P) loads data).
Proof. unfold json_loads. destruct (loads data); intros st e H; now inversion H. Qed.

Ltac nce :=
  repeat first
    [ apply nce_ret
    | apply nce_emit
    | apply nce_get_state
    | apply nce_set_cache
    | apply nce_set_has_index
    | apply nce_raise_sql
    | apply nce_int
    | apply nce_json_loads
    | apply nce_raise; reflexivity
    | apply nce_try_sqlite
    | apply nce_mapM; intros ?
    | apply nce_lift;
      first [ apply nce_in_format_gcd_issue
            | apply nce_in_map_comic_issue_to_metadata
            | apply nce_in_images_loop ]
    | apply nce_bind; [|intros ?]
    | match goal with
      | |- never_config_error (if ?b then _ else _) => destruct b
      | |- never_config_error (match ?x with _ => _ end) => destruct x
      end ].

Variable self : Talker.

Lemma nce_sqlite3_connect (path : string) : never_config_error (@sqlite3_connect P path).
Proof. unfold sqlite3_connect. nce. Qed.

Lemma nce_execute (con : Database) (q : query) : never_config_error (execute (P := P) con q).
Proof. unfold execute. nce. Qed.

Lemma nce_check_create_index : never_config_error (check_create_index (P := P) self).
Proof.
  unfold check_create_index.
  apply nce_bind; [nce|]. intros st.
  destruct (negb (has_issue_id_type_id_index st)); [|nce].
  apply nce_try_sqlite.
  apply nce_bind; [apply nce_sqlite3_connect|]. intros con.
  apply nce_bind; [apply nce_execute|]. intros found.
  destruct found; [nce|].
  apply nce_bind; [apply nce_execute|]. intros _. nce.
Qed.

Lemma nce_find_issue_images (issue_id : sqlval) :
  never_config_error (_find_issue_images (P := P) issue_id).
Proof. unfold _find_issue_images. nce. Qed.

Lemma nce_find_series_image (series_id : sqlval) :
  never_config_error (_find_series_image (P := P) self series_id).
Proof.
  unfold _find_series_image.
  apply nce_bind.
  - apply nce_try_sqlite.
    apply nce_bind; [apply nce_sqlite3_connect|]. intros con.
    apply nce_bind; [apply nce_execute|]. intros r.
    destruct r; nce.
  - intros issue_id. destruct (truthy issue_id); [|nce].
    apply nce_bind; [apply nce_find_issue_images|]. intros r. nce.
Qed.

Lemma nce_fetch_series_data (series_id : sqlval) :
  never_config_error (_fetch_series_data (P := P) self series_id).
Proof.
  unfold _fetch_series_data, ComicCacher, cvc_get_series_info, cvc_add_series_info.
  apply nce_bind; [nce|]. intros _.
  apply nce_bind; [nce|]. intros cached_series.
  assert (Hcover : never_config_error
            (if download_gui_covers self
             then bind (_find_series_image (P := P) self series_id) (fun image => ret (image, true))
             else ret (""%string, false))).
  { destruct (download_gui_covers self); [|nce].
    apply nce_bind; [apply nce_find_series_image|]. intros image. nce. }
  destruct cached_series as [[entry [|]]|]; [nce | |].
  all: apply nce_bind; [|intros result; nce].
  all: apply nce_try_sqlite.
  all: apply nce_bind; [apply nce_sqlite3_connect|]; intros con.
  all: apply nce_bind; [apply nce_execute|]; intros fetched.
  all: apply nce_bind; [exact Hcover|]; intros cover.
  all: destruct fetched; nce.
Qed.

(** Whatever the database path, the cache and the database hold,
    [fetch_issues_in_series] never raises the configuration error: nothing
    on its way makes the check. *)
Lemma nce_fetch_issues_in_series (series_id : string) :
  never_config_error (fetch_issues_in_series (P := P) self series_id).
Proof.
  unfold fetch_issues_in_series, ComicCacher, cvc_get_series_issues_info, cvc_add_issues_info.
  apply nce_bind; [nce|]. intros _.
  apply nce_bind; [nce|]. intros cached.
  apply nce_bind; [nce|]. intros n.
  apply nce_bind; [apply nce_fetch_series_data|]. intros series.
  destruct (int_eq _ _).
  - apply nce_mapM. intros x. nce.
  - apply nce_bind; [apply nce_check_create_index|]. intros _.
    apply nce_bind.
    + apply nce_try_sqlite.
      apply nce_bind; [apply nce_sqlite3_connect|]. intros con.
      apply nce_bind; [nce|]. intros n'.
      apply nce_bind; [apply nce_execute|]. intros rows.
      destruct rows.
      * apply nce_bind; [nce|]. intros n''.
        apply nce_bind; [apply nce_execute|]. intros rows. nce.
      * nce.
    + intros results.
      apply nce_bind; [nce|]. intros n'.
      apply nce_bind; [apply nce_fetch_series_data|]. intros series'. nce.
Qed.

End Never_config_error.

(* ===================================================================== *)
(** * The configuration check *)
(* ===================================================================== *)

(** C8.  With an empty database path [fetch_comic_data] raises the
    configuration error, sub-kind 3, before anything is logged.
    [fetch_issues_in_series] does not make the check and in no world
    raises that error: with an empty path and an empty cache it connects,
    executes the series query and raises the generic sub-kind 0; on a cache
    that holds the series and all its issues it returns the cached list. *)
Theorem fetch_issues_in_series_unconfigured :
  let st := Demo.state_with Demo.empty_store in
  let warm :=
    Demo.state_with
      {| Demo.series_tbl := [({| ccs_id := "4"; ccs_data := "4" |}, true)];
         Demo.issues_tbl := Demo.issues_tbl Demo.two_of_two |} in
  (forall (P : Platform) (self : Talker) (series_id : string),
      never_config_error (fetch_issues_in_series (P := P) self series_id)) /\
  db_file Demo.unconfigured = "" /\
  fetch_comic_data Demo.unconfigured (Some "7") None "" st
  = (Raise (TalkerDataError talker_name 3
              "Database path is empty, specify a path and filename!"), st) /\
  fst (fetch_issues_in_series Demo.unconfigured "3" st)
  = Raise (TalkerDataError talker_name 0 "no such table") /\
  In (EvQuery (QSeries (VInt 3))) (log (snd (fetch_issues_in_series Demo.unconfigured "3" st))) /\
  (exists l, fst (fetch_issues_in_series Demo.unconfigured "4" warm) = Ok l /\ List.length l = 2).
Proof.
  cbv zeta. split; [exact nce_fetch_issues_in_series|].
  split; [reflexivity|]. split; [reflexivity|].
  split; [vm_compute; reflexivity|]. split.
  - vm_compute. auto 10.
  - eexists. split; [vm_compute; reflexivity | reflexivity].
Qed.

(** With a path configured and a warm cache the list comes back too. *)
Example fetch_issues_in_series_configured :
  exists l,
    fst (fetch_issues_in_series Demo.talker "4" (Demo.state_with Demo.two_of_two)) = Ok l /\
    List.length l = 2.
Proof. eexists. split; [vm_compute; reflexivity | reflexivity]. Qed.


(* ===================================================================== *)
(** * Every outcome of a connection and of a statement *)
(* ===================================================================== *)

Lemma run_connect_cases (P : Platform) (path : string) (st : State P) :
  @sqlite3_connect P path st
  = match connect P path with
    | SqlOk con => (Ok con, logged st [EvConnect path])
    | SqlDataErr msg => (Raise (SqliteDataError msg), logged st [EvConnect path])
    | SqlErr msg => (Raise (SqliteError msg), logged st [EvConnect path])
    end.
Proof.
  unfold sqlite3_connect. rewrite run_bind, run_emit.
  destruct (connect P path); reflexivity.
Qed.

Lemma run_execute_cases (P : Platform) (con : Database) (q : query) (st : State P) :
  execute con q st
  = match con q with
    | SqlOk a => (Ok a, logged st [EvQuery q])
    | SqlDataErr msg => (Raise (SqliteDataError msg), logged st [EvQuery q])
    | SqlErr msg => (Raise (SqliteError msg), logged st [EvQuery q])
    end.
Proof.
  unfold execute. rewrite run_bind, run_emit.
  destruct (con q); reflexivity.
Qed.

(* ===================================================================== *)
(** * The story index is checked once *)
(* ===================================================================== *)

(** X1.  On a talker that has not yet seen the index, with a database that
    answers, [check_create_index] opens one connection, asks whether the
    index exists and creates it only when it does not; it then remembers
    the index, leaves the cache alone, and a further call does nothing at
    all. *)
Theorem check_create_index_creates_once (P : Platform) (self : Talker)
    (st : State P) (con : Database) (found : bool) :
  has_issue_id_type_id_index st = false ->
  connect P (db_file self) = SqlOk con ->
  con QIndexExists = SqlOk found ->
  (found = false -> con QCreateIndex = SqlOk tt) ->
  let st' := snd (check_create_index self st) in
  fst (check_create_index self st) = Ok tt /\
  has_issue_id_type_id_index st' = true /\
  cache st' = cache st /\
  log st' = log st ++ EvConnect (db_file self) :: EvQuery QIndexExists
                      :: (if found then [] else [EvQuery QCreateIndex]) /\
  check_create_index self st' = (Ok tt, st').
Proof.
  intros Hflag Hcon Hfound Hcreate.
  assert (Hrun : check_create_index self st
                 = (Ok tt,
                    {| cache := cache st;
                       has_issue_id_type_id_index := true;
                       log := log st ++ EvConnect (db_file self) :: EvQuery QIndexExists
                                        :: (if found then [] else [EvQuery QCreateIndex]) |})).
  { unfold check_create_index. rewrite run_bind. unfold get_state at 1.
    rewrite Hflag. cbn [negb].
    apply try_sqlite_ok.
    rewrite run_bind, (run_connect _ _ Hcon).
    rewrite run_bind, (@run_execute P con QIndexExists found _ Hfound).
    destruct found.
    - unfold set_has_index, logged. cbn. now rewrite <- app_assoc.
    - rewrite run_bind, (@run_execute P con QCreateIndex tt _ (Hcreate eq_refl)).
      unfold set_has_index, logged. cbn. now rewrite <- !app_assoc. }
  cbv zeta. rewrite Hrun. cbn [fst snd cache has_issue_id_type_id_index log].
  repeat split.
Qed.

Lemma check_create_index_creates_once_witness :
  let st' := snd (check_create_index Demo.talker (Demo.state_with Demo.empty_store)) in
  fst (check_create_index Demo.talker (Demo.state_with Demo.empty_store)) = Ok tt /\
  has_issue_id_type_id_index st' = true /\
  log st' = [EvConnect "gcd.db"; EvQuery QIndexExists] /\
  check_create_index Demo.talker st' = (Ok tt, st').
Proof.
  destruct (@check_create_index_creates_once Demo.platform Demo.talker
              (Demo.state_with Demo.empty_store) Demo.db true
              eq_refl eq_refl eq_refl) as [Hok [Hflag [_ [Hlog Hagain]]]].
  - discriminate.
  - repeat split; assumption.
Defined.

(** X2.  Whatever goes wrong in [check_create_index] reaches the caller as
    [TalkerDataError] of the talker with sub-kind 0 or 1; the index is then
    not remembered, so the next call checks again. *)
Theorem check_create_index_failure (P : Platform) (self : Talker) (st : State P) (e : exn) :
  fst (check_create_index self st) = Raise e ->
  data_error_0_1 e = true /\
  has_issue_id_type_id_index (snd (check_create_index self st)) = false /\
  cache (snd (check_create_index self st)) = cache st.
Proof.
  intros H. destruct (check_create_index self st) as [r st'] eqn:E.
  cbn [fst snd] in *. subst r.
  unfold check_create_index in E. rewrite run_bind in E. unfold get_state at 1 in E.
  destruct (has_issue_id_type_id_index st) eqn:Hflag; cbn [negb] in E; [discriminate E|].
  unfold try_sqlite in E. rewrite run_bind, run_connect_cases in E.
  destruct (connect P (db_file self)) as [con|msg|msg];
    try (inversion E; subst; cbn; now repeat split).
  rewrite run_bind, run_execute_cases in E.
  destruct (con QIndexExists) as [found|msg|msg];
    try (inversion E; subst; cbn; now repeat split).
  destruct found; [discriminate E|].
  rewrite run_bind, run_execute_cases in E.
  destruct (con QCreateIndex) as [u|msg|msg];
    inversion E; subst; cbn; now repeat split.
Qed.

Lemma check_create_index_failure_witness :
  data_error_0_1 (TalkerDataError talker_name 0 "no such table") = true /\
  has_issue_id_type_id_index
    (snd (check_create_index Demo.unconfigured (Demo.state_with Demo.empty_store))) = false.
Proof.
  destruct (@check_create_index_failure Demo.platform Demo.unconfigured
              (Demo.state_with Demo.empty_store)
              (TalkerDataError talker_name 0 "no such table") eq_refl) as [He [Hflag _]].
  split; assumption.
Defined.

(* ===================================================================== *)
(** * Which exceptions can leave a method *)
(* ===================================================================== *)

Ltac break_tests :=
  repeat match goal with
         | H : context [(?a =? ?b)%Z] |- _ => destruct (a =? b)%Z
         | |- context [(?a =? ?b)%Z] => destruct (a =? b)%Z
         | H : context [String.eqb ?a ?b] |- _ => destruct (String.eqb a b)
         | |- context [String.eqb ?a ?b] => destruct (String.eqb a b)
         end.

(** One set of exceptions is inside another. *)
Ltac inside :=
  let e := fresh "e" in
  let He := fresh "He" in
  intros e He; destruct e;
  unfold fetch_comic_data_errors, fetch_issues_in_series_errors, fetch_series_errors,
    issue_errors, series_errors, credit_errors, image_errors, format_errors,
    data_error_0_1, network_error_0_4, config_error, sqlite_exn, translate_sqlite in *;
  cbn [orb andb] in *;
  break_tests; cbn [orb andb] in *; congruence.

Lemma raises_only_ok (A : Type) (allowed : exn -> bool) (a : A) :
  raises_only allowed (Ok a).
Proof. intros e H. discriminate. Qed.

Lemma raises_only_weaken (A : Type) (small large : exn -> bool) (r : result A) :
  raises_only small r ->
  (forall e, small e = true -> large e = true) ->
  raises_only large r.
Proof. intros Hr Hincl e H. auto. Qed.

Lemma raises_only_bind (A B : Type) (allowed : exn -> bool)
    (r : result A) (k : A -> result B) :
  raises_only allowed r ->
  (forall a, raises_only allowed (k a)) ->
  raises_only allowed (bind_result r k).
Proof.
  intros Hr Hk e H. destruct r as [a|e']; cbn in H.
  - exact (Hk a e H).
  - apply Hr. congruence.
Qed.

Lemma raises_only_getitem (k : string) (r : row) : raises_only format_errors (getitem k r).
Proof. unfold getitem. intros e H. destruct (lookup k r); now inversion H. Qed.

Lemma raises_only_str_split (sep : string) (v : sqlval) :
  raises_only format_errors (str_split sep v).
Proof. intros e H. destruct v; now inversion H. Qed.

Lemma raises_only_split_if_truthy (sep k : string) (r : row) :
  raises_only format_errors (split_if_truthy sep k r).
Proof.
  unfold split_if_truthy. destruct (lookup k r) as [v|]; [|apply raises_only_ok].
  destruct (truthy v); [apply raises_only_str_split | apply raises_only_ok].
Qed.

Lemma raises_only_split_if_not_none (sep k : string) (r : row) :
  raises_only format_errors (split_if_not_none sep k r).
Proof.
  unfold split_if_not_none. destruct (lookup k r) as [v|]; [|apply raises_only_ok].
  destruct v; first [apply raises_only_ok | apply raises_only_str_split].
Qed.

Lemma raises_only_format_gcd_issue (r : row) (complete : bool) :
  raises_only format_errors (_format_gcd_issue r complete).
Proof.
  unfold _format_gcd_issue.
  repeat first
    [ apply raises_only_ok
    | apply raises_only_getitem
    | apply raises_only_str_split
    | apply raises_only_split_if_truthy
    | apply raises_only_split_if_not_none
    | apply raises_only_bind; [|intros ?]
    | match goal with
      | |- raises_only _ (if ?b then _ else _) => destruct b
      end ].
Qed.

Lemma raises_only_map_comic_issue_to_metadata (P : Platform) (self : Talker)
    (allowed : exn -> bool) (issue : GCDIssue) (series : GCDSeries) :
  raises_only allowed (_map_comic_issue_to_metadata P self issue series).
Proof.
  destruct (map_comic_issue_to_metadata_total P self issue series) as [md ->].
  apply raises_only_ok.
Qed.

(** [split("?")[0]] is never out of range, so the image loop can only fail
    on an image without a [src]. *)
Lemma raises_only_images_loop (img_list : list (option string)) :
  forall i cover variants,
    raises_only (fun e => match e with AttributeError => true | _ => false end)
      (images_loop i img_list cover variants).
Proof.
  induction img_list as [|image rest IH]; intros i cover variants; cbn [images_loop].
  - apply raises_only_ok.
  - destruct image as [url|]; [|intros e H; now inversion H].
    destruct (Py.split "?" url) eqn:E; [now apply split_go_nonempty in E|].
    destruct (Nat.eqb i 0); apply IH.
Qed.

Section Raises_only_in.

Variable P : Platform.
Variable allowed : exn -> bool.

Lemma ro_weaken (A : Type) (small : exn -> bool) (m : M P A) :
  raises_only_in small m ->
  (forall e, small e = true -> allowed e = true) ->
  raises_only_in allowed m.
Proof. intros Hm Hincl st e H. apply Hincl. exact (Hm st e H). Qed.

Lemma ro_ret (A : Type) (a : A) : raises_only_in allowed (ret (P := P) a).
Proof. intros st e H. discriminate. Qed.

Lemma ro_raise (A : Type) (e : exn) :
  allowed e = true -> raises_only_in allowed (raise (P := P) (A := A) e).
Proof. intros He st e' H. cbn in H. congruence. Qed.

Lemma ro_lift (A : Type) (r : result A) :
  raises_only allowed r -> raises_only_in allowed (lift (P := P) r).
Proof. intros Hr st. exact Hr. Qed.

Lemma ro_bind (A B : Type) (m : M P A) (k : A -> M P B) :
  raises_only_in allowed m ->
  (forall a, raises_only_in allowed (k a)) ->
  raises_only_in allowed (bind m k).
Proof.
  intros Hm Hk st e H. unfold bind in H. specialize (Hm st).
  destruct (m st) as [[a|e'] st'].
  - exact (Hk a st' e H).
  - apply Hm. cbn in *. congruence.
Qed.

Lemma ro_mapM (A B : Type) (f : A -> M P B) (l : list A) :
  (forall x, raises_only_in allowed (f x)) -> raises_only_in allowed (mapM f l).
Proof.
  intros Hf. induction l as [|x l IH]; cbn [mapM].
  - apply ro_ret.
  - apply ro_bind; [apply Hf|]. intros y.
    apply ro_bind; [apply IH|]. intros ys. apply ro_ret.
Qed.

Lemma ro_emit (e : event) : raises_only_in allowed (emit (P := P) e).
Proof. intros st e' H. discriminate. Qed.

Lemma ro_get_state : raises_only_in allowed (get_state (P := P)).
Proof. intros st e' H. discriminate. Qed.

Lemma ro_set_cache (c : Cache P) : raises_only_in allowed (set_cache c).
Proof. intros st e' H. discriminate. Qed.

Lemma ro_set_has_index (b : bool) : raises_only_in allowed (set_has_index (P := P) b).
Proof. intros st e' H. discriminate. Qed.

Lemma ro_int (s : string) : allowed ValueError = true -> raises_only_in allowed (@int P s).
Proof.
  intros Ha. unfold int. destruct (int_of_str P s); intros st e H; inversion H. now subst.
Qed.

Lemma ro_json_loads (A : Type) (loads : string -> option A) (data : string) :
  allowed JSONDecodeError = true ->
  raises_only_in allowed (json_loads (P := P) loads data).
Proof.
  intros Ha. unfold json_loads. destruct (loads data); intros st e H; inversion H. now subst.
Qed.

(** Inside a [try]: SQLite may raise its own exceptions there. *)
Lemma ro_connect (path : string) :
  raises_only_in (fun e => sqlite_exn e || allowed e) (@sqlite3_connect P path).
Proof.
  intros st e H. rewrite run_connect_cases in H.
  destruct (connect P path); inversion H; reflexivity.
Qed.

Lemma ro_execute (con : Database) (q : query) :
  raises_only_in (fun e => sqlite_exn e || allowed e) (execute (P := P) con q).
Proof.
  intros st e H. rewrite run_execute_cases in H.
  destruct (con q); inversion H; reflexivity.
Qed.

(** Leaving the [try]: what was a SQLite exception is now a
    [TalkerDataError] with sub-kind 0 or 1, the rest passes. *)
Lemma ro_try_sqlite (A : Type) (body : M P A) :
  raises_only_in (fun e => sqlite_exn e || allowed e) body ->
  (forall e, data_error_0_1 e = true -> allowed e = true) ->
  raises_only_in allowed (try_sqlite body).
Proof.
  intros Hb Hdata st e H. unfold try_sqlite in H. specialize (Hb st).
  destruct (body st) as [[a|e'] st']; [discriminate|].
  specialize (Hb e' eq_refl).
  destruct e'; cbn in H; inversion H; subst; cbn in Hb;
    first [ exact Hb | apply Hdata; reflexivity ].
Qed.

End Raises_only_in.

Ltac inside_beta := cbv beta; inside.

Ltac ro :=
  repeat first
    [ apply ro_ret
    | apply ro_emit
    | apply ro_get_state
    | apply ro_set_cache
    | apply ro_set_has_index
    | apply ro_raise; reflexivity
    | apply ro_int; reflexivity
    | apply ro_json_loads; reflexivity
    | apply ro_connect
    | apply ro_execute
    | apply ro_try_sqlite; [|inside]
    | apply ro_mapM; intros ?
    | apply ro_bind; [|intros ?]
    | match goal with
      | |- raises_only_in _ (if ?b then _ else _) => destruct b
      | |- raises_only_in _ (match ?x with _ => _ end) => destruct x
      end ].

Section Method_errors.

Variable P : Platform.
Variable self : Talker.

Lemma ro_check_create_index :
  raises_only_in data_error_0_1 (check_create_index (P := P) self).
Proof. unfold check_create_index. ro. Qed.

Lemma ro_find_issue_images (issue_id : sqlval) :
  raises_only_in image_errors (_find_issue_images (P := P) issue_id).
Proof.
  unfold _find_issue_images.
  apply ro_bind; [ro|]. intros _.
  destruct (http_get P _); [|ro..].
  apply ro_lift. eapply raises_only_weaken; [apply raises_only_images_loop | inside_beta].
Qed.

Lemma ro_find_series_image (series_id : sqlval) :
  raises_only_in series_errors (_find_series_image (P := P) self series_id).
Proof.
  unfold _find_series_image.
  apply ro_bind; [ro|]. intros issue_id.
  destruct (truthy issue_id); [|ro].
  apply ro_bind; [|intros r; ro].
  eapply ro_weaken; [apply ro_find_issue_images | inside_beta].
Qed.

Lemma ro_story_credits_loop (con : Database) (story_id_list : list string) :
  forall credit_results,
    raises_only_in (fun e => sqlite_exn e || credit_errors e)
      (story_credits_loop (P := P) con story_id_list credit_results).
Proof.
  induction story_id_list as [|story_id rest IH]; intros credit_results;
    cbn [story_credits_loop].
  - ro.
  - apply ro_bind; [ro|]. intros n.
    apply ro_bind; [ro|]. intros rows. apply IH.
Qed.

Lemma ro_find_issue_credits (issue_id : sqlval) (story_id_list : list string) :
  raises_only_in credit_errors (_find_issue_credits (P := P) self issue_id story_id_list).
Proof.
  unfold _find_issue_credits.
  apply ro_try_sqlite; [|inside].
  apply ro_bind; [ro|]. intros con.
  apply ro_bind; [ro|]. intros rows.
  apply ro_story_credits_loop.
Qed.

Lemma ro_fetch_series_data (series_id : sqlval) :
  raises_only_in series_errors (_fetch_series_data (P := P) self series_id).
Proof.
  unfold _fetch_series_data, ComicCacher, cvc_get_series_info, cvc_add_series_info.
  apply ro_bind; [ro|]. intros _.
  apply ro_bind; [ro|]. intros cached_series.
  assert (Hcover : raises_only_in (fun e => sqlite_exn e || series_errors e)
            (if download_gui_covers self
             then bind (_find_series_image (P := P) self series_id)
                       (fun image => ret (image, true))
             else ret (""%string, false))).
  { destruct (download_gui_covers self); [|ro].
    apply ro_bind; [|intros image; ro].
    eapply ro_weaken; [apply ro_find_series_image | inside_beta]. }
  destruct cached_series as [[entry [|]]|]; [ro | |].
  all: apply ro_bind; [|intros result; ro].
  all: apply ro_try_sqlite; [|inside].
  all: apply ro_bind; [ro|]; intros con.
  all: apply ro_bind; [ro|]; intros fetched.
  all: apply ro_bind; [exact Hcover|]; intros cover.
  all: destruct fetched; ro.
Qed.

Lemma ro_fetch_issue_by_issue_id (issue_id : sqlval) :
  raises_only_in issue_errors (_fetch_issue_by_issue_id (P := P) self issue_id).
Proof.
  unfold _fetch_issue_by_issue_id, ComicCacher, cvc_get_issue_info, cvc_add_issues_info.
  apply ro_bind; [ro|]. intros _.
  apply ro_bind; [ro|]. intros cached_issue.
  assert (Hformat : forall record,
            raises_only_in (fun e => sqlite_exn e || issue_errors e)
              (bind (lift (P := P) (_format_gcd_issue record true))
                    (fun issue_result => ret (Some issue_result)))).
  { intros record. apply ro_bind; [|intros x; ro].
    apply ro_lift. eapply raises_only_weaken;
      [apply raises_only_format_gcd_issue | inside_beta]. }
  destruct cached_issue as [[entry [|]]|]; [ro | |].
  all: apply ro_bind;
    [eapply ro_weaken; [apply ro_check_create_index | inside]|]; intros _.
  all: apply ro_bind.
  1, 3: apply ro_try_sqlite; [|inside].
  1, 2: apply ro_bind; [ro|]; intros con.
  1, 2: apply ro_bind; [ro|]; intros fetched.
  1, 2: destruct fetched as [record|]; [apply Hformat|].
  1, 2: apply ro_bind; [ro|]; intros fetched.
  1, 2: destruct fetched as [record|]; [apply Hformat | ro].
  all: intros bound.
  all: apply ro_bind; [destruct bound; ro|]; intros issue_result.
  all: apply ro_bind; [destruct (i_story_ids issue_result); ro|]; intros story_ids.
  all: apply ro_bind;
    [eapply ro_weaken; [apply ro_find_issue_credits | inside]|]; intros credits.
  all: apply ro_bind; [|intros covers; ro].
  all: destruct (download_gui_covers self || download_tag_covers self); [|ro].
  all: eapply ro_weaken; [apply ro_find_issue_images | inside].
Qed.

End Method_errors.

Section Entry_point_errors.

Variable P : Platform.
Variable self : Talker.

Lemma ro_fetch_issue_data_by_issue_id (issue_id : sqlval) :
  raises_only_in (fun e => issue_errors e || series_errors e)
    (_fetch_issue_data_by_issue_id (P := P) self issue_id).
Proof.
  unfold _fetch_issue_data_by_issue_id.
  apply ro_bind; [eapply ro_weaken; [apply ro_fetch_issue_by_issue_id | inside_beta]|].
  intros issue.
  apply ro_bind; [eapply ro_weaken; [apply ro_fetch_series_data | inside_beta]|].
  intros series. apply ro_lift. apply raises_only_map_comic_issue_to_metadata.
Qed.




Lemma ro_fetch_series (series_id : string) :
  raises_only_in fetch_series_errors (fetch_series (P := P) self series_id).
Proof.
  unfold fetch_series.
  apply ro_bind; [ro|]. intros n.
  apply ro_bind; [eapply ro_weaken; [apply ro_fetch_series_data | inside]|]. intros series.
  cbn [_format_search_results map]. ro.
Qed.

End Entry_point_errors.








(* ===================================================================== *)
(** * What a method can add to the log *)
(* ===================================================================== *)

Section Adds_only.

Variable P : Platform.
Variable ok : event -> bool.

Lemma ao_same (A : Type) (m : M P A) :
  (forall st, snd (m st) = st) -> adds_only ok m.
Proof. intros H st. exists []. rewrite H, app_nil_r. now split. Qed.

Lemma ao_ret (A : Type) (a : A) : adds_only ok (ret (P := P) a).
Proof. now apply ao_same. Qed.

Lemma ao_raise (A : Type) (e : exn) : adds_only ok (raise (P := P) (A := A) e).
Proof. now apply ao_same. Qed.

Lemma ao_lift (A : Type) (r : result A) : adds_only ok (lift (P := P) r).
Proof. now apply ao_same. Qed.

Lemma ao_get_state : adds_only ok (get_state (P := P)).
Proof. now apply ao_same. Qed.

Lemma ao_set_cache (c : Cache P) : adds_only ok (set_cache c).
Proof. intros st. exists []. cbn. rewrite app_nil_r. now split. Qed.

Lemma ao_set_has_index (b : bool) : adds_only ok (set_has_index (P := P) b).
Proof. intros st. exists []. cbn. rewrite app_nil_r. now split. Qed.

Lemma ao_emit (e : event) : ok e = true -> adds_only ok (emit (P := P) e).
Proof. intros He st. exists [e]. cbn. now rewrite He. Qed.

Lemma ao_bind (A B : Type) (m : M P A) (k : A -> M P B) :
  adds_only ok m -> (forall a, adds_only ok (k a)) -> adds_only ok (bind m k).
Proof.
  intros Hm Hk st. unfold bind. destruct (Hm st) as [evs [Hlog Hok]].
  destruct (m st) as [[a|e] st']; cbn [snd] in Hlog.
  - destruct (Hk a st') as [evs' [Hlog' Hok']].
    exists (evs ++ evs'). rewrite Hlog', Hlog, app_assoc, forallb_app, Hok, Hok'. now split.
  - exists evs. now split.
Qed.

Lemma ao_try_sqlite (A : Type) (body : M P A) :
  adds_only ok body -> adds_only ok (try_sqlite body).
Proof.
  intros Hb st. unfold try_sqlite. destruct (Hb st) as [evs [Hlog Hok]].
  exists evs. split; [|exact Hok].
  destruct (body st) as [[a|e] st']; [exact Hlog|].
  destruct e; exact Hlog.
Qed.

Lemma ao_mapM (A B : Type) (f : A -> M P B) (l : list A) :
  (forall x, adds_only ok (f x)) -> adds_only ok (mapM f l).
Proof.
  intros Hf. induction l as [|x l IH]; cbn [mapM].
  - apply ao_ret.
  - apply ao_bind; [apply Hf|]. intros y.
    apply ao_bind; [apply IH|]. intros ys. apply ao_ret.
Qed.

Lemma ao_raise_sql (A : Type) (r : sql_result A) : adds_only ok (raise_sql (P := P) r).
Proof. destruct r; first [apply ao_ret | apply ao_raise]. Qed.

Lemma ao_int (s : string) : adds_only ok (@int P s).
Proof. unfold int. destruct (int_of_str P s); first [apply ao_ret | apply ao_raise]. Qed.

Lemma ao_json_loads (A : Type) (loads : string -> option A) (data : string) :
  adds_only ok (json_loads (P := P) loads data).
Proof. unfold json_loads. destruct (loads data); first [apply ao_ret | apply ao_raise]. Qed.

End Adds_only.

Ltac ao :=
  repeat first
    [ apply ao_ret
    | apply ao_raise
    | apply ao_lift
    | apply ao_get_state
    | apply ao_set_cache
    | apply ao_set_has_index
    | apply ao_raise_sql
    | apply ao_int
    | apply ao_json_loads
    | apply ao_emit; reflexivity
    | apply ao_try_sqlite
    | apply ao_mapM; intros ?
    | apply ao_bind; [|intros ?]
    | match goal with
      | |- adds_only _ (if ?b then _ else _) => destruct b
      | |- adds_only _ (match ?x with _ => _ end) => destruct x
      end ].

Section No_request.

Variable P : Platform.
Variable self : Talker.

Lemma ao_check_create_index (ok : event -> bool) :
  (forall path, ok (EvConnect path) = true) ->
  (forall q, ok (EvQuery q) = true) ->
  adds_only ok (check_create_index (P := P) self).
Proof.
  intros Hc Hq. unfold check_create_index, sqlite3_connect, execute.
  apply ao_bind; [ao|]. intros st.
  destruct (negb _); [|ao].
  apply ao_try_sqlite.
  apply ao_bind; [apply ao_bind; [apply ao_emit, Hc | intros; ao]|]. intros con.
  apply ao_bind; [apply ao_bind; [apply ao_emit, Hq | intros; ao]|]. intros found.
  destruct found; [ao|].
  apply ao_bind; [apply ao_bind; [apply ao_emit, Hq | intros; ao]|]. intros; ao.
Qed.

Lemma ao_story_credits_loop (con : Database) (story_id_list : list string) :
  forall credit_results,
    adds_only not_request (story_credits_loop (P := P) con story_id_list credit_results).
Proof.
  induction story_id_list as [|story_id rest IH]; intros credit_results;
    cbn [story_credits_loop]; unfold execute.
  - ao.
  - apply ao_bind; [ao|]. intros n.
    apply ao_bind; [ao|]. intros rows. apply IH.
Qed.

Lemma ao_find_issue_credits (issue_id : sqlval) (story_id_list : list string) :
  adds_only not_request (_find_issue_credits (P := P) self issue_id story_id_list).
Proof.
  unfold _find_issue_credits, sqlite3_connect, execute.
  apply ao_try_sqlite.
  apply ao_bind; [ao|]. intros con.
  apply ao_bind; [ao|]. intros rows.
  apply ao_story_credits_loop.
Qed.

Hypothesis gui_covers_off : download_gui_covers self = false.

Lemma ao_fetch_series_data (series_id : sqlval) :
  adds_only not_request (_fetch_series_data (P := P) self series_id).
Proof.
  unfold _fetch_series_data, ComicCacher, cvc_get_series_info, cvc_add_series_info,
    sqlite3_connect, execute.
  rewrite gui_covers_off. ao.
Qed.

Lemma ao_fetch_issues_in_series (series_id : string) :
  adds_only not_request (fetch_issues_in_series (P := P) self series_id).
Proof.
  unfold fetch_issues_in_series, ComicCacher, cvc_get_series_issues_info,
    cvc_add_issues_info, sqlite3_connect.
  apply ao_bind; [ao|]. intros _.
  apply ao_bind; [ao|]. intros cached.
  apply ao_bind; [ao|]. intros n.
  apply ao_bind; [apply ao_fetch_series_data|]. intros series.
  destruct (int_eq _ _); [ao|].
  apply ao_bind; [apply ao_check_create_index; reflexivity|]. intros _.
  apply ao_bind.
  - unfold execute. ao.
  - intros results.
    apply ao_bind; [ao|]. intros n'.
    apply ao_bind; [apply ao_fetch_series_data|]. intros series'. ao.
Qed.

Lemma ao_fetch_series (series_id : string) :
  adds_only not_request (fetch_series (P := P) self series_id).
Proof.
  unfold fetch_series.
  apply ao_bind; [ao|]. intros n.
  apply ao_bind; [apply ao_fetch_series_data|]. intros series.
  cbn [_format_search_results map]. ao.
Qed.

Hypothesis tag_covers_off : download_tag_covers self = false.

Lemma ao_fetch_issue_by_issue_id (issue_id : sqlval) :
  adds_only not_request (_fetch_issue_by_issue_id (P := P) self issue_id).
Proof.
  unfold _fetch_issue_by_issue_id, ComicCacher, cvc_get_issue_info, cvc_add_issues_info.
  rewrite gui_covers_off, tag_covers_off. cbn [orb].
  apply ao_bind; [ao|]. intros _.
  apply ao_bind; [ao|]. intros cached_issue.
  destruct cached_issue as [[entry [|]]|]; [ao | |].
  all: apply ao_bind; [apply ao_check_create_index; reflexivity|]; intros _.
  all: apply ao_bind; [unfold sqlite3_connect, execute; ao|]; intros bound.
  all: apply ao_bind; [ao|]; intros issue_result.
  all: apply ao_bind; [ao|]; intros story_ids.
  all: apply ao_bind; [apply ao_find_issue_credits|]; intros credits.
  all: ao.
Qed.

Lemma ao_fetch_comic_data (issue_id series_id : option string) (issue_number : string) :
  adds_only not_request (fetch_comic_data (P := P) self issue_id series_id issue_number).
Proof.
  assert (Hby_id : forall id,
            adds_only not_request (_fetch_issue_data_by_issue_id (P := P) self id)).
  { intros id. unfold _fetch_issue_data_by_issue_id.
    apply ao_bind; [apply ao_fetch_issue_by_issue_id|]. intros issue.
    apply ao_bind; [apply ao_fetch_series_data|]. intros series. ao. }
  unfold fetch_comic_data, check_db_filename_not_empty, int_opt.
  apply ao_bind; [ao|]. intros _.
  destruct (truthy_opt issue_id).
  - apply ao_bind; [ao|]. intros n. apply Hby_id.
  - destruct (Py.nonempty issue_number && truthy_opt series_id); [|ao].
    apply ao_bind; [ao|]. intros n.
    unfold _fetch_issue_data, sqlite3_connect, execute.
    apply ao_bind; [|intros; ao].
    apply ao_try_sqlite.
    apply ao_bind; [ao|]. intros con.
    apply ao_bind; [ao|]. intros fetched.
    destruct fetched as [id|]; [|ao].
    destruct (truthy id); [|ao].
    apply ao_bind; [apply Hby_id | intros; ao].
Qed.

End No_request.

Lemma adds_only_count_requests (P : Platform) (A : Type) (m : M P A) (st : State P) :
  adds_only not_request m ->
  count_requests (log (snd (m st))) = count_requests (log st).
Proof.
  intros H. destruct (H st) as [evs [-> Hok]].
  unfold count_requests. rewrite filter_app, length_app.
  replace (filter _ evs) with (@nil event); [cbn; lia|].
  induction evs as [|e evs IH]; [reflexivity|].
  cbn in Hok. apply andb_true_iff in Hok as [He Hok].
  cbn. destruct e; cbn in He; try discriminate; now apply IH.
Qed.

(** X5.  With the two cover options off, no method of the talker makes a
    request to the website: [fetch_comic_data] leaves the number of
    requests in the log as it found it, and so do [fetch_issues_in_series]
    and [fetch_series], for which the GUI option alone decides. *)
Theorem no_request_without_cover_option (P : Platform) (self : Talker) (st : State P) :
  download_gui_covers self = false ->
  (download_tag_covers self = false ->
   forall issue_id series_id issue_number,
     count_requests (log (snd (fetch_comic_data self issue_id series_id issue_number st)))
     = count_requests (log st)) /\
  (forall series_id,
     count_requests (log (snd (fetch_issues_in_series self series_id st)))
     = count_requests (log st)) /\
  (forall series_id,
     count_requests (log (snd (fetch_series self series_id st)))
     = count_requests (log st)).
Proof.
  intros Hgui. split; [|split].
  - intros Htag issue_id series_id issue_number.
    apply adds_only_count_requests. now apply ao_fetch_comic_data.
  - intros series_id. apply adds_only_count_requests. now apply ao_fetch_issues_in_series.
  - intros series_id. apply adds_only_count_requests. now apply ao_fetch_series.
Qed.

Lemma no_request_without_cover_option_witness :
  count_requests
    (log (snd (fetch_comic_data Demo.talker (Some "7") None ""
                 (Demo.state_with Demo.empty_store)))) = 0 /\
  count_requests
    (log (snd (fetch_issues_in_series Demo.talker "3" (Demo.state_with Demo.nine_of_ten)))) = 0.
Proof.
  destruct (@no_request_without_cover_option Demo.platform Demo.talker
              (Demo.state_with Demo.empty_store) eq_refl) as [Hcomic _].
  destruct (@no_request_without_cover_option Demo.platform Demo.talker
              (Demo.state_with Demo.nine_of_ten) eq_refl) as [_ [Hlist _]].
  split.
  - exact (Hcomic eq_refl (Some "7") None ""%string).
  - exact (Hlist "3"%string).
Defined.

(* ===================================================================== *)
(** * Running a fetch on a database that answers *)
(* ===================================================================== *)

Lemma logged_with_cache (P : Platform) (st : State P) (c : Cache P) (evs : list event) :
  logged (with_cache st c) evs = with_cache (logged st evs) c.
Proof. reflexivity. Qed.

Lemma run_check_create_index_ok (P : Platform) (self : Talker) (st : State P)
    (con : Database) (found : bool) :
  connect P (db_file self) = SqlOk con ->
  con QIndexExists = SqlOk found ->
  (found = false -> con QCreateIndex = SqlOk tt) ->
  check_create_index self st = (Ok tt, index_checked self st found).
Proof.
  intros Hcon Hfound Hcreate.
  unfold check_create_index, index_checked. rewrite run_bind. unfold get_state at 1.
  destruct (has_issue_id_type_id_index st); cbn [negb]; [reflexivity|].
  apply try_sqlite_ok.
  rewrite run_bind, (run_connect _ _ Hcon).
  rewrite run_bind, (@run_execute P con QIndexExists found _ Hfound).
  destruct found.
  - unfold set_has_index, logged. cbn. now rewrite <- app_assoc.
  - rewrite run_bind, (@run_execute P con QCreateIndex tt _ (Hcreate eq_refl)).
    unfold set_has_index, logged. cbn. now rewrite <- !app_assoc.
Qed.

Lemma run_story_credits_loop (P : Platform) (con : Database) (ids : string -> Z)
    (srows : string -> list (sqlval * sqlval)) (story_id_list : list string) :
  (forall story_id, In story_id story_id_list ->
     int_of_str P story_id = Some (ids story_id) /\
     con (QStoryCredits (ids story_id)) = SqlOk (srows story_id)) ->
  forall (credit_results : list GCDCredit) (st : State P),
    story_credits_loop con story_id_list credit_results st
    = (Ok (credit_results
           ++ flat_map (fun story_id => story_level_credits (srows story_id)) story_id_list),
       logged st (map (fun story_id => EvQuery (QStoryCredits (ids story_id))) story_id_list)).
Proof.
  induction story_id_list as [|story_id rest IH]; intros Hall credit_results st.
  - cbn. now rewrite app_nil_r, logged_nil.
  - destruct (Hall story_id (or_introl eq_refl)) as [Hint Hq].
    cbn [story_credits_loop flat_map map].
    rewrite run_bind, (run_int _ _ Hint).
    rewrite run_bind, (@run_execute P con (QStoryCredits (ids story_id)) _ _ Hq).
    rewrite IH by (intros s Hs; apply Hall; now right).
    rewrite fold_left_append, <- app_assoc, logged_logged. reflexivity.
Qed.

Lemma run_find_issue_credits (P : Platform) (self : Talker) (issue_id : sqlval)
    (story_id_list : list string) (st : State P) (con : Database)
    (irows : list (sqlval * sqlval)) (ids : string -> Z)
    (srows : string -> list (sqlval * sqlval)) :
  connect P (db_file self) = SqlOk con ->
  con (QIssueCredits issue_id) = SqlOk irows ->
  (forall story_id, In story_id story_id_list ->
     int_of_str P story_id = Some (ids story_id) /\
     con (QStoryCredits (ids story_id)) = SqlOk (srows story_id)) ->
  _find_issue_credits self issue_id story_id_list st
  = (Ok (issue_level_credits irows
         ++ flat_map (fun story_id => story_level_credits (srows story_id)) story_id_list),
     logged st (credit_events self issue_id (map ids story_id_list))).
Proof.
  intros Hcon Hq Hall. unfold _find_issue_credits. apply try_sqlite_ok.
  rewrite run_bind, (run_connect _ _ Hcon).
  rewrite run_bind, (@run_execute P con (QIssueCredits issue_id) irows _ Hq).
  rewrite (@run_story_credits_loop P con ids srows story_id_list Hall).
  rewrite fold_left_append, !logged_logged. cbn [app].
  unfold credit_events. now rewrite map_map.
Qed.

Lemma run_fetch_series_data_miss (P : Platform) (self : Talker) (series_id : sqlval)
    (st : State P) (con : Database) (record : SeriesRow) :
  download_gui_covers self = false ->
  (forall entry, get_series_info P (py_str series_id) talker_id (cache st)
                 <> Some (entry, true)) ->
  connect P (db_file self) = SqlOk con ->
  con (QSeries series_id) = SqlOk (Some record) ->
  let series := series_of_row record "" false in
  _fetch_series_data self series_id st
  = (Ok series,
     with_cache
       (logged st [EvCacheOpen; EvCacheGetSeries (py_str series_id);
                   EvConnect (db_file self); EvQuery (QSeries series_id);
                   EvCacheAddSeries (CCSeries_of P series) true])
       (add_series_info P talker_id (CCSeries_of P series) true (cache st))).
Proof.
  intros Hgui Hmiss Hcon Hq series.
  assert (Hbody : forall st',
    try_sqlite
      (bind (@sqlite3_connect P (db_file self)) (fun con0 =>
       bind (execute con0 (QSeries series_id)) (fun fetched =>
       bind (if download_gui_covers self
             then bind (_find_series_image self series_id) (fun image => ret (image, true))
             else ret (""%string, false)) (fun cover =>
       match (fetched : option SeriesRow) with
       | None => raise TypeError
       | Some record0 =>
           ret {| s_count_of_issues := r_issue_count record0;
                  s_notes := r_notes record0;
                  s_id := r_id record0;
                  s_name := r_series_name record0;
                  s_sort_name := r_sort_name record0;
                  s_publisher_name := r_publisher_name record0;
                  s_format := r_format record0;
                  s_year_began := r_year_began record0;
                  s_year_ended := r_year_ended record0;
                  s_image := fst cover;
                  s_cover_downloaded := snd cover |}
       end)))) st'
    = (Ok series, logged st' [EvConnect (db_file self); EvQuery (QSeries series_id)])).
  { intros st'. apply try_sqlite_ok.
    rewrite run_bind, (run_connect _ _ Hcon).
    rewrite run_bind, (@run_execute P con (QSeries series_id) (Some record) _ Hq).
    rewrite Hgui, run_bind. unfold ret at 1. rewrite logged_logged. reflexivity. }
  unfold _fetch_series_data, ComicCacher.
  rewrite run_bind, run_emit, run_bind, run_get_series_info. cbn [logged cache].
  destruct (get_series_info P (py_str series_id) talker_id (cache st))
    as [[entry [|]]|] eqn:E; [now elim (Hmiss entry) | |].
  all: rewrite run_bind, Hbody.
  all: unfold cvc_add_series_info.
  all: rewrite !run_bind, run_emit; cbn.
  all: unfold with_cache, logged; cbn; rewrite <- !app_assoc; reflexivity.
Qed.

Lemma run_fetch_series_data_hit (P : Platform) (self : Talker) (series_id : sqlval)
    (st : State P) (entry : CCSeries) (series : GCDSeries) :
  get_series_info P (py_str series_id) talker_id (cache st) = Some (entry, true) ->
  json_loads_series P (ccs_data entry) = Some series ->
  _fetch_series_data self series_id st
  = (Ok series, logged st [EvCacheOpen; EvCacheGetSeries (py_str series_id)]).
Proof.
  intros Hget Hloads. unfold _fetch_series_data, ComicCacher.
  rewrite run_bind, run_emit, run_bind, run_get_series_info.
  cbn [logged cache]. rewrite Hget. unfold json_loads. rewrite Hloads.
  unfold ret, logged. cbn. now rewrite <- app_assoc.
Qed.

Lemma cache_index_checked (P : Platform) (self : Talker) (st : State P) (found : bool) :
  cache (index_checked self st found) = cache st.
Proof. unfold index_checked. now destruct (has_issue_id_type_id_index st). Qed.

(** What the complete shape always sets. *)
Lemma format_gcd_issue_complete_fields (r : row) (issue : GCDIssue) :
  _format_gcd_issue r true = Ok issue ->
  i_image issue = "" /\ i_alt_image_urls issue = [] /\
  i_credits issue = Some [] /\ i_covers_downloaded issue = None /\
  i_story_ids issue = Some (story_ids_of issue).
Proof.
  intros H. unfold _format_gcd_issue in H.
  repeat match type of H with
         | bind_result ?x _ = _ => destruct x; cbn [bind_result] in H; [|discriminate]
         end.
  inversion H. subst. cbn. repeat split.
Qed.

Lemma run_get_issue_miss (P : Platform) (issue_id : sqlval) (st : State P)
    (A : Type) (hit : CCIssue -> M P A) (miss : M P A) :
  (forall entry, get_issue_info P issue_id talker_id (cache st) <> Some (entry, true)) ->
  match get_issue_info P issue_id talker_id (cache st) with
  | Some (entry, true) => hit entry
  | _ => miss
  end = miss.
Proof.
  intros Hmiss.
  destruct (get_issue_info P issue_id talker_id (cache st)) as [[entry [|]]|];
    [now elim (Hmiss entry) | reflexivity | reflexivity].
Qed.

Lemma run_fetch_issue_by_issue_id_miss (P : Platform) (self : Talker) (issue_id : sqlval)
    (st : State P) (con : Database) (found : bool)
    (with_stories without_stories : option row) (record : row) (issue0 : GCDIssue)
    (irows : list (sqlval * sqlval)) (ids : string -> Z)
    (srows : string -> list (sqlval * sqlval)) :
  download_gui_covers self = false ->
  download_tag_covers self = false ->
  (forall entry, get_issue_info P issue_id talker_id (cache st) <> Some (entry, true)) ->
  connect P (db_file self) = SqlOk con ->
  con QIndexExists = SqlOk found ->
  (found = false -> con QCreateIndex = SqlOk tt) ->
  con (QIssueWithStories issue_id) = SqlOk with_stories ->
  con (QIssue issue_id) = SqlOk without_stories ->
  match with_stories with Some r => Some r | None => without_stories end = Some record ->
  _format_gcd_issue record true = Ok issue0 ->
  con (QIssueCredits issue_id) = SqlOk irows ->
  (forall story_id, In story_id (story_ids_of issue0) ->
     int_of_str P story_id = Some (ids story_id) /\
     con (QStoryCredits (ids story_id)) = SqlOk (srows story_id)) ->
  let issue :=
    with_credits issue0
      (issue_level_credits irows
       ++ flat_map (fun story_id => story_level_credits (srows story_id))
            (story_ids_of issue0)) in
  _fetch_issue_by_issue_id self issue_id st
  = (Ok issue,
     with_cache
       (logged (index_checked self (logged st [EvCacheOpen; EvCacheGetIssue issue_id]) found)
          (issue_events self issue_id with_stories
           ++ credit_events self issue_id (map ids (story_ids_of issue0))
           ++ [EvCacheAddIssues [CCIssue_complete P issue] true]))
       (add_issues_info P talker_id [CCIssue_complete P issue] true (cache st))).
Proof.
  intros Hgui Htag Hmiss Hcon Hfound Hcreate Hq1 Hq2 Hrecord Hformat Hqc Hall issue.
  destruct (@format_gcd_issue_complete_fields record issue0 Hformat)
    as [Himage [Halt [_ [_ Hids]]]].
  assert (Hbody : forall st',
    try_sqlite
      (bind (@sqlite3_connect P (db_file self)) (fun con0 =>
       bind (execute con0 (QIssueWithStories issue_id)) (fun fetched =>
       match (fetched : option row) with
       | Some record0 =>
           bind (lift (_format_gcd_issue record0 true)) (fun issue_result =>
           ret (Some issue_result))
       | None =>
           bind (execute con0 (QIssue issue_id)) (fun fetched0 =>
           match (fetched0 : option row) with
           | Some record0 =>
               bind (lift (_format_gcd_issue record0 true)) (fun issue_result =>
               ret (Some issue_result))
           | None => ret None
           end)
       end))) st'
    = (Ok (Some issue0), logged st' (issue_events self issue_id with_stories))).
  { intros st'. apply try_sqlite_ok.
    rewrite run_bind, (run_connect _ _ Hcon).
    rewrite run_bind, (@run_execute P con (QIssueWithStories issue_id) with_stories _ Hq1).
    unfold issue_events. destruct with_stories as [r|].
    - inversion Hrecord; subst r.
      rewrite run_bind. unfold lift at 1. rewrite Hformat.
      unfold ret. now rewrite logged_logged.
    - subst without_stories.
      rewrite run_bind, (@run_execute P con (QIssue issue_id) (Some record) _ Hq2).
      rewrite run_bind. unfold lift at 1. rewrite Hformat.
      unfold ret. now rewrite !logged_logged. }
  unfold _fetch_issue_by_issue_id, ComicCacher.
  rewrite run_bind, run_emit, run_bind, run_get_issue_info. cbn [logged cache].
  rewrite run_get_issue_miss by exact Hmiss.
  change {| cache := cache st;
            has_issue_id_type_id_index := has_issue_id_type_id_index st;
            log := (log st ++ [EvCacheOpen]) ++ [EvCacheGetIssue issue_id] |}
    with (logged (logged st [EvCacheOpen]) [EvCacheGetIssue issue_id]).
  rewrite logged_logged. cbn [app].
  rewrite run_bind, (@run_check_create_index_ok P self _ con found Hcon Hfound Hcreate).
  rewrite run_bind, Hbody.
  rewrite run_bind. unfold ret at 1.
  rewrite run_bind, Hids. unfold ret at 1.
  rewrite run_bind, (@run_find_issue_credits P self issue_id _ _ con irows ids srows Hcon Hqc Hall).
  rewrite Hgui, Htag. cbn [orb].
  rewrite run_bind. unfold ret at 1.
  rewrite run_bind, run_add_issues_info.
  rewrite !logged_logged. cbn [logged cache]. rewrite cache_index_checked. cbn [cache].
  cbn [fst snd]. unfold ret, issue, with_credits, CCIssue_complete.
  cbn [i_id i_series_id]. rewrite Hids. reflexivity.
Qed.

Lemma run_fetch_issue_by_issue_id_hit (P : Platform) (self : Talker) (issue_id : sqlval)
    (st : State P) (entry : CCIssue) (issue : GCDIssue) :
  get_issue_info P issue_id talker_id (cache st) = Some (entry, true) ->
  json_loads_issue P (cci_data entry) = Some issue ->
  _fetch_issue_by_issue_id self issue_id st
  = (Ok issue, logged st [EvCacheOpen; EvCacheGetIssue issue_id]).
Proof.
  intros Hget Hloads. unfold _fetch_issue_by_issue_id, ComicCacher.
  rewrite run_bind, run_emit, run_bind, run_get_issue_info.
  cbn [logged cache]. rewrite Hget. unfold json_loads. rewrite Hloads.
  unfold ret, logged. cbn. now rewrite <- app_assoc.
Qed.

Lemma database_events_app (l evs : list event) :
  database_events (l ++ evs) = database_events l ++ database_events evs.
Proof. unfold database_events. apply filter_app. Qed.

(* ===================================================================== *)
(** * Reading through the cache *)
(* ===================================================================== *)

(** X6.  A series that is not in the cache is read from the database with
    one statement and stored, flagged complete.  If the cache then gives
    back what was stored and the stored payload decodes to the record it
    was made from, a second [fetch_series] returns the same series from
    the cache, opening no connection and executing no statement. *)
Theorem fetch_series_read_through (P : Platform) (self : Talker) (series_id : string)
    (n : Z) (st : State P) (con : Database) (record : SeriesRow) :
  int_of_str P series_id = Some n ->
  download_gui_covers self = false ->
  (forall entry, get_series_info P (Py.str_of_int n) talker_id (cache st)
                 <> Some (entry, true)) ->
  connect P (db_file self) = SqlOk con ->
  con (QSeries (VInt n)) = SqlOk (Some record) ->
  let series := series_of_row record "" false in
  let stored := add_series_info P talker_id (CCSeries_of P series) true (cache st) in
  get_series_info P (Py.str_of_int n) talker_id stored = Some (CCSeries_of P series, true) ->
  json_loads_series P (json_dumps_series P series) = Some series ->
  let first := fetch_series self series_id st in
  let second := fetch_series self series_id (snd first) in
  fst first = Ok (format_search_result series) /\
  database_events (log (snd first))
  = database_events (log st) ++ [EvConnect (db_file self); EvQuery (QSeries (VInt n))] /\
  cache (snd first) = stored /\
  fst second = fst first /\
  log (snd second)
  = log (snd first) ++ [EvCacheOpen; EvCacheGetSeries (Py.str_of_int n)] /\
  cache (snd second) = stored.
Proof.
  intros Hint Hgui Hmiss Hcon Hq series stored Hlaw Hjson first second.
  assert (Hfirst : first
                   = (Ok (format_search_result series),
                      with_cache
                        (logged st [EvCacheOpen; EvCacheGetSeries (Py.str_of_int n);
                                    EvConnect (db_file self); EvQuery (QSeries (VInt n));
                                    EvCacheAddSeries (CCSeries_of P series) true])
                        stored)).
  { unfold first, fetch_series.
    rewrite run_bind, (run_int _ _ Hint).
    rewrite run_bind, (@run_fetch_series_data_miss P self (VInt n) st con record
                         Hgui Hmiss Hcon Hq).
    reflexivity. }
  assert (Hsecond : second
                    = (Ok (format_search_result series),
                       logged (snd first) [EvCacheOpen; EvCacheGetSeries (Py.str_of_int n)])).
  { unfold second, fetch_series.
    rewrite run_bind, (run_int _ _ Hint).
    rewrite run_bind,
      (@run_fetch_series_data_hit P self (VInt n) (snd first) (CCSeries_of P series) series).
    - reflexivity.
    - rewrite Hfirst. exact Hlaw.
    - exact Hjson. }
  rewrite Hsecond. rewrite Hfirst. cbn [fst snd with_cache logged cache log].
  repeat split.
  rewrite database_events_app. reflexivity.
Qed.

Lemma fetch_series_read_through_witness :
  let first := fetch_series Demo.talker "3" (Demo.state_with Demo.empty_store) in
  let second := fetch_series Demo.talker "3" (snd first) in
  fst second = fst first /\
  log (snd second) = log (snd first) ++ [EvCacheOpen; EvCacheGetSeries "3"].
Proof.
  destruct (@fetch_series_read_through Demo.platform Demo.talker "3" 3%Z
              (Demo.state_with Demo.empty_store) Demo.db (Demo.series_row 3 10)
              eq_refl eq_refl) as [_ [_ [_ [Hsame [Hlog _]]]]];
    try reflexivity.
  - intros entry. discriminate.
  - split; [exact Hsame | exact Hlog].
Defined.

(** X7.  An issue that is not in the cache is resolved, with the cover
    options off, by this sequence and no other: the index check, one
    connection with the with-stories statement and, only when that has no
    row, the other shape; one connection with the issue-level credit
    statement and one credit statement per story id, in the order of the
    story-id list; then one cache write of the finished record, flagged
    complete.  The record is the formatted row with the merged credits. *)
Theorem fetch_issue_by_issue_id_cold (P : Platform) (self : Talker) (issue_id : sqlval)
    (st : State P) (con : Database) (found : bool)
    (with_stories without_stories : option row) (record : row) (issue0 : GCDIssue)
    (irows : list (sqlval * sqlval)) (ids : string -> Z)
    (srows : string -> list (sqlval * sqlval)) :
  download_gui_covers self = false ->
  download_tag_covers self = false ->
  (forall entry, get_issue_info P issue_id talker_id (cache st) <> Some (entry, true)) ->
  connect P (db_file self) = SqlOk con ->
  con QIndexExists = SqlOk found ->
  (found = false -> con QCreateIndex = SqlOk tt) ->
  con (QIssueWithStories issue_id) = SqlOk with_stories ->
  con (QIssue issue_id) = SqlOk without_stories ->
  match with_stories with Some r => Some r | None => without_stories end = Some record ->
  _format_gcd_issue record true = Ok issue0 ->
  con (QIssueCredits issue_id) = SqlOk irows ->
  (forall story_id, In story_id (story_ids_of issue0) ->
     int_of_str P story_id = Some (ids story_id) /\
     con (QStoryCredits (ids story_id)) = SqlOk (srows story_id)) ->
  let issue :=
    with_credits issue0
      (issue_level_credits irows
       ++ flat_map (fun story_id => story_level_credits (srows story_id))
            (story_ids_of issue0)) in
  let run := _fetch_issue_by_issue_id self issue_id st in
  fst run = Ok issue /\
  log (snd run)
  = log (index_checked self (logged st [EvCacheOpen; EvCacheGetIssue issue_id]) found)
    ++ issue_events self issue_id with_stories
    ++ credit_events self issue_id (map ids (story_ids_of issue0))
    ++ [EvCacheAddIssues [CCIssue_complete P issue] true] /\
  cache (snd run) = add_issues_info P talker_id [CCIssue_complete P issue] true (cache st) /\
  has_issue_id_type_id_index (snd run) = true.
Proof.
  intros Hgui Htag Hmiss Hcon Hfound Hcreate Hq1 Hq2 Hrecord Hformat Hqc Hall issue run.
  unfold run.
  rewrite (@run_fetch_issue_by_issue_id_miss P self issue_id st con found with_stories
             without_stories record issue0 irows ids srows
             Hgui Htag Hmiss Hcon Hfound Hcreate Hq1 Hq2 Hrecord Hformat Hqc Hall).
  cbn [fst snd with_cache logged cache log has_issue_id_type_id_index].
  repeat split.
  unfold index_checked. cbn.
  destruct (has_issue_id_type_id_index st) eqn:E; [exact E | reflexivity].
Qed.

Lemma fetch_issue_by_issue_id_cold_witness :
  let run := _fetch_issue_by_issue_id Demo.talker (VInt 7) (Demo.state_with Demo.empty_store) in
  fst run = Ok Replay.issue7 /\
  log (snd run)
  = [EvCacheOpen; EvCacheGetIssue (VInt 7);
     EvConnect "gcd.db"; EvQuery QIndexExists;
     EvConnect "gcd.db"; EvQuery (QIssueWithStories (VInt 7));
     EvConnect "gcd.db"; EvQuery (QIssueCredits (VInt 7));
     EvQuery (QStoryCredits 70); EvQuery (QStoryCredits 71);
     EvCacheAddIssues [CCIssue_complete Demo.platform Replay.issue7] true].
Proof.
  destruct (@fetch_issue_by_issue_id_cold Demo.platform Demo.talker (VInt 7)
              (Demo.state_with Demo.empty_store) Demo.db true
              (Some Replay.issue7_row) None Replay.issue7_row
              (with_credits Replay.issue7 [])
              [(VText "editor", VText "Whitney Ellsworth")]
              Replay.story_number Replay.story_rows
              eq_refl eq_refl) as [Hrun [Hlog _]];
    try reflexivity.
  - intros entry. discriminate.
  - intros story_id [<-|[<-|[]]]; split; reflexivity.
  - split; [exact Hrun | exact Hlog].
Defined.

Lemma run_check_db_filename_ok (P : Platform) (self : Talker) (st : State P) :
  Py.nonempty (db_file self) = true ->
  check_db_filename_not_empty self st = (Ok tt, st).
Proof. intros H. unfold check_db_filename_not_empty. now rewrite H. Qed.

(** X8.  Resolving an issue by id on a cold cache, with the cover options
    off and a database that answers, stores the issue and its series in
    the cache.  If the cache gives back what was stored and each stored
    payload decodes to the record it was made from, resolving the same
    issue again returns the same result and does nothing but open the
    cache twice and read the two entries: no connection, no statement, no
    request, no cache write. *)
Theorem fetch_comic_data_served_from_cache (P : Platform) (self : Talker)
    (issue_id : string) (series_id : option string) (issue_number : string)
    (n : Z) (st : State P) (con : Database) (found : bool)
    (with_stories without_stories : option row) (record : row) (issue0 : GCDIssue)
    (irows : list (sqlval * sqlval)) (ids : string -> Z)
    (srows : string -> list (sqlval * sqlval)) (series_record : SeriesRow) :
  Py.nonempty (db_file self) = true ->
  Py.nonempty issue_id = true ->
  int_of_str P issue_id = Some n ->
  download_gui_covers self = false ->
  download_tag_covers self = false ->
  (forall entry, get_issue_info P (VInt n) talker_id (cache st) <> Some (entry, true)) ->
  connect P (db_file self) = SqlOk con ->
  con QIndexExists = SqlOk found ->
  (found = false -> con QCreateIndex = SqlOk tt) ->
  con (QIssueWithStories (VInt n)) = SqlOk with_stories ->
  con (QIssue (VInt n)) = SqlOk without_stories ->
  match with_stories with Some r => Some r | None => without_stories end = Some record ->
  _format_gcd_issue record true = Ok issue0 ->
  con (QIssueCredits (VInt n)) = SqlOk irows ->
  (forall story_id, In story_id (story_ids_of issue0) ->
     int_of_str P story_id = Some (ids story_id) /\
     con (QStoryCredits (ids story_id)) = SqlOk (srows story_id)) ->
  let issue :=
    with_credits issue0
      (issue_level_credits irows
       ++ flat_map (fun story_id => story_level_credits (srows story_id))
            (story_ids_of issue0)) in
  let with_issue := add_issues_info P talker_id [CCIssue_complete P issue] true (cache st) in
  (forall entry, get_series_info P (py_str (i_series_id issue0)) talker_id with_issue
                 <> Some (entry, true)) ->
  con (QSeries (i_series_id issue0)) = SqlOk (Some series_record) ->
  let series := series_of_row series_record "" false in
  let warm := add_series_info P talker_id (CCSeries_of P series) true with_issue in
  get_issue_info P (VInt n) talker_id warm = Some (CCIssue_complete P issue, true) ->
  get_series_info P (py_str (i_series_id issue0)) talker_id warm
  = Some (CCSeries_of P series, true) ->
  json_loads_issue P (json_dumps_issue P issue) = Some issue ->
  json_loads_series P (json_dumps_series P series) = Some series ->
  let first := fetch_comic_data self (Some issue_id) series_id issue_number st in
  let second := fetch_comic_data self (Some issue_id) series_id issue_number (snd first) in
  fst first = _map_comic_issue_to_metadata P self issue series /\
  cache (snd first) = warm /\
  fst second = fst first /\
  log (snd second)
  = log (snd first)
    ++ [EvCacheOpen; EvCacheGetIssue (VInt n);
        EvCacheOpen; EvCacheGetSeries (py_str (i_series_id issue0))] /\
  cache (snd second) = warm.
Proof.
  intros Hdb Hid Hint Hgui Htag Hmiss Hcon Hfound Hcreate Hq1 Hq2 Hrecord Hformat Hqc Hall
    issue with_issue Hsmiss Hqs series warm Hilaw Hslaw Hijson Hsjson first second.
  pose proof (@run_fetch_issue_by_issue_id_miss P self (VInt n) st con found with_stories
                without_stories record issue0 irows ids srows
                Hgui Htag Hmiss Hcon Hfound Hcreate Hq1 Hq2 Hrecord Hformat Hqc Hall)
    as Hissue.
  cbv zeta in Hissue. fold issue in Hissue. fold with_issue in Hissue.
  match type of Hissue with
  | _ = (_, ?s) => set (stI := s) in *
  end.
  assert (Hseries : _fetch_series_data self (i_series_id issue) stI
                    = (Ok series,
                       with_cache
                         (logged stI [EvCacheOpen; EvCacheGetSeries (py_str (i_series_id issue0));
                                      EvConnect (db_file self);
                                      EvQuery (QSeries (i_series_id issue0));
                                      EvCacheAddSeries (CCSeries_of P series) true])
                         warm)).
  { change (i_series_id issue) with (i_series_id issue0).
    apply (@run_fetch_series_data_miss P self (i_series_id issue0) stI con series_record
             Hgui Hsmiss Hcon Hqs). }
  match type of Hseries with
  | _ = (_, ?s) => set (stF := s) in *
  end.
  assert (Hfirst : first = (_map_comic_issue_to_metadata P self issue series, stF)).
  { unfold first, fetch_comic_data.
    rewrite run_bind, (run_check_db_filename_ok self st Hdb).
    cbn [truthy_opt]. rewrite Hid. cbn [int_opt].
    rewrite run_bind, (run_int _ _ Hint).
    unfold _fetch_issue_data_by_issue_id.
    rewrite run_bind, Hissue, run_bind, Hseries. reflexivity. }
  assert (Hsecond : second
                    = (_map_comic_issue_to_metadata P self issue series,
                       logged stF [EvCacheOpen; EvCacheGetIssue (VInt n);
                                   EvCacheOpen;
                                   EvCacheGetSeries (py_str (i_series_id issue0))])).
  { unfold second. rewrite Hfirst. cbn [snd]. unfold fetch_comic_data.
    rewrite run_bind, (run_check_db_filename_ok self stF Hdb).
    cbn [truthy_opt]. rewrite Hid. cbn [int_opt].
    rewrite run_bind, (run_int _ _ Hint).
    unfold _fetch_issue_data_by_issue_id.
    rewrite run_bind,
      (@run_fetch_issue_by_issue_id_hit P self (VInt n) stF (CCIssue_complete P issue) issue
         Hilaw Hijson).
    change (i_series_id issue) with (i_series_id issue0).
    rewrite run_bind,
      (@run_fetch_series_data_hit P self (i_series_id issue0)
         (logged stF [EvCacheOpen; EvCacheGetIssue (VInt n)]) (CCSeries_of P series) series
         Hslaw Hsjson).
    rewrite logged_logged. reflexivity. }
  rewrite Hsecond, Hfirst. cbn [fst snd logged log cache]. repeat split.
Qed.

Lemma fetch_comic_data_served_from_cache_witness :
  let first :=
    fetch_comic_data Demo.talker (Some "7") None "" (Replay.state_with Demo.empty_store) in
  let second := fetch_comic_data Demo.talker (Some "7") None "" (snd first) in
  fst second = fst first /\
  log (snd second)
  = log (snd first)
    ++ [EvCacheOpen; EvCacheGetIssue (VInt 7); EvCacheOpen; EvCacheGetSeries "3"].
Proof.
  destruct (@fetch_comic_data_served_from_cache Replay.platform Demo.talker "7" None ""
              7%Z (Replay.state_with Demo.empty_store) Demo.db true
              (Some Replay.issue7_row) None Replay.issue7_row
              (with_credits Replay.issue7 [])
              [(VText "editor", VText "Whitney Ellsworth")]
              Replay.story_number Replay.story_rows (Demo.series_row 3 10)
              eq_refl eq_refl eq_refl eq_refl eq_refl) as [_ [_ [Hsame [Hlog _]]]];
    try reflexivity.
  - intros entry. discriminate.
  - intros story_id [<-|[<-|[]]]; split; reflexivity.
  - intros entry. discriminate.
  - split; [exact Hsame | exact Hlog].
Defined.

(* ===================================================================== *)
(** * What every method adds to the log *)
(* ===================================================================== *)

Ltac aog :=
  repeat first
    [ apply ao_ret
    | apply ao_raise
    | apply ao_lift
    | apply ao_get_state
    | apply ao_set_cache
    | apply ao_set_has_index
    | apply ao_raise_sql
    | apply ao_int
    | apply ao_json_loads
    | apply ao_emit; solve [auto]
    | apply ao_try_sqlite
    | apply ao_mapM; intros ?
    | apply ao_bind; [|intros ?]
    | match goal with
      | |- adds_only _ (if ?b then _ else _) => destruct b
      | |- adds_only _ (match ?x with _ => _ end) => destruct x
      end ].

Section Adds_only_methods.

Variable P : Platform.
Variable self : Talker.
Variable ok : event -> bool.

Hypothesis ok_connect : forall path, ok (EvConnect path) = true.
Hypothesis ok_query : forall q, ok (EvQuery q) = true.
Hypothesis ok_request : forall url, ok (EvHttpGet url) = true.
Hypothesis ok_open : ok EvCacheOpen = true.
Hypothesis ok_get_series : forall id, ok (EvCacheGetSeries id) = true.
Hypothesis ok_get_series_issues : forall id, ok (EvCacheGetSeriesIssues id) = true.
Hypothesis ok_get_issue : forall id, ok (EvCacheGetIssue id) = true.
Hypothesis ok_add_series : forall entry, ok (EvCacheAddSeries entry true) = true.

Lemma aog_connect (path : string) : adds_only ok (@sqlite3_connect P path).
Proof. unfold sqlite3_connect. aog. Qed.

Lemma aog_execute (con : Database) (q : query) : adds_only ok (execute (P := P) con q).
Proof. unfold execute. aog. Qed.

Lemma aog_check_create_index : adds_only ok (check_create_index (P := P) self).
Proof.
  unfold check_create_index.
  apply ao_bind; [aog|]. intros st.
  destruct (negb _); [|aog].
  apply ao_try_sqlite.
  apply ao_bind; [apply aog_connect|]. intros con.
  apply ao_bind; [apply aog_execute|]. intros found.
  destruct found; [aog|].
  apply ao_bind; [apply aog_execute|]. intros; aog.
Qed.

Lemma aog_find_issue_images (issue_id : sqlval) :
  adds_only ok (_find_issue_images (P := P) issue_id).
Proof. unfold _find_issue_images. aog. Qed.

Lemma aog_find_series_image (series_id : sqlval) :
  adds_only ok (_find_series_image (P := P) self series_id).
Proof.
  unfold _find_series_image.
  apply ao_bind.
  - apply ao_try_sqlite.
    apply ao_bind; [apply aog_connect|]. intros con.
    apply ao_bind; [apply aog_execute|]. intros r. aog.
  - intros issue_id. destruct (truthy issue_id); [|aog].
    apply ao_bind; [apply aog_find_issue_images|]. intros; aog.
Qed.

Lemma aog_story_credits_loop (con : Database) (story_id_list : list string) :
  forall credit_results,
    adds_only ok (story_credits_loop (P := P) con story_id_list credit_results).
Proof.
  induction story_id_list as [|story_id rest IH]; intros credit_results;
    cbn [story_credits_loop].
  - aog.
  - apply ao_bind; [aog|]. intros n.
    apply ao_bind; [apply aog_execute|]. intros rows. apply IH.
Qed.

Lemma aog_find_issue_credits (issue_id : sqlval) (story_id_list : list string) :
  adds_only ok (_find_issue_credits (P := P) self issue_id story_id_list).
Proof.
  unfold _find_issue_credits.
  apply ao_try_sqlite.
  apply ao_bind; [apply aog_connect|]. intros con.
  apply ao_bind; [apply aog_execute|]. intros rows.
  apply aog_story_credits_loop.
Qed.

(** The part of [_fetch_series_data] that runs on a cache miss. *)
Lemma aog_series_from_database (series_id : sqlval) (k : GCDSeries -> M P GCDSeries) :
  (forall result, adds_only ok (k result)) ->
  adds_only ok
    (bind (try_sqlite
             (bind (@sqlite3_connect P (db_file self)) (fun con =>
              bind (execute con (QSeries series_id)) (fun fetched =>
              bind (if download_gui_covers self
                    then bind (_find_series_image self series_id)
                              (fun image => ret (image, true))
                    else ret (""%string, false)) (fun cover =>
              match (fetched : option SeriesRow) with
              | None => raise TypeError
              | Some record =>
                  ret {| s_count_of_issues := r_issue_count record;
                         s_notes := r_notes record;
                         s_id := r_id record;
                         s_name := r_series_name record;
                         s_sort_name := r_sort_name record;
                         s_publisher_name := r_publisher_name record;
                         s_format := r_format record;
                         s_year_began := r_year_began record;
                         s_year_ended := r_year_ended record;
                         s_image := fst cover;
                         s_cover_downloaded := snd cover |}
              end))))) k).
Proof.
  intros Hk. apply ao_bind; [|exact Hk].
  apply ao_try_sqlite.
  apply ao_bind; [apply aog_connect|]. intros con.
  apply ao_bind; [apply aog_execute|]. intros fetched.
  apply ao_bind.
  - destruct (download_gui_covers self); [|aog].
    apply ao_bind; [apply aog_find_series_image|]. intros; aog.
  - intros cover. destruct fetched; aog.
Qed.

Lemma aog_fetch_series_data (series_id : sqlval) :
  adds_only ok (_fetch_series_data (P := P) self series_id).
Proof.
  unfold _fetch_series_data, ComicCacher, cvc_get_series_info, cvc_add_series_info.
  apply ao_bind; [aog|]. intros _.
  apply ao_bind; [aog|]. intros cached_series.
  destruct cached_series as [[entry [|]]|]; [aog | |].
  all: apply aog_series_from_database; intros result; aog.
Qed.

Lemma aog_fetch_series (series_id : string) :
  adds_only ok (fetch_series (P := P) self series_id).
Proof.
  unfold fetch_series.
  apply ao_bind; [aog|]. intros n.
  apply ao_bind; [apply aog_fetch_series_data|]. intros series.
  cbn [_format_search_results map]. aog.
Qed.

Lemma aog_fetch_issues_in_series (series_id : string) :
  (forall issues, ok (EvCacheAddIssues issues false) = true) ->
  adds_only ok (fetch_issues_in_series (P := P) self series_id).
Proof.
  intros ok_add_issues.
  unfold fetch_issues_in_series, ComicCacher, cvc_get_series_issues_info,
    cvc_add_issues_info.
  apply ao_bind; [aog|]. intros _.
  apply ao_bind; [aog|]. intros cached.
  apply ao_bind; [aog|]. intros n.
  apply ao_bind; [apply aog_fetch_series_data|]. intros series.
  destruct (int_eq _ _); [aog|].
  apply ao_bind; [apply aog_check_create_index|]. intros _.
  apply ao_bind.
  - apply ao_try_sqlite.
    apply ao_bind; [apply aog_connect|]. intros con.
    apply ao_bind; [aog|]. intros n'.
    apply ao_bind; [apply aog_execute|]. intros rows.
    destruct rows; [|aog].
    apply ao_bind; [aog|]. intros n''.
    apply ao_bind; [apply aog_execute|]. intros rows. aog.
  - intros results.
    apply ao_bind; [aog|]. intros n'.
    apply ao_bind; [apply aog_fetch_series_data|]. intros series'. aog.
Qed.

(** The part of [_fetch_issue_by_issue_id] that runs on a cache miss, after
    the index check. *)
Lemma aog_issue_from_database (issue_id : sqlval) :
  adds_only ok
    (try_sqlite
       (bind (@sqlite3_connect P (db_file self)) (fun con =>
        bind (execute con (QIssueWithStories issue_id)) (fun fetched =>
        match (fetched : option row) with
        | Some record =>
            bind (lift (_format_gcd_issue record true)) (fun issue_result =>
            ret (Some issue_result))
        | None =>
            bind (execute con (QIssue issue_id)) (fun fetched0 =>
            match (fetched0 : option row) with
            | Some record =>
                bind (lift (_format_gcd_issue record true)) (fun issue_result =>
                ret (Some issue_result))
            | None => ret None
            end)
        end)))).
Proof.
  apply ao_try_sqlite.
  apply ao_bind; [apply aog_connect|]. intros con.
  apply ao_bind; [apply aog_execute|]. intros fetched.
  destruct fetched; [aog|].
  apply ao_bind; [apply aog_execute|]. intros fetched. aog.
Qed.

Hypothesis ok_add_issue : forall entry, ok (EvCacheAddIssues [entry] true) = true.

(** What follows the read of the issue in [_fetch_issue_by_issue_id]. *)
Lemma aog_finish_issue (issue_id : sqlval) (bound : option GCDIssue) :
  adds_only ok
    (bind (match bound with
           | Some issue_result => ret issue_result
           | None => raise (UnboundLocalError "issue_result")
           end) (fun issue_result =>
     bind (match i_story_ids issue_result with
           | Some l => ret l
           | None => raise (KeyError "story_ids")
           end) (fun story_ids =>
     bind (_find_issue_credits (P := P) self issue_id story_ids) (fun credits =>
     bind (if download_gui_covers self || download_tag_covers self
           then _find_issue_images (i_id issue_result)
           else ret (i_image issue_result, i_alt_image_urls issue_result)) (fun covers =>
     bind (cvc_add_issues_info
             [{| cci_id := py_str (i_id issue_result);
                 cci_series_id := py_str (i_series_id issue_result);
                 cci_data :=
                   json_dumps_issue P
                     {| i_id := i_id issue_result;
                        i_key_date := i_key_date issue_result;
                        i_number := i_number issue_result;
                        i_issue_title := i_issue_title issue_result;
                        i_series_id := i_series_id issue_result;
                        i_issue_notes := i_issue_notes issue_result;
                        i_volume := i_volume issue_result;
                        i_maturity_rating := i_maturity_rating issue_result;
                        i_country := i_country issue_result;
                        i_country_iso := i_country_iso issue_result;
                        i_story_ids := i_story_ids issue_result;
                        i_characters := i_characters issue_result;
                        i_language := i_language issue_result;
                        i_language_iso := i_language_iso issue_result;
                        i_story_titles := i_story_titles issue_result;
                        i_genres := i_genres issue_result;
                        i_synopses := i_synopses issue_result;
                        i_image := fst covers;
                        i_alt_image_urls := snd covers;
                        i_credits := Some credits;
                        i_covers_downloaded := i_covers_downloaded issue_result |} |}]
             true) (fun _ =>
     ret {| i_id := i_id issue_result;
            i_key_date := i_key_date issue_result;
            i_number := i_number issue_result;
            i_issue_title := i_issue_title issue_result;
            i_series_id := i_series_id issue_result;
            i_issue_notes := i_issue_notes issue_result;
            i_volume := i_volume issue_result;
            i_maturity_rating := i_maturity_rating issue_result;
            i_country := i_country issue_result;
            i_country_iso := i_country_iso issue_result;
            i_story_ids := i_story_ids issue_result;
            i_characters := i_characters issue_result;
            i_language := i_language issue_result;
            i_language_iso := i_language_iso issue_result;
            i_story_titles := i_story_titles issue_result;
            i_genres := i_genres issue_result;
            i_synopses := i_synopses issue_result;
            i_image := fst covers;
            i_alt_image_urls := snd covers;
            i_credits := Some credits;
            i_covers_downloaded := i_covers_downloaded issue_result |})))))).
Proof.
  apply ao_bind; [destruct bound; aog|]. intros issue_result.
  apply ao_bind; [destruct (i_story_ids issue_result); aog|]. intros story_ids.
  apply ao_bind; [apply aog_find_issue_credits|]. intros credits.
  apply ao_bind.
  - destruct (download_gui_covers self || download_tag_covers self); [|aog].
    apply aog_find_issue_images.
  - intros covers. unfold cvc_add_issues_info. aog.
Qed.

Lemma aog_fetch_issue_by_issue_id (issue_id : sqlval) :
  adds_only ok (_fetch_issue_by_issue_id (P := P) self issue_id).
Proof.
  unfold _fetch_issue_by_issue_id, ComicCacher, cvc_get_issue_info.
  apply ao_bind; [aog|]. intros _.
  apply ao_bind; [aog|]. intros cached_issue.
  destruct cached_issue as [[entry [|]]|]; [aog | |].
  all: apply ao_bind; [apply aog_check_create_index|]; intros _.
  all: apply ao_bind; [apply aog_issue_from_database|]; intros bound.
  all: apply aog_finish_issue.
Qed.

Lemma aog_fetch_issue_data_by_issue_id (issue_id : sqlval) :
  adds_only ok (_fetch_issue_data_by_issue_id (P := P) self issue_id).
Proof.
  unfold _fetch_issue_data_by_issue_id.
  apply ao_bind; [apply aog_fetch_issue_by_issue_id|]. intros issue.
  apply ao_bind; [apply aog_fetch_series_data|]. intros series. aog.
Qed.

Lemma aog_fetch_comic_data (issue_id series_id : option string) (issue_number : string) :
  adds_only ok (fetch_comic_data (P := P) self issue_id series_id issue_number).
Proof.
  unfold fetch_comic_data, check_db_filename_not_empty, int_opt.
  apply ao_bind; [aog|]. intros _.
  destruct (truthy_opt issue_id).
  - apply ao_bind; [aog|]. intros n. apply aog_fetch_issue_data_by_issue_id.
  - destruct (Py.nonempty issue_number && truthy_opt series_id); [|aog].
    apply ao_bind; [aog|]. intros n.
    unfold _fetch_issue_data.
    apply ao_bind; [|intros; aog].
    apply ao_try_sqlite.
    apply ao_bind; [apply aog_connect|]. intros con.
    apply ao_bind; [apply aog_execute|]. intros fetched.
    destruct fetched as [id|]; [|aog].
    destruct (truthy id); [|aog].
    apply ao_bind; [apply aog_fetch_issue_data_by_issue_id | intros; aog].
Qed.

End Adds_only_methods.

(* ===================================================================== *)
(** * Cache flags and the cache gate of the lookups by id *)
(* ===================================================================== *)

Lemma added_app (l evs : list event) : added l (l ++ evs) = evs.
Proof.
  unfold added. rewrite skipn_app, skipn_all, Nat.sub_diag. reflexivity.
Qed.

Lemma adds_only_added (P : Platform) (A : Type) (ok : event -> bool) (m : M P A)
    (st : State P) :
  adds_only ok m -> forallb ok (added (log st) (log (snd (m st)))) = true.
Proof. intros H. destruct (H st) as [evs [-> Hok]]. now rewrite added_app. Qed.

(** X9.  Every cache write of [fetch_issues_in_series] stores a series
    flagged complete or issues flagged incomplete; every cache write of
    [fetch_comic_data] stores a series flagged complete or exactly one
    issue flagged complete. *)
Theorem cache_write_flags (P : Platform) (self : Talker) (st : State P) :
  (forall series_id,
     forallb list_fetch_write
       (added (log st) (log (snd (fetch_issues_in_series self series_id st)))) = true)
  /\ (forall issue_id series_id issue_number,
        forallb issue_fetch_write
          (added (log st)
             (log (snd (fetch_comic_data self issue_id series_id issue_number st)))) = true).
Proof.
  split; intros.
  - apply adds_only_added. apply aog_fetch_issues_in_series; intros; reflexivity.
  - apply adds_only_added. apply aog_fetch_comic_data; intros; reflexivity.
Qed.

Lemma in_added_app (e : event) (l l' evs : list event) :
  In e (added l l') -> In e (added l (l' ++ evs)).
Proof.
  unfold added. rewrite skipn_app. intros H. apply in_or_app. now left.
Qed.

Lemma in_added_later (e : event) (l evs l' : list event) :
  In e (added (l ++ evs) l') -> In e (added l l').
Proof.
  unfold added. rewrite length_app, Nat.add_comm, <- skipn_skipn.
  intros H. revert H. generalize (skipn (List.length l) l'). intros x.
  generalize (List.length evs). intros n. revert x.
  induction n as [|n IH]; intros [|y x]; cbn; auto.
Qed.

Section Always_logs.

Variable P : Platform.
Variable e : event.

Lemma al_bind_l (A B : Type) (m : M P A) (k : A -> M P B) :
  always_logs e m -> (forall a, adds_only any_event (k a)) -> always_logs e (bind m k).
Proof.
  intros Hm Hk st. specialize (Hm st). rewrite run_bind.
  destruct (m st) as [[a|x] st'] eqn:E; cbn [snd] in *; [|exact Hm].
  destruct (Hk a st') as [evs [-> _]]. now apply in_added_app.
Qed.

Lemma al_try_sqlite (A : Type) (body : M P A) :
  always_logs e body -> always_logs e (try_sqlite body).
Proof.
  intros H st. specialize (H st). unfold try_sqlite.
  destruct (body st) as [[a|x] st']; cbn [snd] in *; [exact H|].
  destruct x; exact H.
Qed.

End Always_logs.

Lemma al_connect (P : Platform) (path : string) :
  always_logs (EvConnect path) (@sqlite3_connect P path).
Proof.
  intros st.
  assert (H : snd (@sqlite3_connect P path st) = logged st [EvConnect path]).
  { unfold sqlite3_connect. rewrite run_bind, run_emit.
    unfold raise_sql. destruct (connect P path); reflexivity. }
  rewrite H. unfold logged. cbn [log]. rewrite added_app. now left.
Qed.

Lemma any_event_ok (P : Platform) (A : Type) (m : M P A) :
  (forall ok : event -> bool,
     (forall path, ok (EvConnect path) = true) ->
     (forall q, ok (EvQuery q) = true) ->
     (forall url, ok (EvHttpGet url) = true) ->
     ok EvCacheOpen = true ->
     (forall id, ok (EvCacheGetSeries id) = true) ->
     (forall id, ok (EvCacheGetSeriesIssues id) = true) ->
     (forall id, ok (EvCacheGetIssue id) = true) ->
     (forall entry, ok (EvCacheAddSeries entry true) = true) ->
     adds_only ok m) ->
  adds_only any_event m.
Proof. intros H. apply H; reflexivity. Qed.

(** On a cache miss both lookups by id open a connection, whatever
    happens afterwards. *)
Lemma al_issue_miss (P : Platform) (self : Talker)
    (body : Database -> M P (option GCDIssue)) (rest : option GCDIssue -> M P GCDIssue) :
  (forall con, adds_only any_event (body con)) ->
  (forall bound, adds_only any_event (rest bound)) ->
  always_logs (EvConnect (db_file self))
    (bind (check_create_index self) (fun _ =>
     bind (try_sqlite (bind (@sqlite3_connect P (db_file self)) body)) rest)).
Proof.
  intros Hbody Hrest st.
  destruct (has_issue_id_type_id_index st) eqn:Hflag.
  - rewrite run_bind, run_check_create_index_known by exact Hflag.
    apply al_bind_l; [|exact Hrest].
    apply al_try_sqlite. apply al_bind_l; [apply al_connect | exact Hbody].
  - revert st Hflag.
    assert (H : forall st : State P, has_issue_id_type_id_index st = false ->
              In (EvConnect (db_file self))
                (added (log st) (log (snd (check_create_index self st))))).
    { intros st Hflag. unfold check_create_index. rewrite run_bind.
      cbn [get_state]. rewrite Hflag. cbn [negb].
      apply al_try_sqlite. apply al_bind_l; [apply al_connect|].
      intros con. unfold any_event. apply ao_bind; [apply aog_execute; reflexivity|].
      intros found. destruct found; [aog|].
      apply ao_bind; [apply aog_execute; reflexivity | intros; aog]. }
    intros st Hflag. specialize (H st Hflag). rewrite run_bind.
    destruct (check_create_index self st) as [[[]|x] st'] eqn:E; cbn [snd] in *;
      [|exact H].
    assert (Hgrow : adds_only any_event
              (bind (try_sqlite (bind (@sqlite3_connect P (db_file self)) body)) rest)).
    { apply ao_bind; [|exact Hrest]. apply ao_try_sqlite.
      apply ao_bind; [apply aog_connect; reflexivity | exact Hbody]. }
    destruct (Hgrow st') as [evs [-> _]]. now apply in_added_app.
Qed.

Lemma database_events_nil_not_in (e : event) (l : list event) :
  is_query e = true -> In e l -> database_events l <> [].
Proof.
  intros He Hin H.
  assert (Hf : In e (database_events l)) by (apply filter_In; now split).
  rewrite H in Hf. exact Hf.
Qed.

(** X10.  The lookups by id go to the database exactly when the cache has
    no entry flagged complete for the id: [_fetch_issue_by_issue_id] and
    [_fetch_series_data] open no connection and run no statement if and
    only if the cache returns an entry whose flag is set. *)
Theorem database_consulted_unless_complete (P : Platform) (self : Talker) (st : State P) :
  (forall issue_id,
     database_events
       (added (log st) (log (snd (_fetch_issue_by_issue_id self issue_id st)))) = []
     <-> exists entry, get_issue_info P issue_id talker_id (cache st) = Some (entry, true))
  /\ (forall series_id,
        database_events
          (added (log st) (log (snd (_fetch_series_data self series_id st)))) = []
        <-> exists entry,
              get_series_info P (py_str series_id) talker_id (cache st)
              = Some (entry, true)).
Proof.
  split.
  - intros issue_id.
    unfold _fetch_issue_by_issue_id, ComicCacher.
    rewrite run_bind, run_emit, run_bind, run_get_issue_info.
    cbn [cache logged].
    set (st1 := logged (logged st [EvCacheOpen]) [EvCacheGetIssue issue_id]).
    assert (Hlog : log st1 = log st ++ [EvCacheOpen; EvCacheGetIssue issue_id]).
    { unfold st1, logged. cbn [log]. now rewrite <- app_assoc. }
    assert (Hmiss : forall (body : Database -> M P (option GCDIssue))
                (rest : option GCDIssue -> M P GCDIssue),
              (forall con, adds_only any_event (body con)) ->
              (forall bound, adds_only any_event (rest bound)) ->
              database_events
                (added (log st)
                   (log (snd (bind (check_create_index self) (fun _ =>
                              bind (try_sqlite
                                      (bind (@sqlite3_connect P (db_file self)) body))
                                   rest) st1)))) <> []).
    { intros body rest Hbody Hrest.
      apply database_events_nil_not_in with (e := EvConnect (db_file self));
        [reflexivity|].
      apply in_added_later with (evs := [EvCacheOpen; EvCacheGetIssue issue_id]).
      rewrite <- Hlog. now apply (@al_issue_miss P self body rest). }
    destruct (get_issue_info P issue_id talker_id (cache st)) as [[entry [|]]|].
    + split; [intros _; now exists entry|]. intros _.
      replace (log (snd (json_loads (json_loads_issue P) (cci_data entry) st1)))
        with (log st1)
        by (unfold json_loads; destruct (json_loads_issue P (cci_data entry)); reflexivity).
      rewrite Hlog, added_app. reflexivity.
    + split; [|intros [x Hx]; discriminate Hx].
      intros H. exfalso. revert H. apply Hmiss.
      * intros con. apply any_event_ok. intros ok **.
        apply ao_bind; [now apply aog_execute|]. intros fetched.
        destruct fetched; [aog|].
        apply ao_bind; [now apply aog_execute|]. intros fetched. aog.
      * intros bound. apply (@aog_finish_issue P self any_event); reflexivity.
    + split; [|intros [x Hx]; discriminate Hx].
      intros H. exfalso. revert H. apply Hmiss.
      * intros con. apply any_event_ok. intros ok **.
        apply ao_bind; [now apply aog_execute|]. intros fetched.
        destruct fetched; [aog|].
        apply ao_bind; [now apply aog_execute|]. intros fetched. aog.
      * intros bound. apply (@aog_finish_issue P self any_event); reflexivity.
  - intros series_id.
    unfold _fetch_series_data, ComicCacher.
    rewrite run_bind, run_emit, run_bind, run_get_series_info.
    cbn [cache logged].
    set (st1 := logged (logged st [EvCacheOpen]) [EvCacheGetSeries (py_str series_id)]).
    assert (Hlog : log st1
                   = log st ++ [EvCacheOpen; EvCacheGetSeries (py_str series_id)]).
    { unfold st1, logged. cbn [log]. now rewrite <- app_assoc. }
    assert (Hmiss : forall (body : Database -> M P GCDSeries)
                (rest : GCDSeries -> M P GCDSeries),
              (forall con, adds_only any_event (body con)) ->
              (forall result, adds_only any_event (rest result)) ->
              database_events
                (added (log st)
                   (log (snd (bind (try_sqlite
                                      (bind (@sqlite3_connect P (db_file self)) body))
                                   rest st1)))) <> []).
    { intros body rest Hbody Hrest.
      apply database_events_nil_not_in with (e := EvConnect (db_file self));
        [reflexivity|].
      apply in_added_later with (evs := [EvCacheOpen; EvCacheGetSeries (py_str series_id)]).
      rewrite <- Hlog.
      apply al_bind_l; [|exact Hrest].
      apply al_try_sqlite. apply al_bind_l; [apply al_connect | exact Hbody]. }
    assert (Hbody : forall con : Database,
              adds_only any_event
                (bind (execute (P := P) con (QSeries series_id)) (fun fetched =>
                 bind (if download_gui_covers self
                       then bind (_find_series_image self series_id)
                                 (fun image => ret (image, true))
                       else ret (""%string, false)) (fun cover =>
                 match (fetched : option SeriesRow) with
                 | None => raise TypeError
                 | Some record =>
                     ret {| s_count_of_issues := r_issue_count record;
                            s_notes := r_notes record;
                            s_id := r_id record;
                            s_name := r_series_name record;
                            s_sort_name := r_sort_name record;
                            s_publisher_name := r_publisher_name record;
                            s_format := r_format record;
                            s_year_began := r_year_began record;
                            s_year_ended := r_year_ended record;
                            s_image := fst cover;
                            s_cover_downloaded := snd cover |}
                 end)))).
    { intros con.
      apply ao_bind; [now apply aog_execute|]. intros fetched.
      apply ao_bind.
      - destruct (download_gui_covers self); [|aog].
        apply ao_bind; [now apply aog_find_series_image|]. intros; aog.
      - intros cover. destruct fetched; aog. }
    destruct (get_series_info P (py_str series_id) talker_id (cache st))
      as [[entry [|]]|].
    + split; [intros _; now exists entry|]. intros _.
      replace (log (snd (json_loads (json_loads_series P) (ccs_data entry) st1)))
        with (log st1)
        by (unfold json_loads; destruct (json_loads_series P (ccs_data entry)); reflexivity).
      rewrite Hlog, added_app. reflexivity.
    + split; [|intros [x Hx]; discriminate Hx].
      intros H. exfalso. revert H. apply Hmiss; [exact Hbody|].
      intros result. unfold cvc_add_series_info. aog; reflexivity.
    + split; [|intros [x Hx]; discriminate Hx].
      intros H. exfalso. revert H. apply Hmiss; [exact Hbody|].
      intros result. unfold cvc_add_series_info. aog; reflexivity.
Qed.

(* ===================================================================== *)
(** * Looking an issue up by series and number *)
(* ===================================================================== *)

(** A [try] around a body that raises no [sqlite3] exception changes
    nothing. *)
Lemma try_sqlite_same (P : Platform) (A : Type) (allowed : exn -> bool) (body : M P A)
    (st : State P) :
  raises_only allowed (fst (body st)) ->
  (forall e, allowed e = true -> sqlite_exn e = false) ->
  try_sqlite body st = body st.
Proof.
  intros Hro Hno. unfold try_sqlite.
  destruct (body st) as [[a|e] st'] eqn:E; [reflexivity|].
  specialize (Hno e (Hro e eq_refl)).
  destruct e; try reflexivity; discriminate Hno.
Qed.

Lemma issue_series_errors_not_sqlite (e : exn) :
  issue_errors e || series_errors e = true -> sqlite_exn e = false.
Proof. destruct e; cbn; intros H; try reflexivity; discriminate H. Qed.

(** X11.  Looking an issue up by series and number runs one statement for
    the id of the issue and then behaves as the lookup by that id, in
    result and in state; a falsy id gives the empty record with no further
    call. *)
Theorem fetch_comic_data_by_number (P : Platform) (self : Talker)
    (issue_id : option string) (series_id issue_number : string)
    (n : Z) (con : Database) (id : sqlval) (st : State P) :
  Py.nonempty (db_file self) = true ->
  truthy_opt issue_id = false ->
  Py.nonempty issue_number = true ->
  Py.nonempty series_id = true ->
  int_of_str P series_id = Some n ->
  connect P (db_file self) = SqlOk con ->
  con (QIssueId n issue_number) = SqlOk (Some id) ->
  let looked_up :=
    logged st [EvConnect (db_file self); EvQuery (QIssueId n issue_number)] in
  fetch_comic_data self issue_id (Some series_id) issue_number st
  = if truthy id
    then _fetch_issue_data_by_issue_id self id looked_up
    else (Ok empty_metadata, looked_up).
Proof.
  intros Hfile Hid Hnum Hseries Hint Hcon Hq looked_up.
  unfold fetch_comic_data, check_db_filename_not_empty.
  rewrite Hfile, Hid, Hnum. cbn [negb andb truthy_opt]. rewrite Hseries.
  rewrite run_bind. cbn [ret]. cbn [int_opt].
  rewrite run_bind, (run_int _ _ Hint).
  unfold _fetch_issue_data.
  set (body := bind (@sqlite3_connect P (db_file self)) _).
  assert (Hbody : body st
                  = if truthy id
                    then bind (_fetch_issue_data_by_issue_id self id)
                           (fun md => ret (Some md)) looked_up
                    else (Ok None, looked_up)).
  { unfold body. rewrite run_bind, (run_connect _ _ Hcon).
    rewrite run_bind, (run_execute _ _ _ Hq), logged_logged. cbn [app].
    destruct (truthy id); reflexivity. }
  rewrite run_bind.
  rewrite (@try_sqlite_same P _ (fun e => issue_errors e || series_errors e) body st).
  - rewrite Hbody. destruct (truthy id); [|reflexivity].
    rewrite run_bind.
    destruct (_fetch_issue_data_by_issue_id self id looked_up) as [[md|e] st']; reflexivity.
  - rewrite Hbody. destruct (truthy id); [|intros e H; discriminate H].
    intros e H. rewrite run_bind in H.
    pose proof (@ro_fetch_issue_data_by_issue_id P self id looked_up e) as Hro.
    destruct (_fetch_issue_data_by_issue_id self id looked_up) as [[md|e'] st'];
      cbn [fst] in *; [discriminate H|].
    apply Hro. inversion H. reflexivity.
  - exact issue_series_errors_not_sqlite.
Qed.

Lemma fetch_comic_data_by_number_witness :
  fetch_comic_data Demo.talker None (Some "3") "7" (Demo.state_with Demo.empty_store)
  = _fetch_issue_data_by_issue_id Demo.talker (VInt 7)
      (logged (Demo.state_with Demo.empty_store)
         [EvConnect "gcd.db"; EvQuery (QIssueId 3 "7")]).
Proof.
  exact (@fetch_comic_data_by_number Demo.platform Demo.talker None "3" "7" 3 Demo.db
           (VInt 7) (Demo.state_with Demo.empty_store)
           eq_refl eq_refl eq_refl eq_refl eq_refl eq_refl eq_refl).
Defined.

(* ===================================================================== *)
(** * The cover of a series *)
(* ===================================================================== *)

Lemma run_find_issue_images (P : Platform) (issue_id : sqlval) (st : State P)
    (covers_html : string) (urls : list string) :
  http_get P (cover_url issue_id) = HttpOk covers_html ->
  find_cover_imgs P covers_html = map Some urls ->
  _find_issue_images issue_id st
  = (Ok (hd ""%string (map strip_query urls), tl (map strip_query urls)),
     logged st [EvHttpGet (cover_url issue_id)]).
Proof.
  intros Hget Himgs. unfold _find_issue_images.
  rewrite run_bind, run_emit. fold (cover_url issue_id). rewrite Hget.
  unfold lift. now rewrite Himgs, images_loop_first.
Qed.

Lemma run_find_series_image (P : Platform) (self : Talker) (series_id first : sqlval)
    (st : State P) (con : Database) (covers_html : string) (urls : list string) :
  connect P (db_file self) = SqlOk con ->
  con (QFirstIssueId series_id) = SqlOk (Some first) ->
  (truthy first = true ->
   http_get P (cover_url first) = HttpOk covers_html /\
   find_cover_imgs P covers_html = map Some urls) ->
  _find_series_image self series_id st
  = (Ok (if truthy first then hd ""%string (map strip_query urls) else ""%string),
     logged st ([EvConnect (db_file self); EvQuery (QFirstIssueId series_id)]
                ++ (if truthy first then [EvHttpGet (cover_url first)] else []))).
Proof.
  intros Hcon Hq Hpage. unfold _find_series_image.
  rewrite run_bind.
  rewrite (@try_sqlite_ok P _ _ first st
             (logged st [EvConnect (db_file self); EvQuery (QFirstIssueId series_id)])).
  - destruct (truthy first).
    + destruct (Hpage eq_refl) as [Hget Himgs].
      rewrite run_bind, (@run_find_issue_images P first _ covers_html urls Hget Himgs), logged_logged.
      reflexivity.
    + cbn [app]. reflexivity.
  - rewrite run_bind, (run_connect _ _ Hcon).
    rewrite run_bind, (@run_execute P con (QFirstIssueId series_id) (Some first) _ Hq).
    now rewrite logged_logged.
Qed.

(** X12.  With the GUI cover option on, a series that is not served from
    the cache gets the cover of its first issue: after the series
    statement the id of the first issue is read on a second connection,
    one request fetches the cover page of that issue, and the first image
    of the page, cut off at its first ["?"], becomes the image of the
    series.  A series without a first issue gets the image [""] and no
    request is made.  Either way the series is stored flagged complete
    with [cover_downloaded] set. *)
Theorem fetch_series_data_cover (P : Platform) (self : Talker) (series_id first : sqlval)
    (st : State P) (con : Database) (record : SeriesRow)
    (covers_html : string) (urls : list string) :
  download_gui_covers self = true ->
  (forall entry, get_series_info P (py_str series_id) talker_id (cache st)
                 <> Some (entry, true)) ->
  connect P (db_file self) = SqlOk con ->
  con (QSeries series_id) = SqlOk (Some record) ->
  con (QFirstIssueId series_id) = SqlOk (Some first) ->
  (truthy first = true ->
   http_get P (cover_url first) = HttpOk covers_html /\
   find_cover_imgs P covers_html = map Some urls) ->
  let image := if truthy first then hd ""%string (map strip_query urls) else ""%string in
  let series := series_of_row record image true in
  _fetch_series_data self series_id st
  = (Ok series,
     with_cache (logged st (series_cover_events P self series_id first series))
       (add_series_info P talker_id (CCSeries_of P series) true (cache st))).
Proof.
  intros Hgui Hmiss Hcon Hq Hfirst Hpage image series.
  assert (Hbody : forall st',
    try_sqlite
      (bind (@sqlite3_connect P (db_file self)) (fun con0 =>
       bind (execute con0 (QSeries series_id)) (fun fetched =>
       bind (if download_gui_covers self
             then bind (_find_series_image self series_id) (fun image => ret (image, true))
             else ret (""%string, false)) (fun cover =>
       match (fetched : option SeriesRow) with
       | None => raise TypeError
       | Some record0 =>
           ret {| s_count_of_issues := r_issue_count record0;
                  s_notes := r_notes record0;
                  s_id := r_id record0;
                  s_name := r_series_name record0;
                  s_sort_name := r_sort_name record0;
                  s_publisher_name := r_publisher_name record0;
                  s_format := r_format record0;
                  s_year_began := r_year_began record0;
                  s_year_ended := r_year_ended record0;
                  s_image := fst cover;
                  s_cover_downloaded := snd cover |}
       end)))) st'
    = (Ok series,
       logged st' ([EvConnect (db_file self); EvQuery (QSeries series_id);
                    EvConnect (db_file self); EvQuery (QFirstIssueId series_id)]
                   ++ (if truthy first then [EvHttpGet (cover_url first)] else [])))).
  { intros st'. apply try_sqlite_ok.
    rewrite run_bind, (run_connect _ _ Hcon).
    rewrite run_bind, (@run_execute P con (QSeries series_id) (Some record) _ Hq).
    rewrite Hgui, !run_bind.
    rewrite (@run_find_series_image P self series_id first _ con covers_html urls
               Hcon Hfirst Hpage).
    unfold ret. rewrite !logged_logged. reflexivity. }
  unfold _fetch_series_data, ComicCacher.
  rewrite run_bind, run_emit, run_bind, run_get_series_info. cbn [logged cache].
  destruct (get_series_info P (py_str series_id) talker_id (cache st))
    as [[entry [|]]|] eqn:E; [now elim (Hmiss entry) | |].
  all: rewrite run_bind, Hbody.
  all: unfold cvc_add_series_info.
  all: rewrite !run_bind, run_emit; cbn [get_state set_cache ret].
  all: unfold with_cache, logged, series_cover_events; cbn [cache log has_issue_id_type_id_index].
  all: rewrite <- !app_assoc; reflexivity.
Qed.

(** Series 3 of the demonstration database: its first issue is issue 1,
    whose cover page shows three images. *)
Lemma fetch_series_data_cover_witness :
  fst (_fetch_series_data Covers.talker (VInt 3) (Demo.state_with Demo.empty_store))
  = Ok (series_of_row (Demo.series_row 3 10) "https://files1.comics.org/img/a.jpg" true)
  /\ count_requests
       (log (snd (_fetch_series_data Covers.talker (VInt 3)
                    (Demo.state_with Demo.empty_store)))) = 1.
Proof.
  pose proof (@fetch_series_data_cover Demo.platform Covers.talker (VInt 3) (VInt 1)
                (Demo.state_with Demo.empty_store) Demo.db (Demo.series_row 3 10)
                Demo.cover_page
                ["https://files1.comics.org/img/a.jpg?1";
                 "https://files1.comics.org/img/b.jpg?2";
                 "https://files1.comics.org/img/c.jpg?3"]
                eq_refl (fun entry H => eq_ind None
                           (fun x => match x with None => True | Some _ => False end)
                           I _ H)
                eq_refl eq_refl eq_refl (fun _ => conj eq_refl eq_refl)) as H.
  cbv zeta in H. rewrite H. split; reflexivity.
Defined.

(* ===================================================================== *)
(** * Running the other methods *)
(* ===================================================================== *)

Lemma called_called (P : Platform) (w : World P) (c1 c2 : list call) :
  called (called w c1) c2 = called w (c1 ++ c2).
Proof. unfold called. cbn. now rewrite app_assoc. Qed.

Lemma called_nil (P : Platform) (w : World P) : called w [] = w.
Proof. destruct w. unfold called. cbn. now rewrite app_nil_r. Qed.

Lemma xrun_bind (P : Platform) (A B : Type) (m : XM P A) (k : A -> XM P B) (w : World P) :
  xbind m k w = match m w with
                | (Ok a, w') => k a w'
                | (Raise e, w') => (Raise e, w')
                end.
Proof. reflexivity. Qed.

Lemma xrun_emit (P : Platform) (c : call) (w : World P) :
  xemit c w = (Ok tt, called w [c]).
Proof. reflexivity. Qed.

(** Connecting from the world. *)
Lemma xrun_connect (P : Platform) (path : string) (w : World P) :
  run_base (@sqlite3_connect P path) w
  = (match connect P path with
     | SqlOk con => Ok con
     | SqlDataErr msg => Raise (SqliteDataError msg)
     | SqlErr msg => Raise (SqliteError msg)
     end,
     called w [Base (EvConnect path)]).
Proof.
  unfold run_base. rewrite run_connect_cases.
  destruct (connect P path); reflexivity.
Qed.

Lemma xrun_execute (P : Platform) (X : Extension P) (con : Database) (q : statement)
    (w : World P) :
  xexecute X con q w
  = (match answers X con q with
     | SqlOk a => Ok a
     | SqlDataErr msg => Raise (SqliteDataError msg)
     | SqlErr msg => Raise (SqliteError msg)
     end,
     called w [Statement q]).
Proof.
  unfold xexecute. rewrite xrun_bind, xrun_emit.
  destruct (answers X con q); reflexivity.
Qed.

(* ===================================================================== *)
(** * The status check *)
(* ===================================================================== *)


(** X13.  [check_status] probes the file named by the ["gcd_url"] setting,
    not the file the talker is configured with: it reports success exactly
    when the file opens and the probe statement runs, reports failure
    without raising when either fails, runs the probe only on an open
    connection, and leaves the cache and the index flag alone. *)
Theorem check_status_reports (P : Platform) (X : Extension P)
    (settings : list (string * string)) (path : string) (w : World P) :
  gcd_url settings = Some path ->
  let r := check_status X settings w in
  fst r = Ok (if database_answers X path
              then ("The DB access test was successful"%string, true)
              else ("DB access failed"%string, false))
  /\ w_cache (snd r) = w_cache w
  /\ w_has_index (snd r) = w_has_index w
  /\ w_log (snd r)
     = w_log w ++ Base (EvConnect path)
                  :: match connect P path with
                     | SqlOk _ => [Statement QCreditTypes]
                     | _ => []
                     end.
Proof.
  unfold gcd_url, database_answers, check_status. intros Hurl.
  destruct (find _ settings) as [[k v]|]; [|discriminate Hurl].
  cbn [snd] in Hurl. inversion Hurl; subst v. cbn [snd].
  rewrite xrun_bind, xrun_connect.
  destruct (connect P path) as [con|msg|msg]; [|cbn; repeat split..].
  rewrite xrun_bind, xrun_execute.
  destruct (answers X con QCreditTypes) as [[]|msg|msg]; cbn;
    rewrite <- app_assoc; repeat split.
Qed.

Lemma check_status_reports_witness :
  fst (check_status Search.extension [("gcd_url", "gcd.db")]
         (Search.world_with Search.empty_store))
  = Ok ("The DB access test was successful"%string, true)
  /\ fst (check_status Search.extension [("gcd_url", ""%string)]
            (Search.world_with Search.empty_store))
     = Ok ("DB access failed"%string, false).
Proof.
  split.
  - exact (proj1 (@check_status_reports Search.platform Search.extension
                    [("gcd_url", "gcd.db")] "gcd.db"
                    (Search.world_with Search.empty_store) eq_refl)).
  - exact (proj1 (@check_status_reports Search.platform Search.extension
                    [("gcd_url", ""%string)] ""
                    (Search.world_with Search.empty_store) eq_refl)).
Defined.

(* ===================================================================== *)
(** * The search *)
(* ===================================================================== *)

Lemma xrun_get_search_results (P : Platform) (X : Extension P) (series_name : string)
    (w : World P) :
  cvc_get_search_results X series_name w
  = (Ok (get_search_results X talker_id series_name (w_cache w)),
     called w [CacheGetSearch series_name]).
Proof. reflexivity. Qed.

Lemma xrun_check_db_filename (P : Platform) (self : Talker) (w : World P) :
  run_base (check_db_filename_not_empty (P := P) self) w
  = (if Py.nonempty (db_file self) then Ok tt
     else Raise (TalkerDataError talker_name 3
                   "Database path is empty, specify a path and filename!"),
     w).
Proof.
  unfold run_base, check_db_filename_not_empty.
  destruct (Py.nonempty (db_file self)); cbn; rewrite app_nil_r; now destruct w.
Qed.

(** X14.  A search that may use the cache and finds results stored under
    the name returns them, decoded and formatted in the stored order,
    after opening the cache and reading the search table only: the
    database path is not checked and no connection is opened, so the
    search answers even on a talker without a database. *)
Theorem search_for_series_served_from_cache (P : Platform) (X : Extension P)
    (self : Talker) (series_name : string) (w : World P)
    (records : list FoundSeries) :
  get_search_results X talker_id series_name (w_cache w) <> [] ->
  decode_found X (get_search_results X talker_id series_name (w_cache w)) = Ok records ->
  search_for_series X self series_name false false w
  = (Ok (map format_found records),
     called w [Base EvCacheOpen; CacheGetSearch series_name]).
Proof.
  intros Hne Hdec. unfold search_for_series. cbn [negb andb].
  rewrite xrun_bind, xrun_emit, xrun_bind, xrun_bind, xrun_get_search_results.
  cbn [w_cache called].
  destruct (get_search_results X talker_id series_name (w_cache w)) as [|x l];
    [now elim Hne|].
  rewrite xrun_bind. unfold xlift. rewrite Hdec. cbn.
  unfold called. cbn. now rewrite <- app_assoc.
Qed.

Lemma search_for_series_served_from_cache_witness :
  fst (search_for_series Search.extension Demo.unconfigured "Batman" false false
         (Search.world_with Search.searched))
  = Ok (map format_found
          [found_of_row (Search.search_row 3 10); found_of_row (Search.search_row 4 2)]).
Proof.
  exact (f_equal fst
           (@search_for_series_served_from_cache Search.platform Search.extension
              Demo.unconfigured "Batman" (Search.world_with Search.searched)
              [found_of_row (Search.search_row 3 10); found_of_row (Search.search_row 4 2)]
              (fun H => eq_ind
                          (get_search_results Search.extension talker_id "Batman"
                             (w_cache (Search.world_with Search.searched)))
                          (fun l => match l with [] => False | _ :: _ => True end)
                          I _ H)
              eq_refl)).
Defined.

(** X15.  A search that does not use the cache (it was told to refresh, or
    the name is literal) or finds nothing stored under the name runs one
    statement on one connection, returns one series per row in row order,
    each with an empty image, and stores the records under the name as
    given, flagged incomplete; with a refresh or a literal name the search
    table is not read at all. *)
Theorem search_for_series_from_database (P : Platform) (X : Extension P)
    (self : Talker) (series_name : string) (refresh_cache literal : bool)
    (w : World P) (con : Database) (rows : list SearchRow) :
  (negb refresh_cache && negb literal = true ->
   get_search_results X talker_id series_name (w_cache w) = []) ->
  Py.nonempty (db_file self) = true ->
  connect P (db_file self) = SqlOk con ->
  answers X con (QSearchSeries series_name) = SqlOk rows ->
  let results := map found_of_row rows in
  search_for_series X self series_name refresh_cache literal w
  = (Ok (map format_found results),
     with_store
       (called w (search_calls X self series_name refresh_cache literal results))
       (add_search_results X talker_id series_name (map (CCSeries_of_found X) results)
          false (w_cache w)))
  /\ Forall (fun series => cs_image_url series = ""%string) (map format_found results).
Proof.
  intros Hmiss Hfile Hcon Hq results. split.
  - unfold search_for_series, search_calls.
    rewrite xrun_bind, xrun_emit, xrun_bind.
    assert (Hserved :
      (if negb refresh_cache && negb literal
       then xbind (cvc_get_search_results X series_name) (fun cached =>
              match cached with
              | _ :: _ =>
                  xbind (xlift (decode_found X cached)) (fun records =>
                  xret (Some (map format_found records)))
              | [] => xret None
              end)
       else xret None) (called w [Base EvCacheOpen])
      = (Ok None,
         called w (Base EvCacheOpen
                   :: (if negb refresh_cache && negb literal
                       then [CacheGetSearch series_name] else [])))).
    { destruct (negb refresh_cache && negb literal).
      - rewrite xrun_bind, xrun_get_search_results. cbn [w_cache called].
        rewrite (Hmiss eq_refl). unfold xret. now rewrite called_called.
      - reflexivity. }
    rewrite Hserved.
    rewrite xrun_bind, xrun_check_db_filename, Hfile.
    rewrite xrun_bind.
    assert (Hbody : forall w',
      xtry_sqlite
        (xbind (run_base (@sqlite3_connect P (db_file self))) (fun con0 =>
         xbind (xexecute X con0 (QSearchSeries series_name)) (fun rows0 =>
         xret (map found_of_row (rows0 : list SearchRow))))) w'
      = (Ok results,
         called w' [Base (EvConnect (db_file self)); Statement (QSearchSeries series_name)])).
    { intros w'. unfold xtry_sqlite.
      rewrite xrun_bind, xrun_connect, Hcon, xrun_bind, xrun_execute, Hq.
      unfold xret. now rewrite called_called. }
    rewrite Hbody. unfold cvc_add_search_results.
    rewrite !xrun_bind, xrun_emit. cbn [xret]. unfold xret, with_store, called.
    cbn [w_cache w_has_index w_log]. rewrite <- !app_assoc. reflexivity.
  - apply Forall_forall. intros series Hin.
    unfold results in Hin. rewrite map_map in Hin.
    apply in_map_iff in Hin as [record [<- _]]. reflexivity.
Qed.

Lemma search_for_series_from_database_witness :
  fst (search_for_series Search.extension Demo.talker "Batman" false true
         (Search.world_with Search.searched))
  = Ok (map format_found
          [found_of_row (Search.search_row 3 10); found_of_row (Search.search_row 4 2)])
  /\ w_log (snd (search_for_series Search.extension Demo.talker "Batman" false true
                   (Search.world_with Search.searched)))
     = [Base EvCacheOpen; Base (EvConnect "gcd.db"); Statement (QSearchSeries "Batman");
        CacheAddSearch "Batman"
          [{| ccs_id := "3"; ccs_data := "3" |}; {| ccs_id := "4"; ccs_data := "4" |}]
          false].
Proof.
  pose proof (proj1 (@search_for_series_from_database Search.platform Search.extension
                       Demo.talker "Batman" false true
                       (Search.world_with Search.searched) Demo.db
                       [Search.search_row 3 10; Search.search_row 4 2]
                       (fun H => False_ind _ (Bool.diff_false_true H))
                       eq_refl eq_refl eq_refl)) as H.
  cbv zeta in H. rewrite H. split; reflexivity.
Defined.

(* ===================================================================== *)
(** * What the other methods raise *)
(* ===================================================================== *)

Section XRaises_only_in.

Variable P : Platform.
Variable X : Extension P.
Variable allowed : exn -> bool.






Lemma xro_weaken (A : Type) (small : exn -> bool) (m : XM P A) :
  xraises_only_in small m ->
  (forall e, small e = true -> allowed e = true) ->
  xraises_only_in allowed m.
Proof. intros Hm Hincl w e H. apply Hincl. exact (Hm w e H). Qed.



End XRaises_only_in.






Section Match_errors.

Variable P : Platform.
Variable X : Extension P.
Variable self : Talker.





End Match_errors.



(* ===================================================================== *)
(** * What the match by number and year calls *)
(* ===================================================================== *)

Section XAdds_only.

Variable P : Platform.
Variable X : Extension P.
Variable ok : call -> bool.

Lemma xao_ret (A : Type) (a : A) : xadds_only ok (xret (P := P) a).
Proof. intros w. exists []. cbn. now rewrite app_nil_r. Qed.

Lemma xao_raise (A : Type) (e : exn) : xadds_only ok (xraise (P := P) (A := A) e).
Proof. intros w. exists []. cbn. now rewrite app_nil_r. Qed.

Lemma xao_lift (A : Type) (r : result A) : xadds_only ok (xlift (P := P) r).
Proof. intros w. exists []. cbn. now rewrite app_nil_r. Qed.

Lemma xao_emit (c : call) : ok c = true -> xadds_only ok (xemit (P := P) c).
Proof. intros Hc w. exists [c]. cbn. now rewrite Hc. Qed.

Lemma xao_bind (A B : Type) (m : XM P A) (k : A -> XM P B) :
  xadds_only ok m -> (forall a, xadds_only ok (k a)) -> xadds_only ok (xbind m k).
Proof.
  intros Hm Hk w. unfold xbind. destruct (Hm w) as [c1 [H1 Hok1]].
  destruct (m w) as [[a|e] w']; cbn [snd] in *; [|now exists c1].
  destruct (Hk a w') as [c2 [H2 Hok2]]. exists (c1 ++ c2).
  rewrite H2, H1, app_assoc, forallb_app, Hok1, Hok2. now split.
Qed.

Lemma xao_try_sqlite (A : Type) (body : XM P A) :
  xadds_only ok body -> xadds_only ok (xtry_sqlite body).
Proof.
  intros Hb w. unfold xtry_sqlite. specialize (Hb w).
  destruct (body w) as [[a|e] w']; [exact Hb|]. destruct e; exact Hb.
Qed.

Lemma xao_run_base (A : Type) (m : M P A) :
  adds_only (fun e => ok (Base e)) m -> xadds_only ok (run_base m).
Proof.
  intros Hm w. unfold run_base. cbn [snd w_log].
  destruct (Hm {| cache := w_cache w; has_issue_id_type_id_index := w_has_index w;
                  log := [] |}) as [evs [Hlog Hok]].
  cbn [log app] in Hlog. exists (map Base evs). rewrite Hlog. split; [reflexivity|].
  clear Hlog. induction evs as [|e evs IH]; [reflexivity|].
  cbn in *. apply andb_true_iff in Hok as [He Hok]. now rewrite He, IH.
Qed.

Lemma xao_execute (con : Database) (q : statement) :
  ok (Statement q) = true -> xadds_only ok (xexecute X con q).
Proof.
  intros Hq w. rewrite xrun_execute. exists [Statement q]. cbn. now rewrite Hq.
Qed.

End XAdds_only.

Section Match_calls.

Variable P : Platform.
Variable X : Extension P.
Variable self : Talker.
Variable series_id_list : list string.
Variable issue_number : string.
Variable year : option Z.

Let ok : call -> bool := match_call self series_id_list issue_number year.

(** A series lookup requests a page only under the GUI cover option. *)
Lemma xao_fetch_series_data (series_id : sqlval) :
  xadds_only ok (run_base (_fetch_series_data (P := P) self series_id)).
Proof.
  apply xao_run_base.
  destruct (download_gui_covers self) eqn:Hgui.
  - apply aog_fetch_series_data; try reflexivity.
    intros url. unfold ok, match_call. now rewrite Hgui.
  - unfold _fetch_series_data, ComicCacher, cvc_get_series_info, cvc_add_series_info,
      sqlite3_connect, execute.
    rewrite Hgui. ao.
Qed.

Lemma xao_match_rows_loop (series : GCDSeries) (rows : list row) :
  forall results, xadds_only ok (match_rows_loop (P := P) self series rows results).
Proof.
  induction rows as [|record rest IH]; intros results; cbn [match_rows_loop].
  - apply xao_ret.
  - apply xao_bind; [apply xao_lift|]. intros issue.
    apply xao_bind.
    { destruct (download_tag_covers self) eqn:Htag; [|apply xao_ret].
      apply xao_bind; [|intros; apply xao_ret].
      apply xao_run_base. unfold _find_issue_images.
      apply ao_bind.
      - apply ao_emit. unfold ok, match_call. rewrite Htag. apply orb_true_r.
      - intros _. destruct (http_get P _); ao. }
    intros issue'. apply xao_bind; [apply xao_lift|]. intros md. apply IH.
Qed.

Lemma xao_match_series_loop (con : Database) (rest : list string) :
  (forall vid, In vid rest -> existsb (String.eqb vid) series_id_list = true) ->
  forall results,
    xadds_only ok
      (match_series_loop X self con issue_number year (year_search year) rest results).
Proof.
  induction rest as [|vid rest IH]; intros Hin results; cbn [match_series_loop].
  - apply xao_ret.
  - assert (Hvid : existsb (String.eqb vid) series_id_list = true)
      by (apply Hin; now left).
    apply xao_bind.
    { apply xao_run_base. apply ao_int. }
    intros n. apply xao_bind; [apply xao_fetch_series_data|].
    intros series. apply xao_bind.
    { apply xao_execute. unfold ok, match_call.
      now rewrite Hvid, !String.eqb_refl. }
    intros rows. apply xao_bind.
    { destruct rows; [|apply xao_match_rows_loop].
      apply xao_bind; [|intros; apply xao_match_rows_loop].
      apply xao_execute. unfold ok, match_call.
      now rewrite Hvid, !String.eqb_refl. }
    intros results'. apply IH. intros v Hv. apply Hin. now right.
Qed.

Lemma xao_fetch_issues_by_series_issue_num_and_year :
  xadds_only ok
    (fetch_issues_by_series_issue_num_and_year X self series_id_list issue_number year).
Proof.
  unfold fetch_issues_by_series_issue_num_and_year. fold (year_search year).
  apply xao_bind.
  { apply xao_run_base. apply aog_check_create_index; reflexivity. }
  intros _. apply xao_try_sqlite.
  apply xao_bind.
  { apply xao_run_base. apply aog_connect. reflexivity. }
  intros con. apply xao_match_series_loop.
  intros vid Hvid. apply existsb_exists. exists vid. split; [exact Hvid|].
  apply String.eqb_refl.
Qed.

End Match_calls.

Lemma added_calls_app (l calls : list call) :
  skipn (List.length l) (l ++ calls) = calls.
Proof. rewrite skipn_app, skipn_all, Nat.sub_diag. reflexivity. Qed.

(** X18.  On every path, returning or raising,
    [fetch_issues_by_series_issue_num_and_year] requests a page only when
    a cover option is on; it reads and writes the series table of the
    cache (flagged complete) but never the issue table or the search
    table; and the only statements of its own are the two matches, for a
    series of the list and the number given, the first with the year as a
    prefix (or any key date when the year is falsy) and the second with
    [str(year)] as a prefix, which is ["None%"] when there is no year. *)
Theorem fetch_issues_by_series_issue_num_and_year_calls (P : Platform)
    (X : Extension P) (self : Talker) (series_id_list : list string)
    (issue_number : string) (year : option Z) (w : World P) :
  forallb (match_call self series_id_list issue_number year)
    (skipn (List.length (w_log w))
       (w_log (snd (fetch_issues_by_series_issue_num_and_year X self series_id_list
                      issue_number year w)))) = true.
Proof.
  destruct (@xao_fetch_issues_by_series_issue_num_and_year P X self series_id_list
              issue_number year w) as [calls [-> Hok]].
  now rewrite added_calls_app.
Qed.

(* ===================================================================== *)
(** * The match of one series *)
(* ===================================================================== *)

Lemma xrun_match_rows_loop (P : Platform) (self : Talker) (series : GCDSeries)
    (rows : list row) :
  download_tag_covers self = false ->
  forall (results : list GenericMetadata) (w : World P),
    match_rows_loop self series rows results w
    = (match traverse (matched P self series) rows with
       | Ok mds => Ok (results ++ mds)
       | Raise e => Raise e
       end, w).
Proof.
  intros Htag. induction rows as [|record rest IH]; intros results w;
    cbn [match_rows_loop traverse].
  - cbn. now rewrite app_nil_r.
  - rewrite xrun_bind. unfold xlift at 1. unfold matched at 1.
    destruct (_format_gcd_issue record false) as [issue|e]; [|reflexivity].
    cbn [bind_result]. rewrite Htag, xrun_bind. unfold xret at 1.
    rewrite xrun_bind. unfold xlift at 1.
    destruct (_map_comic_issue_to_metadata P self issue series) as [md|e]; [|reflexivity].
    cbn [bind_result]. rewrite IH.
    destruct (traverse (matched P self series) rest) as [mds|e]; [|reflexivity].
    cbn [bind_result]. now rewrite <- app_assoc.
Qed.

(** X19.  For a single series, once the index check, the connection and
    the series lookup have gone through, the match runs the statement
    with stories under the pattern of the year and, only when that finds
    no row, the statement without stories under [str(year) + "%"]; with
    the tag-cover option off it returns the rows of the statement that
    found some, formatted in the summary shape and normalized in row
    order, and calls nothing else. *)
Theorem fetch_issues_by_series_issue_num_and_year_one_series (P : Platform)
    (X : Extension P) (self : Talker) (vid issue_number : string) (year : option Z)
    (w : World P) (con : Database) (n : Z) (series : GCDSeries)
    (with_stories without_stories : list row) (mds : list GenericMetadata) :
  let checked := run_base (check_create_index self) w in
  let looked_up :=
    run_base (_fetch_series_data self (VInt n))
      (called (snd checked) [Base (EvConnect (db_file self))]) in
  download_tag_covers self = false ->
  fst checked = Ok tt ->
  connect P (db_file self) = SqlOk con ->
  int_of_str P vid = Some n ->
  fst looked_up = Ok series ->
  answers X con (QMatchWithStories vid issue_number (year_search year))
  = SqlOk with_stories ->
  (with_stories = [] ->
   answers X con (QMatch vid issue_number (str_year year ++ "%")) = SqlOk without_stories) ->
  traverse (matched P self series)
    (match with_stories with [] => without_stories | _ :: _ => with_stories end)
  = Ok mds ->
  fetch_issues_by_series_issue_num_and_year X self [vid] issue_number year w
  = (Ok mds,
     called (snd looked_up) (match_statements vid issue_number year with_stories)).
Proof.
  intros checked looked_up Htag Hcheck Hcon Hint Hseries Hfirst Hsecond Hmds.
  unfold fetch_issues_by_series_issue_num_and_year. fold (year_search year).
  rewrite xrun_bind. fold checked.
  rewrite (pair_of_fst checked Hcheck).
  unfold xtry_sqlite. rewrite xrun_bind, xrun_connect, Hcon.
  cbn [match_series_loop].
  rewrite xrun_bind.
  assert (Hn : run_base (@int P vid) (called (snd checked) [Base (EvConnect (db_file self))])
               = (Ok n, called (snd checked) [Base (EvConnect (db_file self))])).
  { unfold run_base, int. rewrite Hint. cbn. rewrite app_nil_r. reflexivity. }
  rewrite Hn, xrun_bind. fold looked_up. rewrite (pair_of_fst looked_up Hseries).
  rewrite xrun_bind, xrun_execute, Hfirst, xrun_bind.
  unfold match_statements.
  destruct with_stories as [|record rest].
  - rewrite xrun_bind, xrun_execute, (Hsecond eq_refl).
    rewrite (@xrun_match_rows_loop P self series without_stories Htag), Hmds,
      called_called.
    reflexivity.
  - rewrite (@xrun_match_rows_loop P self series (record :: rest) Htag), Hmds.
    reflexivity.
Qed.

(** Issue 41 of series 4 has no stories.  Matched under the year 1940 it
    is found by the second statement; matched without a year the second
    statement asks for a key date like ["None%"] and finds nothing. *)
Lemma fetch_issues_by_series_issue_num_and_year_one_series_witness :
  (exists md,
     fst (fetch_issues_by_series_issue_num_and_year Search.extension Demo.talker
            ["4"] "41" (Some 1940%Z) (Search.world_with Search.empty_store))
     = Ok [md])
  /\ fst (fetch_issues_by_series_issue_num_and_year Search.extension Demo.talker
            ["4"] "41" None (Search.world_with Search.empty_store))
     = Ok []
  /\ match_statements "4" "41" None []
     = [Statement (QMatchWithStories "4" "41" "%"); Statement (QMatch "4" "41" "None%")].
Proof.
  split; [|split]; [| |reflexivity].
  - eexists.
    exact (f_equal fst
             (@fetch_issues_by_series_issue_num_and_year_one_series Search.platform
                Search.extension Demo.talker "4" "41" (Some 1940%Z)
                (Search.world_with Search.empty_store) Demo.db 4
                (Demo.series_of_row (Demo.series_row 4 2)) [] [Demo.issue_row 4 41] _
                eq_refl eq_refl eq_refl eq_refl eq_refl eq_refl (fun _ => eq_refl)
                eq_refl)).
  - exact (f_equal fst
             (@fetch_issues_by_series_issue_num_and_year_one_series Search.platform
                Search.extension Demo.talker "4" "41" None
                (Search.world_with Search.empty_store) Demo.db 4
                (Demo.series_of_row (Demo.series_row 4 2)) [] [] []
                eq_refl eq_refl eq_refl eq_refl eq_refl eq_refl (fun _ => eq_refl)
                eq_refl)).
Defined.

(* ===================================================================== *)
(** * Rows that format *)
(* ===================================================================== *)












(* ===================================================================== *)
(** * The cache gate of the issue list, and the record it counts against *)
(* ===================================================================== *)

(** A series read from the database under the GUI cover option. *)
Lemma run_fetch_series_data_cover (P : Platform) (self : Talker) (series_id first : sqlval)
    (st : State P) (con : Database) (record : SeriesRow)
    (covers_html : string) (urls : list string) :
  download_gui_covers self = true ->
  (forall entry, get_series_info P (py_str series_id) talker_id (cache st)
                 <> Some (entry, true)) ->
  connect P (db_file self) = SqlOk con ->
  con (QSeries series_id) = SqlOk (Some record) ->
  con (QFirstIssueId series_id) = SqlOk (Some first) ->
  (truthy first = true ->
   http_get P (cover_url first) = HttpOk covers_html /\
   find_cover_imgs P covers_html = map Some urls) ->
  let image := if truthy first then hd ""%string (map strip_query urls) else ""%string in
  let series := series_of_row record image true in
  _fetch_series_data self series_id st
  = (Ok series,
     with_cache (logged st (series_cover_events P self series_id first series))
       (add_series_info P talker_id (CCSeries_of P series) true (cache st))).
Proof.
  intros Hgui Hmiss Hcon Hq Hfirst Hpage image series.
  assert (Hbody : forall st',
    try_sqlite
      (bind (@sqlite3_connect P (db_file self)) (fun con0 =>
       bind (execute con0 (QSeries series_id)) (fun fetched =>
       bind (if download_gui_covers self
             then bind (_find_series_image self series_id) (fun image => ret (image, true))
             else ret (""%string, false)) (fun cover =>
       match (fetched : option SeriesRow) with
       | None => raise TypeError
       | Some record0 =>
           ret {| s_count_of_issues := r_issue_count record0;
                  s_notes := r_notes record0;
                  s_id := r_id record0;
                  s_name := r_series_name record0;
                  s_sort_name := r_sort_name record0;
                  s_publisher_name := r_publisher_name record0;
                  s_format := r_format record0;
                  s_year_began := r_year_began record0;
                  s_year_ended := r_year_ended record0;
                  s_image := fst cover;
                  s_cover_downloaded := snd cover |}
       end)))) st'
    = (Ok series,
       logged st' ([EvConnect (db_file self); EvQuery (QSeries series_id);
                    EvConnect (db_file self); EvQuery (QFirstIssueId series_id)]
                   ++ (if truthy first then [EvHttpGet (cover_url first)] else [])))).
  { intros st'. apply try_sqlite_ok.
    rewrite run_bind, (run_connect _ _ Hcon).
    rewrite run_bind, (@run_execute P con (QSeries series_id) (Some record) _ Hq).
    rewrite Hgui, !run_bind.
    rewrite (@run_find_series_image P self series_id first _ con covers_html urls
               Hcon Hfirst Hpage).
    unfold ret. rewrite !logged_logged. reflexivity. }
  unfold _fetch_series_data, ComicCacher.
  rewrite run_bind, run_emit, run_bind, run_get_series_info. cbn [logged cache].
  destruct (get_series_info P (py_str series_id) talker_id (cache st))
    as [[entry [|]]|] eqn:E; [now elim (Hmiss entry) | |].
  all: rewrite run_bind, Hbody.
  all: unfold cvc_add_series_info.
  all: rewrite !run_bind, run_emit; cbn [get_state set_cache ret].
  all: unfold with_cache, logged, series_cover_events; cbn [cache log has_issue_id_type_id_index].
  all: rewrite <- !app_assoc; reflexivity.
Qed.

(** The lookup of a series ends as [series_read] says. *)
Lemma series_read_run (P : Platform) (self : Talker) (n : Z) (st : State P)
    (series : GCDSeries) (read : State P) :
  series_read self n st series read ->
  _fetch_series_data self (VInt n) st = (Ok series, read).
Proof.
  intros [entry cached Hget Hloads | con record first covers_html urls Hmiss Hcon Hq Hcover].
  - exact (@run_fetch_series_data_hit P self (VInt n) st entry cached Hget Hloads).
  - unfold series_cover, series_database_calls.
    destruct (download_gui_covers self) eqn:Hgui.
    + destruct (Hcover eq_refl) as [Hfirst Hpage].
      rewrite (@run_fetch_series_data_cover P self (VInt n) first st con record
                 covers_html urls Hgui Hmiss Hcon Hq Hfirst Hpage).
      reflexivity.
    + rewrite (@run_fetch_series_data_miss P self (VInt n) st con record
                 Hgui Hmiss Hcon Hq).
      reflexivity.
Qed.

(** C2, as amended.  [fetch_issues_in_series] reads the cached issue list
    of the series and then looks the series up.  The record it counts
    against is the one [series_read] describes: the decoded entry of the
    series cache when that entry is flagged complete, and a row of the
    database only otherwise.  When the record's issue count equals the
    number of cached issue entries, the cached entries are returned,
    decoded and normalized one by one, and nothing further is called.
    When it differs (nine entries against a count of ten, say) no use is
    made of the cached entries: after the index check the issue statement
    of the series is executed (and the statement without stories when that
    returns no rows), the series is looked up again, every fresh issue is
    written to the cache in one call, flagged incomplete, under its own id
    and the series id as given, and the fresh issues are returned
    normalized. *)
Theorem fetch_issues_in_series_cache_gate (P : Platform) (self : Talker)
    (series_id : string) (n : Z) (st : State P) (series : GCDSeries) (read : State P) :
  int_of_str P series_id = Some n ->
  series_read self n (logged st [EvCacheOpen; EvCacheGetSeriesIssues series_id])
    series read ->
  let cached := get_series_issues_info P series_id talker_id (cache st) in
  (s_count_of_issues series = VInt (Z.of_nat (List.length cached)) ->
   fetch_issues_in_series self series_id st = (decode_cached P self series cached, read))
  /\ (s_count_of_issues series <> VInt (Z.of_nat (List.length cached)) ->
      forall (con : Database) (found : bool) (with_stories without_stories : list row)
             (results : list GCDIssue) (series' : GCDSeries) (read' : State P),
        connect P (db_file self) = SqlOk con ->
        con QIndexExists = SqlOk found ->
        (found = false -> con QCreateIndex = SqlOk tt) ->
        con (QSeriesIssuesWithStories n) = SqlOk with_stories ->
        (with_stories = [] -> con (QSeriesIssues n) = SqlOk without_stories) ->
        let rows := match with_stories with [] => without_stories | _ => with_stories end in
        traverse (fun record => _format_gcd_issue record false) rows = Ok results ->
        let queried :=
          logged (index_checked self read found)
            (EvConnect (db_file self) :: EvQuery (QSeriesIssuesWithStories n)
             :: match with_stories with [] => [EvQuery (QSeriesIssues n)] | _ => [] end) in
        series_read self n queried series' read' ->
        let fresh :=
          map (fun x => {| cci_id := py_str (i_id x);
                           cci_series_id := series_id;
                           cci_data := json_dumps_issue P x |}) results in
        fetch_issues_in_series self series_id st
        = (traverse (fun x => _map_comic_issue_to_metadata P self x series') results,
           with_cache (logged read' [EvCacheAddIssues fresh false])
             (add_issues_info P talker_id fresh false (cache read')))).
Proof.
  intros Hint Hread cached.
  apply series_read_run in Hread.
  destruct (@fetch_issues_in_series_gate_on_record P self series_id n st series Hint)
    as [Hhit Hmiss]; [now rewrite Hread|].
  rewrite Hread in Hhit, Hmiss. cbn [snd] in Hhit, Hmiss.
  split; [exact Hhit|].
  intros Hcount con found with_stories without_stories results series' read'
    Hcon Hfound Hcreate Hq1 Hq2 rows Hformat queried Hread' fresh.
  apply series_read_run in Hread'.
  pose proof (@run_check_create_index_ok P self read con found Hcon Hfound Hcreate)
    as Hindex.
  specialize (Hmiss Hcount con with_stories without_stories results series').
  rewrite Hindex in Hmiss. cbn [fst snd] in Hmiss.
  specialize (Hmiss eq_refl Hcon Hq1 Hq2 Hformat).
  fold queried in Hmiss. rewrite Hread' in Hmiss. cbn [fst snd] in Hmiss.
  exact (Hmiss eq_refl).
Qed.

(** Series 4 has two issues and both are cached: the record read from the
    database counts two, and the list comes from the cache.  Series 3 has
    ten issues and nine are cached: the record read from the database
    counts ten, the ten issues come from the database and are written to
    the cache. *)
Lemma fetch_issues_in_series_cache_gate_witness :
  (exists l,
      fst (fetch_issues_in_series Demo.talker "4" (Demo.state_with Demo.two_of_two)) = Ok l /\
      List.length l = 2) /\
  (exists l,
      List.length (get_series_issues_info Demo.platform "3" talker_id Demo.nine_of_ten) = 9 /\
      fst (fetch_issues_in_series Demo.talker "3" (Demo.state_with Demo.nine_of_ten)) = Ok l /\
      List.length l = 10).
Proof.
  split.
  - destruct (@fetch_issues_in_series_cache_gate Demo.platform Demo.talker "4" 4%Z
                (Demo.state_with Demo.two_of_two) _ _ eq_refl
                (@series_read_database Demo.platform Demo.talker 4%Z
                   (logged (Demo.state_with Demo.two_of_two)
                      [EvCacheOpen; EvCacheGetSeriesIssues "4"])
                   Demo.db (Demo.series_row 4 2) VNull ""%string []
                   (fun entry H => eq_ind None
                      (fun x => match x with None => True | Some _ => False end) I _ H)
                   eq_refl eq_refl
                   (fun H => False_ind _ (Bool.diff_false_true H))))
      as [Hhit _].
    eexists. rewrite Hhit by reflexivity. cbn [fst].
    split; [vm_compute; reflexivity | reflexivity].
  - destruct (@fetch_issues_in_series_cache_gate Demo.platform Demo.talker "3" 3%Z
                (Demo.state_with Demo.nine_of_ten) _ _ eq_refl
                (@series_read_database Demo.platform Demo.talker 3%Z
                   (logged (Demo.state_with Demo.nine_of_ten)
                      [EvCacheOpen; EvCacheGetSeriesIssues "3"])
                   Demo.db (Demo.series_row 3 10) VNull ""%string []
                   (fun entry H => eq_ind None
                      (fun x => match x with None => True | Some _ => False end) I _ H)
                   eq_refl eq_refl
                   (fun H => False_ind _ (Bool.diff_false_true H))))
      as [_ Hmiss].
    assert (Hne : VInt 10 <> VInt 9) by discriminate.
    specialize (Hmiss Hne Demo.db true Demo.series3_rows [] Demo.series3_issues
                  (Demo.series_of_row (Demo.series_row 3 10))).
    eexists. split; [reflexivity|].
    erewrite Hmiss.
    + cbn [fst]. split; [vm_compute; reflexivity | reflexivity].
    + reflexivity.
    + reflexivity.
    + intros H. discriminate H.
    + reflexivity.
    + reflexivity.
    + reflexivity.
    + apply (@series_read_cached Demo.platform Demo.talker 3%Z _
               {| ccs_id := "3"; ccs_data := "3" |}
               (Demo.series_of_row (Demo.series_row 3 10)));
        reflexivity.
Defined.

(** C2, as stated, fails.  The database counts ten issues for series 3,
    but the series cache holds an entry, flagged complete, whose record
    counts nine.  With nine issues cached the gate compares nine with
    nine, not with ten: the nine cached issues are returned and the
    database is never opened. *)
Lemma fetch_issues_in_series_cache_gate_counterexample :
  let run := fetch_issues_in_series Demo.talker "3" Stale.state in
  connect Stale.platform (db_file Demo.talker) = SqlOk Demo.db /\
  Demo.db (QSeries (VInt 3)) = SqlOk (Some (Demo.series_row 3 10)) /\
  r_issue_count (Demo.series_row 3 10) = VInt 10 /\
  List.length (get_series_issues_info Stale.platform "3" talker_id (cache Stale.state)) = 9 /\
  (exists l, fst run = Ok l /\ List.length l = 9) /\
  existsb is_query (log (snd run)) = false /\
  cache (snd run) = cache Stale.state.
Proof.
  cbv zeta. repeat split; try (vm_compute; reflexivity).
  eexists. split; [vm_compute; reflexivity | reflexivity].
Qed.
